(** * NSDF writer: the append/dialect engine and the cross-reference linker

    A shallow embedding of [python/nsdf/nsdfwriter.py].  The HDF5 file the
    writer owns is a finite map from absolute paths to groups and datasets;
    every method of [NSDFWriter] is a computation in a state-and-exception
    monad over the writer object, so that what a failed call leaves behind
    in the file can be stated and proved. *)

From Stdlib Require Import Floats.
From stdpp Require Import gmap strings list.

Open Scope string_scope.
Open Scope list_scope.
Open Scope nat_scope.

(** ** Names and paths *)

(** An HDF5 absolute path, one string per component: [/data/uniform/pop] is
    [["data"; "uniform"; "pop"]].  A dataset or group handle of h5py is the
    path of the object it denotes, so two handles of one object alias. *)
Abbreviation path := (list string).

(** Modelled from the spec: [constants.py] is not among the sources; the
    spec gives the four namespaces of [/map] and [/data]. *)
Definition UNIFORM : string := "uniform".
Definition NONUNIFORM : string := "nonuniform".
Definition EVENT : string := "event".
Definition STATIC : string := "static".
Definition SAMPLING_TYPES : list string := [UNIFORM; NONUNIFORM; EVENT; STATIC].

(** Modelled from the spec: the members of [constants.dialect], named in the
    class docstring and in the assertions of the writer. *)
Inductive dialect_t := ONED | VLEN | NANPADDED | NUREGULAR.

#[global] Instance dialect_eq_dec : EqDecision dialect_t.
Proof. solve_decision. Defined.

(** ** The store *)

(** Attribute values the writer stores. *)
Inductive attr :=
| AFloat (x : option float)
| AStr (s : string)
| ARef (p : path)
| ARefs (ps : list path).

(** Contents of a dataset, by the dtype and rank the writer creates. *)
Inductive payload :=
| Ids (l : list string)                      (* 1-D, dtype VLENSTR *)
| SrcMap (l : list (string * option path))   (* 1-D, dtype SRCDATAMAPTYPE *)
| Array1 (l : list float)                    (* 1-D numeric *)
| Array2 (rows : list (list float))          (* 2-D numeric *)
| Ragged (rows : list (list float))          (* 1-D of variable-length rows *)
| Ragged32 (rows : list (list float)).       (* the same, of dtype VLENFLOAT *)

Record dataset := mkDataset {
  ds_data : payload;
  ds_fill : float;                           (* fillvalue *)
  ds_maxshape : option (list (option nat));  (* None: created without maxshape *)
  ds_attrs : gmap string attr;
  ds_scale : option string;                  (* name given by dims.create_scale *)
  ds_dims : list (nat * path);               (* scales attached, by axis *)
  ds_labels : list (nat * string)            (* dims[axis].label *)
}.

Inductive node :=
| Group (attrs : gmap string attr)
| Dataset (d : dataset).

Definition node_attrs (n : node) : gmap string attr :=
  match n with Group a => a | Dataset d => ds_attrs d end.

Definition set_node_attr (k : string) (v : attr) (n : node) : node :=
  match n with
  | Group a => Group (<[k := v]> a)
  | Dataset d =>
      Dataset (mkDataset (ds_data d) (ds_fill d) (ds_maxshape d)
                 (<[k := v]> (ds_attrs d)) (ds_scale d) (ds_dims d) (ds_labels d))
  end.

Definition set_data (x : payload) (d : dataset) : dataset :=
  mkDataset x (ds_fill d) (ds_maxshape d) (ds_attrs d) (ds_scale d)
    (ds_dims d) (ds_labels d).

Definition new_dataset (x : payload) (fill : float)
    (maxshape : option (list (option nat))) : dataset :=
  mkDataset x fill maxshape ∅ None [] [].

(** ** Exceptions *)

(** One constructor per [raise], [assert] and library failure of the module. *)
Inductive exn :=
| KeyError_sources        (* KeyError('members of `source_ds` must match ...') *)
| AssertionError_sources  (* assert match_datasets(...) *)
| ValueError_dt           (* '`dt` must be > 0.0 for creating dataset.' *)
| ValueError_unit         (* '`unit` is required for creating dataset.' *)
| ValueError_tunit        (* '`tunit` is required for creating dataset.' *)
| ValueError_times        (* 'number sampling times must be same as ...' *)
| ValueError_idlist       (* 'idlist must be nonempty' *)
| AssertionError_idlist   (* assert len(idlist) > 0 *)
| AssertionError_dialect  (* assert self.dialect == ... *)
| Exception_dialect       (* Exception('add 2D vlen dataset ... only for dialect=VLEN') *)
| KeyError_lookup         (* a name missing from a group, a dict or a batch *)
| H5_exists               (* h5py: create on a name already in use *)
| H5_resize               (* h5py: resize beyond maxshape, or not resizable *)
| H5_kind                 (* h5py: the object is not of the kind used *)
| ValueError_shape        (* numpy / h5py: shapes do not agree *)
| IndexError              (* index out of range *)
| ValueError_empty        (* max() of an empty sequence *)
| ValueError_noname.      (* h5py: an object asked for by an empty name *)

#[global] Instance exn_eq_dec : EqDecision exn.
Proof. solve_decision. Defined.

(** The exceptions a Python [except KeyError] clause catches. *)
Definition is_KeyError (e : exn) : bool :=
  match e with KeyError_sources | KeyError_lookup => true | _ => false end.

(** The error taxonomy of the specification (section 7). *)
Inductive spec_error :=
| EmptyInput | Conflict | SourceMismatch | DialectMismatch
| MissingMetadata | ShapeMismatch.

Definition classify (e : exn) : option spec_error :=
  match e with
  | KeyError_sources | AssertionError_sources => Some SourceMismatch
  | ValueError_dt | ValueError_unit | ValueError_tunit => Some MissingMetadata
  | ValueError_times => Some ShapeMismatch
  | ValueError_idlist | AssertionError_idlist => Some EmptyInput
  | AssertionError_dialect | Exception_dialect => Some DialectMismatch
  | H5_exists => Some Conflict
  | _ => None
  end.

(** ** The writer object and its monad *)

(** [self]: the dialect, the open file, the uid-to-path dictionary that
    [self.modelroot.get_id_path_dict()] returns after
    [update_id_path_dict()] (the class [ModelComponent] is an external
    collaborator; tree paths are kept as component lists, the first being
    [modeltree]), and what [print] has written. *)
Record NSDFWriter := mkWriter {
  dialect : dialect_t;
  fd : gmap path node;
  id_path_dict : gmap string path;
  stdout : list string
}.

Definition set_fd (f : gmap path node → gmap path node) (w : NSDFWriter) : NSDFWriter :=
  mkWriter (dialect w) (f (fd w)) (id_path_dict w) (stdout w).

Inductive result (A : Type) :=
| Ok (a : A)
| Raise (e : exn).
Arguments Ok {A} a.
Arguments Raise {A} e.

(** A method call: from the writer before to the writer after, which is
    there also when the call raises. *)
Definition M (A : Type) : Type := NSDFWriter → NSDFWriter * result A.

Definition raise {A} (e : exn) : M A := λ w, (w, Raise e).

#[global] Instance M_ret : MRet M := λ A a w, (w, Ok a).
#[global] Instance M_bind : MBind M := λ A B k m w,
  match m w with
  | (w', Ok a) => k a w'
  | (w', Raise e) => (w', Raise e)
  end.

(** [try: body  except KeyError: handler] *)
Definition try_except_KeyError {A} (body handler : M A) : M A :=
  λ w, match body w with
       | (w', Ok a) => (w', Ok a)
       | (w', Raise e) => if is_KeyError e then handler w' else (w', Raise e)
       end.

Definition lift_option {A} (e : exn) (o : option A) : M A :=
  match o with Some a => mret a | None => raise e end.

Definition assert_ (b : bool) (e : exn) : M unit :=
  if b then mret tt else raise e.

Fixpoint for_each {A} (l : list A) (body : A → M unit) : M unit :=
  match l with
  | [] => mret tt
  | x :: l' => body x ;; for_each l' body
  end.

Fixpoint enumerate_from {A} (i : nat) (l : list A) : list (nat * A) :=
  match l with
  | [] => []
  | x :: l' => (i, x) :: enumerate_from (S i) l'
  end.
Definition enumerate {A} (l : list A) : list (nat * A) := enumerate_from 0 l.

(** ** h5py *)

(** [group[name]]: KeyError when nothing is there. *)
Definition h5_getitem (p : path) : M node :=
  λ w, match fd w !! p with
       | Some n => (w, Ok n)
       | None => (w, Raise KeyError_lookup)
       end.

Definition h5_dataset (p : path) : M dataset :=
  n ← h5_getitem p;
  match n with Dataset d => mret d | Group _ => raise H5_kind end.

(** [parent.require_group(name)] *)
Definition require_group (parent : path) (name : string) : M path :=
  λ w, let p := parent ++ [name] in
       match fd w !! p with
       | None => (set_fd <[p := Group ∅]> w, Ok p)
       | Some (Group _) => (w, Ok p)
       | Some (Dataset _) => (w, Raise H5_kind)
       end.

(** [parent.create_group(name)] *)
Definition create_group (parent : path) (name : string) : M path :=
  λ w, let p := parent ++ [name] in
       match fd w !! p with
       | None => (set_fd <[p := Group ∅]> w, Ok p)
       | Some _ => (w, Raise H5_exists)
       end.

(** [parent.create_dataset(name, ...)] *)
Definition create_dataset (parent : path) (name : string) (d : dataset) : M path :=
  λ w, let p := parent ++ [name] in
       match fd w !! p with
       | None => (set_fd <[p := Dataset d]> w, Ok p)
       | Some _ => (w, Raise H5_exists)
       end.

(** [obj.attrs[k] = v] *)
Definition attrs_set (p : path) (k : string) (v : attr) : M unit :=
  n ← h5_getitem p;
  (λ w, (set_fd <[p := set_node_attr k v n]> w, Ok tt)) : M unit.

(** Replace the dataset behind a handle. *)
Definition put_dataset (p : path) (d : dataset) : M unit :=
  λ w, (set_fd <[p := Dataset d]> w, Ok tt).

(** A handle held by the caller ([source_ds], a dataset just looked up):
    the dataset it denotes. *)
Definition h5_handle (p : path) : M dataset :=
  λ w, match fd w !! p with
       | Some (Dataset d) => (w, Ok d)
       | _ => (w, Raise H5_kind)
       end.

(** [[ref for ref in obj.attrs.get(k, [])]] *)
Definition attrs_get_refs (p : path) (k : string) : M (list path) :=
  n ← h5_getitem p;
  match node_attrs n !! k with
  | None => mret []
  | Some (ARefs l) => mret l
  | Some _ => raise H5_kind
  end.

(** [for item in source_ds], for a mapping dataset of dtype VLENSTR. *)
Definition iter_ids (source_ds : path) : M (list string) :=
  d ← h5_handle source_ds;
  match ds_data d with Ids l => mret l | _ => raise H5_kind end.

(** [source_ds['source']], for a mapping dataset of dtype SRCDATAMAPTYPE. *)
Definition source_column (source_ds : path) : M (list string) :=
  d ← h5_handle source_ds;
  match ds_data d with SrcMap l => mret (l.*1) | _ => raise H5_kind end.

(** [source_ds.name.rpartition('/')[-1]] *)
Definition rpartition_last (p : path) : string := default "" (last p).

(** [source_ds.name.split('/')[-2]] *)
Definition split_penultimate (p : path) : string :=
  match reverse p with _ :: y :: _ => y | _ => "" end.

(** ['{}_{}'.format(a, b)] *)
Definition format2 (a b : string) : string := a +:+ "_" +:+ b.

(** [dataset.dims.create_scale(scale, name)] *)
Definition create_scale (scale : path) (name : string) : M unit :=
  d ← h5_handle scale;
  put_dataset scale
    (mkDataset (ds_data d) (ds_fill d) (ds_maxshape d) (ds_attrs d)
       (Some name) (ds_dims d) (ds_labels d)).

(** [dataset.dims[axis].attach_scale(scale)] *)
Definition attach_scale (ds : path) (axis : nat) (scale : path) : M unit :=
  d ← h5_handle ds;
  put_dataset ds
    (mkDataset (ds_data d) (ds_fill d) (ds_maxshape d) (ds_attrs d)
       (ds_scale d) (ds_dims d ++ [(axis, scale)]) (ds_labels d)).

(** [dataset.dims[axis].label = label] *)
Definition set_label (ds : path) (axis : nat) (label : string) : M unit :=
  d ← h5_handle ds;
  put_dataset ds
    (mkDataset (ds_data d) (ds_fill d) (ds_maxshape d) (ds_attrs d)
       (ds_scale d) (ds_dims d) (ds_labels d ++ [(axis, label)])).

(** [dset.dims[axis][name]]: the scale of that name attached to the axis. *)
Definition is_scale_named (f : gmap path node) (name : string) (p : path) : bool :=
  match f !! p with
  | Some (Dataset d) => bool_decide (ds_scale d = Some name)
  | _ => false
  end.

Fixpoint find_scale (f : gmap path node) (axis : nat) (name : string)
    (dims : list (nat * path)) : option path :=
  match dims with
  | [] => None
  | (a, p) :: dims' =>
      if (a =? axis) && is_scale_named f name p then Some p
      else find_scale f axis name dims'
  end.

Definition get_writer : M NSDFWriter := λ w, (w, Ok w).

Definition dims_getitem (ds : path) (axis : nat) (name : string) : M path :=
  d ← h5_handle ds;
  w ← get_writer;
  lift_option KeyError_lookup (find_scale (fd w) axis name (ds_dims d)).

(** ** numpy *)

(** [np.vstack(rows)] of 1-D arrays. *)
Definition vstack (rows : list (list float)) : M (list (list float)) :=
  match rows with
  | [] => raise ValueError_shape
  | r :: rs =>
      if forallb (λ r', length r' =? length r) rs then mret rows
      else raise ValueError_shape
  end.

(** [a.shape[1]] of a 2-D array. *)
Definition shape1 (rows : list (list float)) : nat :=
  match rows with [] => 0 | r :: _ => length r end.

(** Python's [max] of a sequence of integers. *)
Definition py_max (l : list nat) : M nat :=
  match l with
  | [] => raise ValueError_empty
  | x :: l' => mret (foldr Nat.max x l')
  end.

Definition within (size : nat) (lim : option nat) : bool :=
  match lim with None => true | Some m => size <=? m end.

Definition resize_row (fill : float) (size : nat) (row : list float) : list float :=
  take size row ++ replicate (size - length row) fill.

(** [dataset.resize(size, axis=1)] of a 2-D dataset: rows are cut or
    padded with the fill value; h5py refuses a dataset created without
    [maxshape] and a size beyond it. *)
Definition resize_axis1 (p : path) (size : nat) : M unit :=
  d ← h5_handle p;
  match ds_data d with
  | Array2 rows =>
      match ds_maxshape d with
      | Some [_; lim] =>
          if within size lim
          then put_dataset p (set_data (Array2 (resize_row (ds_fill d) size <$> rows)) d)
          else raise H5_resize
      | _ => raise H5_resize
      end
  | _ => raise H5_kind
  end.

(** [dset.resize((size,))] of a 1-D numeric dataset. *)
Definition resize_1d (p : path) (size : nat) : M unit :=
  d ← h5_handle p;
  match ds_data d with
  | Array1 l =>
      match ds_maxshape d with
      | Some [lim] =>
          if within size lim
          then put_dataset p (set_data (Array1 (resize_row (ds_fill d) size l)) d)
          else raise H5_resize
      | _ => raise H5_resize
      end
  | _ => raise H5_kind
  end.

(** [dataset[:, start:] = data]: [data] must have the shape of the
    selection (broadcasting of a lone row is not modelled). *)
Definition write_columns (p : path) (start : nat) (data : list (list float)) : M unit :=
  d ← h5_handle p;
  match ds_data d with
  | Array2 rows =>
      if (length rows =? length data)
         && forallb (λ rx, length rx.1 =? start + length rx.2) (zip rows data)
      then put_dataset p (set_data (Array2 (zip_with (λ r x, take start r ++ x) rows data)) d)
      else raise ValueError_shape
  | _ => raise H5_kind
  end.

(** [dset[start:] = data] on a 1-D numeric dataset. *)
Definition write_tail (p : path) (start : nat) (data : list float) : M unit :=
  d ← h5_handle p;
  match ds_data d with
  | Array1 l =>
      if length l =? start + length data
      then put_dataset p (set_data (Array1 (take start l ++ data)) d)
      else raise ValueError_shape
  | _ => raise H5_kind
  end.

(** [dataset[iii, s:e] = data]: the slice is clipped to the row.  h5py
    writes [data] when it fills the slice, returns at once when the slice
    selects nothing, repeats a lone value over the slice, and refuses any
    other shape. *)
Definition write_row_slice (p : path) (iii s e : nat) (data : list float) : M unit :=
  d ← h5_handle p;
  match ds_data d with
  | Array2 rows =>
      match rows !! iii with
      | None => raise IndexError
      | Some r =>
          let n := (e `min` length r) - s in
          if length data =? n
          then put_dataset p
                 (set_data
                    (Array2 (<[iii := take s r ++ data ++ drop (s + length data) r]> rows)) d)
          else if n =? 0 then mret tt
          else match data with
               | [x] =>
                   put_dataset p
                     (set_data
                        (Array2 (<[iii := take s r ++ replicate n x ++ drop (s + n) r]> rows))
                        d)
               | _ => raise ValueError_shape
               end
      end
  | _ => raise H5_kind
  end.

(** [dataset[iii]] of a 2-D dataset. *)
Definition read_row (p : path) (iii : nat) : M (list float) :=
  d ← h5_handle p;
  match ds_data d with
  | Array2 rows => lift_option IndexError (rows !! iii)
  | _ => raise H5_kind
  end.

(** Modelled from the spec: [constants.py] is not among the sources.
    [VLENFLOAT] is the variable-length dtype of single-precision floats:
    the writer notes that it is not the double-precision one ("VLENFLOAT
    should be made VLENDOUBLE", "h5py does not support vlen datasets with
    float64 elements").  [float32 x] is the binary64 value of [x]
    converted to binary32, to nearest with ties to even: what is read back
    after [x] was written to a dataset of that dtype. *)
Definition float32 (x : float) : float :=
  match Prim2SF x with
  | S754_finite s m e => SF2Prim (SpecFloat.binary_round 24 128 s m e)
  | _ => x
  end.

(** [dataset[iii]] and [dataset[iii] = row] of a variable-length dataset;
    a row written to a dataset of dtype VLENFLOAT is stored in single
    precision. *)
Definition read_vlen (p : path) (iii : nat) : M (list float) :=
  d ← h5_handle p;
  match ds_data d with
  | Ragged rows | Ragged32 rows => lift_option IndexError (rows !! iii)
  | _ => raise H5_kind
  end.

Definition write_vlen (p : path) (iii : nat) (row : list float) : M unit :=
  d ← h5_handle p;
  match ds_data d with
  | Ragged rows =>
      if iii <? length rows
      then put_dataset p (set_data (Ragged (<[iii := row]> rows)) d)
      else raise IndexError
  | Ragged32 rows =>
      if iii <? length rows
      then put_dataset p (set_data (Ragged32 (<[iii := float32 <$> row]> rows)) d)
      else raise IndexError
  | _ => raise H5_kind
  end.

(** [dataset.shape[1]] and [dataset.shape[0]] *)
Definition ds_shape1 (p : path) : M nat :=
  d ← h5_handle p;
  match ds_data d with Array2 rows => mret (shape1 rows) | _ => raise IndexError end.

Definition ds_shape0 (p : path) : M nat :=
  d ← h5_handle p;
  mret (match ds_data d with
        | Ids l => length l
        | SrcMap l => length l
        | Array1 l => length l
        | Array2 rows => length rows
        | Ragged rows | Ragged32 rows => length rows
        end).

(** Modelled from the spec: [util.find] is not among the sources.
    [next(find(row, np.isnan))[0][0]] is the index of the first sentinel
    cell of the row, and [StopIteration] is raised when the row has none. *)
Fixpoint find_isnan (row : list float) : option nat :=
  match row with
  | [] => None
  | x :: row' => if PrimFloat.is_nan x then Some 0 else S <$> find_isnan row'
  end.

(** ** Batches *)

(** What the writer reads from a data object ([nsdfdata.py] is an external
    collaborator): its name, metadata, source list and per-source lookup,
    which raises KeyError on an unknown source.  [D] is a sample array for
    uniform, static and event data, and a (data, time) pair for
    nonuniform data. *)
Record NSDFData (D : Type) := mkData {
  d_name : string;
  d_unit : option string;
  d_field : string;
  d_tunit : option string;
  d_dt : option float;
  get_sources : list string;
  get_data : string → option D;
  get_times : list float
}.
Arguments mkData {D}.
Arguments d_name {D}.
Arguments d_unit {D}.
Arguments d_field {D}.
Arguments d_tunit {D}.
Arguments d_dt {D}.
Arguments get_sources {D}.
Arguments get_data {D}.
Arguments get_times {D}.

(** [data_object.get_data(src)] *)
Definition data_of {D} (data_object : NSDFData D) (src : string) : M D :=
  lift_option KeyError_lookup (get_data data_object src).

(** [data_object.dt <= 0.0]; Python 2 orders [None] below every number. *)
Definition dt_le_zero (dt : option float) : bool :=
  match dt with None => true | Some x => PrimFloat.leb x 0%float end.

(** ** match_datasets *)

Definition match_datasets (hdfds pydata : list string) : bool :=
  let src_set : gset string := list_to_set hdfds in
  let dsrc_set : gset string := list_to_set pydata in
  bool_decide (src_set = dsrc_set).

(** ** NSDFWriter *)

(** The long-lived group handles of [self]. *)
Definition data_grp : path := ["data"].
Definition model_grp : path := ["model"].
Definition mapping_grp : path := ["map"].
Definition time_dim : path := ["map"; "time"].
Definition modeltree : path := ["model"; "modeltree"].

(** [__init__], on the file as [h5.File(filename, mode)] opened it (its
    root group is at the empty path); [timestamp] is the clock reading. *)
Definition init_file (timestamp : string) : M unit :=
  attrs_set [] "timestamp" (AStr timestamp);;
  attrs_set [] "version" (AStr "0.1");;
  require_group [] "data";;
  require_group [] "model";;
  require_group [] "map";;
  require_group mapping_grp "time";;
  require_group model_grp "modeltree";;
  for_each SAMPLING_TYPES (λ stype,
    require_group data_grp stype;;
    require_group mapping_grp stype;;
    mret tt).

Definition NSDFWriter_init (file : gmap path node) (d : dialect_t)
    (timestamp : string) : NSDFWriter * result unit :=
  init_file timestamp
    (mkWriter d file {["modeltree" := ["modeltree"]]} []).

(** [print error.message] *)
Definition print (s : string) : M unit :=
  λ w, (mkWriter (dialect w) (fd w) (id_path_dict w) (stdout w ++ [s]), Ok tt).

Section Linker.

(** [model.common_prefix] is imported from a module that is not among the
    sources: the linker is modelled for any such function.  On tree paths
    kept as component lists, the slice [[len('/modeltree/'):]] drops the
    leading [modeltree] component. *)
Variable common_prefix : list path → path.

(** [self.modeltree[prefix]] with an empty [prefix], which is what the
    slice leaves when the common prefix is the root of the tree: HDF5
    refuses an empty name, and the exception h5py makes of the refusal
    depends on the library beneath it.  Where the name is rejected in the
    argument check of [H5Oopen] (H5E_BADVALUE) h5py raises a
    [ValueError], which the [except KeyError] clause lets through; where
    the failure is reported as that of opening the object
    (H5E_CANTOPENOBJ) it raises a [KeyError], which the clause catches.
    The linker is modelled for either: [noname] is the exception
    raised. *)
Variable noname : exn.

Definition _link_map_model (mapds : path) : M unit :=
  w ← get_writer;
  let id_path_dict := id_path_dict w in
  d ← h5_handle mapds;
  idlist ← match ds_data d with
           | Ids l => mret l
           | SrcMap l => mret (l.*1)
           | _ => raise H5_kind
           end;
  if 1 <? size id_path_dict then
    paths ← mapM (λ uid, lift_option KeyError_lookup (id_path_dict !! uid)) idlist;
    let prefix := drop 1 (common_prefix paths) in
    try_except_KeyError
      (let source := modeltree ++ prefix in
       _ ← match prefix with [] => raise noname | _ => h5_getitem source end;
       tmpattr ← attrs_get_refs source "map";
       attrs_set source "map" (ARefs (tmpattr ++ [mapds]));;
       tmpattr ← attrs_get_refs mapds "map";
       attrs_set mapds "model" (ARefs (tmpattr ++ [source])))
      (print "KeyError")
  else mret tt.

(** The mapping dataset of [create_dataset(name, shape=(len(idlist),),
    dtype=VLENSTR, data=idlist)]. *)
Definition ids_dataset (idlist : list string) : dataset :=
  new_dataset (Ids idlist) 0%float None.

(** The mapping dataset of dtype SRCDATAMAPTYPE after
    [src_ds[iii] = (idlist[iii], None)] for every row. *)
Definition srcmap_dataset (idlist : list string) : dataset :=
  new_dataset (SrcMap ((λ uid, (uid, None)) <$> idlist)) 0%float None.

Definition add_uniform_ds (name : string) (idlist : list string) : M path :=
  if length idlist =? 0 then raise ValueError_idlist else
  base ← try_except_KeyError
           (_ ← h5_getitem (mapping_grp ++ [UNIFORM]); mret (mapping_grp ++ [UNIFORM]))
           (create_group mapping_grp UNIFORM);
  src_ds ← create_dataset base name (ids_dataset idlist);
  _link_map_model src_ds;;
  mret src_ds.

Definition add_nonuniform_ds (popname : string) (idlist : list string) : M path :=
  base ← require_group mapping_grp NONUNIFORM;
  w ← get_writer;
  assert_ (negb (bool_decide (dialect w = ONED))) AssertionError_dialect;;
  assert_ (0 <? length idlist) AssertionError_idlist;;
  src_ds ← create_dataset base popname (ids_dataset idlist);
  _link_map_model src_ds;;
  mret src_ds.

Definition add_nonuniform_ds_1d (popname varname : string) (idlist : list string) : M path :=
  base ← require_group mapping_grp NONUNIFORM;
  w ← get_writer;
  assert_ (bool_decide (dialect w = ONED)) AssertionError_dialect;;
  assert_ (0 <? length idlist) AssertionError_idlist;;
  grp ← require_group base popname;
  src_ds ← create_dataset grp varname (srcmap_dataset idlist);
  _link_map_model src_ds;;
  mret src_ds.

Definition add_event_ds (name : string) (idlist : list string) : M path :=
  base ← require_group mapping_grp EVENT;
  w ← get_writer;
  assert_ (0 <? length idlist) AssertionError_idlist;;
  assert_ (bool_decide (dialect w = VLEN) || bool_decide (dialect w = NANPADDED))
    AssertionError_dialect;;
  src_ds ← create_dataset base name (ids_dataset idlist);
  _link_map_model src_ds;;
  mret src_ds.

Definition add_event_ds_1d (popname varname : string) (idlist : list string) : M path :=
  base ← require_group mapping_grp EVENT;
  w ← get_writer;
  assert_ (0 <? length idlist) AssertionError_idlist;;
  assert_ (bool_decide (dialect w = ONED) || bool_decide (dialect w = NUREGULAR))
    AssertionError_dialect;;
  grp ← require_group base popname;
  src_ds ← create_dataset grp varname (srcmap_dataset idlist);
  _link_map_model src_ds;;
  mret src_ds.

Definition add_static_ds (popname : string) (idlist : list string) : M path :=
  if length idlist =? 0 then raise ValueError_idlist else
  base ← require_group mapping_grp STATIC;
  src_ds ← create_dataset base popname (ids_dataset idlist);
  (* self.modelroot.update_id_path_dict(): the dictionary is kept current *)
  _link_map_model src_ds;;
  mret src_ds.

End Linker.

(** ** The dialect append engine *)

(** In every method below [source_ds] is read once, where the source first
    iterates over it: nothing the method does afterwards changes the ids a
    mapping dataset holds. *)

(** The scale and attribute writes shared by the 2-D creation paths:
    [dataset.dims.create_scale(source_ds, 'source')] and
    [dataset.dims[0].attach_scale(source_ds)]. *)
Definition attach_source (dataset source_ds : path) : M unit :=
  create_scale source_ds "source";;
  attach_scale dataset 0 source_ds.

Definition maxcol_of (fixed : bool) (n : nat) : option nat :=
  if fixed then Some n else None.

Definition add_uniform_data (source_ds : path) (data_object : NSDFData (list float))
    (tstart : float) (fixed : bool) : M path :=
  let popname := rpartition_last source_ds in
  _ ← h5_getitem (data_grp ++ [UNIFORM]);
  ugrp ← require_group (data_grp ++ [UNIFORM]) popname;
  ids ← iter_ids source_ds;
  if negb (match_datasets ids (get_sources data_object)) then raise KeyError_sources else
  ordered_data ← mapM (data_of data_object) ids;
  data ← vstack ordered_data;
  try_except_KeyError
    (_ ← h5_getitem (ugrp ++ [d_name data_object]);
     let dataset := ugrp ++ [d_name data_object] in
     oldcolcount ← ds_shape1 dataset;
     resize_axis1 dataset (oldcolcount + shape1 data);;
     write_columns dataset oldcolcount data;;
     mret dataset)
    (if dt_le_zero (d_dt data_object) then raise ValueError_dt else
     unit ← lift_option ValueError_unit (d_unit data_object);
     tunit ← lift_option ValueError_tunit (d_tunit data_object);
     let maxcol := maxcol_of fixed (shape1 data) in
     dataset ← create_dataset ugrp (d_name data_object)
                 (new_dataset (Array2 data) 0%float (Some [Some (length data); maxcol]));
     attach_source dataset source_ds;;
     attrs_set dataset "tstart" (AFloat (Some tstart));;
     attrs_set dataset "dt" (AFloat (d_dt data_object));;
     attrs_set dataset "field" (AStr (d_field data_object));;
     attrs_set dataset "unit" (AStr unit);;
     attrs_set dataset "timeunit" (AStr tunit);;
     mret dataset).

Definition add_nonuniform_regular (source_ds : path)
    (data_object : NSDFData (list float)) (fixed : bool) : M path :=
  let popname := rpartition_last source_ds in
  _ ← h5_getitem (data_grp ++ [NONUNIFORM]);
  ngrp ← require_group (data_grp ++ [NONUNIFORM]) popname;
  ids ← iter_ids source_ds;
  if negb (match_datasets ids (get_sources data_object)) then raise KeyError_sources else
  ordered_data ← mapM (data_of data_object) ids;
  data ← vstack ordered_data;
  if negb (shape1 data =? length (get_times data_object)) then raise ValueError_times else
  try_except_KeyError
    (_ ← h5_getitem (ngrp ++ [d_name data_object]);
     let dataset := ngrp ++ [d_name data_object] in
     oldcolcount ← ds_shape1 dataset;
     resize_axis1 dataset (oldcolcount + shape1 data);;
     write_columns dataset oldcolcount data;;
     mret dataset)
    (unit ← lift_option ValueError_unit (d_unit data_object);
     tunit ← lift_option ValueError_tunit (d_tunit data_object);
     let maxcol := maxcol_of fixed (shape1 data) in
     dataset ← create_dataset ngrp (d_name data_object)
                 (new_dataset (Array2 data) 0%float (Some [Some (length data); maxcol]));
     attach_source dataset source_ds;;
     attrs_set dataset "field" (AStr (d_field data_object));;
     attrs_set dataset "unit" (AStr unit);;
     let tsname := format2 popname (d_name data_object) in
     tscale ← create_dataset time_dim tsname
                (new_dataset (Array1 (get_times data_object)) 0%float None);
     create_scale tscale "time";;
     set_label dataset 1 "time";;
     attach_scale dataset 1 tscale;;
     attrs_set tscale "unit" (AStr tunit);;
     mret dataset).

Definition add_static_data (source_ds : path) (data_object : NSDFData (list float))
    (fixed : bool) : M path :=
  let popname := rpartition_last source_ds in
  _ ← h5_getitem (data_grp ++ [STATIC]);
  ugrp ← require_group (data_grp ++ [STATIC]) popname;
  ids ← iter_ids source_ds;
  if negb (match_datasets ids (get_sources data_object)) then raise KeyError_sources else
  ordered_data ← mapM (data_of data_object) ids;
  data ← vstack ordered_data;
  try_except_KeyError
    (_ ← h5_getitem (ugrp ++ [d_name data_object]);
     let dataset := ugrp ++ [d_name data_object] in
     oldcolcount ← ds_shape1 dataset;
     resize_axis1 dataset (oldcolcount + shape1 data);;
     write_columns dataset oldcolcount data;;
     mret dataset)
    (unit ← lift_option ValueError_unit (d_unit data_object);
     let maxcol := maxcol_of fixed (shape1 data) in
     dataset ← create_dataset ugrp (d_name data_object)
                 (new_dataset (Array2 data) 0%float (Some [Some (length data); maxcol]));
     attach_source dataset source_ds;;
     attrs_set dataset "field" (AStr (d_field data_object));;
     attrs_set dataset "unit" (AStr unit);;
     mret dataset).

(** [source_ds[iii] = (source, dset.ref)] on a SRCDATAMAPTYPE dataset. *)
Definition set_srcmap_row (source_ds : path) (iii : nat) (source : string)
    (ref : path) : M unit :=
  d ← h5_handle source_ds;
  match ds_data d with
  | SrcMap l =>
      if iii <? length l
      then put_dataset source_ds (set_data (SrcMap (<[iii := (source, Some ref)]> l)) d)
      else raise IndexError
  | _ => raise H5_kind
  end.

(** [source_name_dict.keys()] *)
Definition dict_keys (source_name_dict : gmap string string) : list string :=
  (map_to_list source_name_dict).*1.

(** [create_dataset(name, shape=(n,), data=data, ...)]: h5py refuses
    data that does not have the shape given. *)
Definition create_dataset_1d (parent : path) (name : string) (n : nat)
    (data : list float) (maxshape : option (list (option nat))) : M path :=
  if length data =? n
  then create_dataset parent name (new_dataset (Array1 data) 0%float maxshape)
  else raise ValueError_shape.

Definition add_nonuniform_1d (source_ds : path)
    (data_object : NSDFData (list float * list float))
    (source_name_dict : gmap string string) (fixed : bool)
    : M (gmap string (path * path)) :=
  w ← get_writer;
  assert_ (bool_decide (dialect w = ONED)) AssertionError_dialect;;
  let popname := split_penultimate source_ds in
  _ ← h5_getitem (data_grp ++ [NONUNIFORM]);
  ngrp ← require_group (data_grp ++ [NONUNIFORM]) popname;
  assert_ (match_datasets (dict_keys source_name_dict) (get_sources data_object))
    AssertionError_sources;;
  srcs ← source_column source_ds;
  assert_ (match_datasets srcs (dict_keys source_name_dict)) AssertionError_sources;;
  datagrp ← require_group ngrp (d_name data_object);
  attrs_set datagrp "source" (ARef source_ds);;
  entries ← mapM (λ ix : nat * string,
    let iii := ix.1 in
    let source := ix.2 in
    dt ← data_of data_object source;
    let data := dt.1 in
    let time := dt.2 in
    dsetname ← lift_option KeyError_lookup (source_name_dict !! source);
    pair ← try_except_KeyError
      (_ ← h5_getitem (datagrp ++ [dsetname]);
       let dset := datagrp ++ [dsetname] in
       oldlen ← ds_shape0 dset;
       timescale ← dims_getitem dset 0 "time";
       resize_1d dset (oldlen + length data);;
       write_tail dset oldlen data;;
       resize_1d timescale (oldlen + length data);;
       write_tail timescale oldlen time;;
       mret (dset, timescale))
      (unit ← lift_option ValueError_unit (d_unit data_object);
       tunit ← lift_option ValueError_tunit (d_tunit data_object);
       let maxcol := maxcol_of fixed (length data) in
       dset ← create_dataset_1d datagrp dsetname (length data) data (Some [maxcol]);
       attrs_set dset "unit" (AStr unit);;
       attrs_set dset "field" (AStr (d_field data_object));;
       attrs_set dset "source" (AStr source);;
       set_srcmap_row source_ds iii source dset;;
       let tsname := format2 (format2 popname (d_name data_object)) dsetname in
       timescale ← create_dataset_1d time_dim tsname (length data) time (Some [maxcol]);
       create_scale timescale "time";;
       set_label dset 0 "time";;
       attach_scale dset 0 timescale;;
       attrs_set timescale "unit" (AStr tunit);;
       mret (dset, timescale));
    mret (source, pair)) (enumerate srcs);
  mret (foldl (λ ret kv, <[kv.1 := kv.2]> ret) ∅ entries).

Definition add_event_1d (source_ds : path) (data_object : NSDFData (list float))
    (source_name_dict : gmap string string) (fixed : bool)
    : M (gmap string path) :=
  w ← get_writer;
  assert_ (bool_decide (dialect w = ONED) || bool_decide (dialect w = NUREGULAR))
    AssertionError_dialect;;
  let popname := split_penultimate source_ds in
  _ ← h5_getitem (data_grp ++ [EVENT]);
  ngrp ← require_group (data_grp ++ [EVENT]) popname;
  assert_ (match_datasets (dict_keys source_name_dict) (get_sources data_object))
    AssertionError_sources;;
  datagrp ← require_group ngrp (d_name data_object);
  attrs_set datagrp "source" (ARef source_ds);;
  srcs ← source_column source_ds;
  entries ← mapM (λ ix : nat * string,
    let iii := ix.1 in
    let source := ix.2 in
    data ← data_of data_object source;
    dsetname ← lift_option KeyError_lookup (source_name_dict !! source);
    dset ← try_except_KeyError
      (_ ← h5_getitem (datagrp ++ [dsetname]);
       let dset := datagrp ++ [dsetname] in
       oldlen ← ds_shape0 dset;
       resize_1d dset (oldlen + length data);;
       write_tail dset oldlen data;;
       mret dset)
      (unit ← lift_option ValueError_unit (d_unit data_object);
       let maxrows := maxcol_of fixed (length data) in
       dset ← create_dataset_1d datagrp dsetname (length data) data (Some [maxrows]);
       attrs_set dset "unit" (AStr unit);;
       attrs_set dset "field" (AStr (d_field data_object));;
       attrs_set dset "source" (AStr source);;
       set_srcmap_row source_ds iii source dset;;
       mret dset);
    mret (source, dset)) (enumerate srcs);
  mret (foldl (λ ret kv, <[kv.1 := kv.2]> ret) ∅ entries).

(** [create_dataset(name, shape=(n,), dtype=vlentype)]: [n] empty rows;
    [vlentype] is the variable-length type of the dtype of the batch, so
    the samples are stored as they are. *)
Definition ragged_dataset (n : nat) (maxshape : option (list (option nat))) : dataset :=
  new_dataset (Ragged (replicate n [])) 0%float maxshape.

(** [create_dataset(name, shape=(n,), dtype=VLENFLOAT)] *)
Definition ragged32_dataset (n : nat) (maxshape : option (list (option nat))) : dataset :=
  new_dataset (Ragged32 (replicate n [])) 0%float maxshape.

Definition add_nonuniform_vlen (source_ds : path)
    (data_object : NSDFData (list float * list float)) (fixed : bool)
    : M (path * path) :=
  w ← get_writer;
  if negb (bool_decide (dialect w = VLEN)) then raise Exception_dialect else
  let popname := rpartition_last source_ds in
  _ ← h5_getitem (data_grp ++ [NONUNIFORM]);
  ngrp ← require_group (data_grp ++ [NONUNIFORM]) popname;
  ids ← iter_ids source_ds;
  if negb (match_datasets ids (get_sources data_object)) then raise KeyError_sources else
  let tsname := format2 popname (d_name data_object) in
  handles ← try_except_KeyError
    (_ ← h5_getitem (ngrp ++ [d_name data_object]);
     _ ← h5_getitem (time_dim ++ [tsname]);
     mret (ngrp ++ [d_name data_object], time_dim ++ [tsname]))
    (unit ← lift_option ValueError_unit (d_unit data_object);
     tunit ← lift_option ValueError_tunit (d_tunit data_object);
     let maxrows := maxcol_of fixed (length ids) in
     dataset ← create_dataset ngrp (d_name data_object) (ragged_dataset (length ids) None);
     attrs_set dataset "field" (AStr (d_field data_object));;
     attrs_set dataset "unit" (AStr unit);;
     attach_source dataset source_ds;;
     time_ds ← create_dataset time_dim tsname
                 (ragged32_dataset (length ids) (Some [maxrows]));
     create_scale time_ds "time";;
     attach_scale dataset 0 time_ds;;
     attrs_set time_ds "unit" (AStr tunit);;
     mret (dataset, time_ds));
  let dataset := handles.1 in
  let time_ds := handles.2 in
  for_each (enumerate ids) (λ ix,
    let iii := ix.1 in
    let source := ix.2 in
    dt ← data_of data_object source;
    old ← read_vlen dataset iii;
    write_vlen dataset iii (old ++ dt.1);;
    oldt ← read_vlen time_ds iii;
    write_vlen time_ds iii (oldt ++ dt.2));;
  mret (dataset, time_ds).

Definition add_event_vlen (source_ds : path) (data_object : NSDFData (list float))
    (fixed : bool) : M path :=
  w ← get_writer;
  if negb (bool_decide (dialect w = VLEN)) then raise Exception_dialect else
  let popname := rpartition_last source_ds in
  _ ← h5_getitem (data_grp ++ [EVENT]);
  ngrp ← require_group (data_grp ++ [EVENT]) popname;
  ids ← iter_ids source_ds;
  if negb (match_datasets ids (get_sources data_object)) then raise KeyError_sources else
  dataset ← try_except_KeyError
    (_ ← h5_getitem (ngrp ++ [d_name data_object]);
     mret (ngrp ++ [d_name data_object]))
    (unit ← lift_option ValueError_unit (d_unit data_object);
     let maxrows := maxcol_of fixed (length ids) in
     dataset ← create_dataset ngrp (d_name data_object)
                 (ragged_dataset (length ids) (Some [maxrows]));
     attrs_set dataset "field" (AStr (d_field data_object));;
     attrs_set dataset "unit" (AStr unit);;
     attach_source dataset source_ds;;
     mret dataset);
  for_each (enumerate ids) (λ ix,
    let iii := ix.1 in
    let source := ix.2 in
    data ← data_of data_object source;
    old ← read_vlen dataset iii;
    write_vlen dataset iii (old ++ data));;
  mret dataset.

(** [create_dataset(name, shape=(n, m), fillvalue=np.nan, ...)] *)
Definition nan_dataset (n m : nat) (maxshape : option (list (option nat))) : dataset :=
  new_dataset (Array2 (replicate n (replicate m nan))) nan maxshape.

(** The start offset of a row: the first sentinel cell, or the length of
    the row when [find] is exhausted ([StopIteration]). *)
Definition row_start (row : list float) : nat :=
  default (length row) (find_isnan row).

(** In the two methods below [starts] and [ends] are the local arrays of
    the source.  The handler of the outer [try] sees them as initialised:
    it can run after they were updated only when the time dataset is
    missing for a dataset that exists, and then it raises (some required
    unit is missing, or [create_dataset] finds the name in use) before
    it could use them. *)
Definition add_nonuniform_nan (source_ds : path)
    (data_object : NSDFData (list float * list float)) (fixed : bool) : M path :=
  w ← get_writer;
  assert_ (bool_decide (dialect w = NANPADDED)) AssertionError_dialect;;
  let popname := rpartition_last source_ds in
  _ ← h5_getitem (data_grp ++ [NONUNIFORM]);
  ngrp ← require_group (data_grp ++ [NONUNIFORM]) popname;
  ids ← iter_ids source_ds;
  if negb (match_datasets ids (get_sources data_object)) then raise KeyError_sources else
  let tsname := format2 popname (d_name data_object) in
  batch ← mapM (data_of data_object) ids;
  let cols := (λ dt : list float * list float, length dt.1) <$> batch in
  let starts0 := replicate (length ids) 0 in
  let ends0 := cols in
  st ← try_except_KeyError
    (_ ← h5_getitem (ngrp ++ [d_name data_object]);
     let dataset := ngrp ++ [d_name data_object] in
     starts ← mapM (λ iii, row ← read_row dataset iii; mret (row_start row))
                (seq 0 (length ids));
     let ends := zip_with Nat.add starts cols in
     width ← py_max ends;
     resize_axis1 dataset width;;
     _ ← h5_getitem (time_dim ++ [tsname]);
     let time_ds := time_dim ++ [tsname] in
     resize_axis1 time_ds width;;
     mret (dataset, time_ds, starts, ends))
    (unit ← lift_option ValueError_unit (d_unit data_object);
     tunit ← lift_option ValueError_tunit (d_tunit data_object);
     let maxrows := maxcol_of fixed (length ids) in
     maxcols ← (if fixed then m ← py_max cols; mret (Some m) else mret None);
     width ← py_max ends0;
     dataset ← create_dataset ngrp (d_name data_object)
                 (nan_dataset (length ids) width (Some [maxrows; maxcols]));
     attrs_set dataset "field" (AStr (d_field data_object));;
     attrs_set dataset "unit" (AStr unit);;
     attach_source dataset source_ds;;
     time_ds ← create_dataset time_dim tsname
                 (nan_dataset (length ids) width (Some [maxrows; maxcols]));
     create_scale time_ds "time";;
     attach_scale dataset 1 time_ds;;
     attrs_set time_ds "unit" (AStr tunit);;
     mret (dataset, time_ds, starts0, ends0));
  let dataset := st.1.1.1 in
  let time_ds := st.1.1.2 in
  let starts := st.1.2 in
  let ends := st.2 in
  for_each (enumerate batch) (λ ix : nat * (list float * list float),
    let iii := ix.1 in
    s ← lift_option IndexError (starts !! iii);
    e ← lift_option IndexError (ends !! iii);
    write_row_slice dataset iii s e ix.2.1;;
    write_row_slice time_ds iii s e ix.2.2);;
  mret dataset.

Definition add_event_nan (source_ds : path) (data_object : NSDFData (list float))
    (fixed : bool) : M path :=
  w ← get_writer;
  assert_ (bool_decide (dialect w = NANPADDED)) AssertionError_dialect;;
  let popname := rpartition_last source_ds in
  _ ← h5_getitem (data_grp ++ [EVENT]);
  ngrp ← require_group (data_grp ++ [EVENT]) popname;
  ids ← iter_ids source_ds;
  if negb (match_datasets ids (get_sources data_object)) then raise KeyError_sources else
  batch ← mapM (data_of data_object) ids;
  let cols := length <$> batch in
  let starts0 := replicate (length ids) 0 in
  let ends0 := cols in
  st ← try_except_KeyError
    (_ ← h5_getitem (ngrp ++ [d_name data_object]);
     let dataset := ngrp ++ [d_name data_object] in
     nrows ← ds_shape0 dataset;
     found ← mapM (λ iii,
                row ← read_row dataset iii;
                assert_ (iii <? length ids) IndexError;;
                mret (row_start row))
              (seq 0 nrows);
     let starts := found ++ replicate (length ids - nrows) 0 in
     let ends := zip_with Nat.add starts cols in
     width ← py_max ends;
     resize_axis1 dataset width;;
     mret (dataset, starts, ends))
    (unit ← lift_option ValueError_unit (d_unit data_object);
     let maxrows := maxcol_of fixed (length ids) in
     maxcols ← (if fixed then m ← py_max ends0; mret (Some m) else mret None);
     width ← py_max ends0;
     dataset ← create_dataset ngrp (d_name data_object)
                 (nan_dataset (length ids) width (Some [maxrows; maxcols]));
     attrs_set dataset "field" (AStr (d_field data_object));;
     attrs_set dataset "unit" (AStr unit);;
     attach_source dataset source_ds;;
     mret (dataset, starts0, ends0));
  let dataset := st.1.1 in
  let starts := st.1.2 in
  let ends := st.2 in
  for_each (enumerate batch) (λ ix : nat * list float,
    let iii := ix.1 in
    s ← lift_option IndexError (starts !! iii);
    e ← lift_option IndexError (ends !! iii);
    write_row_slice dataset iii s e ix.2);;
  mret dataset.

(** ** Vocabulary of the properties *)

(** Between two states of the file nothing but empty groups is new: no
    dataset is created, grown or rewritten and no attribute is written. *)
Definition only_new_groups (f f' : gmap path node) : Prop :=
  ∀ p, f' !! p = f !! p ∨ (f !! p = None ∧ f' !! p = Some (Group ∅)).

(** A batch with another source list, and with other metadata. *)
Definition with_sources {D} (d : NSDFData D) (srcs : list string) : NSDFData D :=
  mkData (d_name d) (d_unit d) (d_field d) (d_tunit d) (d_dt d) srcs
    (get_data d) (get_times d).

Definition with_metadata {D} (d : NSDFData D) (unit tunit : option string)
    (dt : option float) : NSDFData D :=
  mkData (d_name d) unit (d_field d) tunit dt (get_sources d)
    (get_data d) (get_times d).

(** The exception a call ended with, if any. *)
Definition raised {A} (r : NSDFWriter * result A) : option exn :=
  match r.2 with Ok _ => None | Raise e => Some e end.

(** The six declaring methods, as one family. *)
Inductive declaration :=
| Decl_uniform (name : string)
| Decl_nonuniform (popname : string)
| Decl_nonuniform_1d (popname varname : string)
| Decl_event (name : string)
| Decl_event_1d (popname varname : string)
| Decl_static (popname : string).

Definition declare (common_prefix : list path → path) (noname : exn) (c : declaration)
    (idlist : list string) : M path :=
  match c with
  | Decl_uniform name => add_uniform_ds common_prefix noname name idlist
  | Decl_nonuniform popname => add_nonuniform_ds common_prefix noname popname idlist
  | Decl_nonuniform_1d popname varname =>
      add_nonuniform_ds_1d common_prefix noname popname varname idlist
  | Decl_event name => add_event_ds common_prefix noname name idlist
  | Decl_event_1d popname varname =>
      add_event_ds_1d common_prefix noname popname varname idlist
  | Decl_static popname => add_static_ds common_prefix noname popname idlist
  end.

(** Where a declaration stores its mapping dataset:
    [/map/<namespace>/<population>[/<variable>]]. *)
Definition decl_target (c : declaration) : path :=
  match c with
  | Decl_uniform name => mapping_grp ++ [UNIFORM; name]
  | Decl_nonuniform popname => mapping_grp ++ [NONUNIFORM; popname]
  | Decl_nonuniform_1d popname varname => mapping_grp ++ [NONUNIFORM; popname; varname]
  | Decl_event name => mapping_grp ++ [EVENT; name]
  | Decl_event_1d popname varname => mapping_grp ++ [EVENT; popname; varname]
  | Decl_static popname => mapping_grp ++ [STATIC; popname]
  end.

(** The ids a mapping dataset lists, whichever its dtype. *)
Definition mapping_ids (x : payload) : option (list string) :=
  match x with
  | Ids l => Some l
  | SrcMap l => Some (l.*1)
  | _ => None
  end.

(** The reference list stored under an attribute name. *)
Definition ref_list (n : node) (k : string) : list path :=
  match node_attrs n !! k with Some (ARefs l) => l | _ => [] end.

(** Whether an object is a group or a dataset. *)
Definition is_group (n : node) : bool :=
  match n with Group _ => true | Dataset _ => false end.

Definition is_group_at (f : gmap path node) (p : path) : Prop :=
  ∃ a, f !! p = Some (Group a).

Definition not_dataset_at (f : gmap path node) (p : path) : Prop :=
  ∀ d, f !! p ≠ Some (Dataset d).

(** The groups [__init__] creates (or finds) in the file. *)
Definition skeleton (f : gmap path node) : Prop :=
  is_group_at f time_dim ∧ is_group_at f modeltree
  ∧ ∀ stype, stype ∈ SAMPLING_TYPES →
      is_group_at f (data_grp ++ [stype]) ∧ is_group_at f (mapping_grp ++ [stype]).

(** The dialect assertion of each declaring method. *)
Definition decl_dialect_ok (c : declaration) (d : dialect_t) : bool :=
  match c with
  | Decl_uniform _ | Decl_static _ => true
  | Decl_nonuniform _ => negb (bool_decide (d = ONED))
  | Decl_nonuniform_1d _ _ => bool_decide (d = ONED)
  | Decl_event _ => bool_decide (d = VLEN) || bool_decide (d = NANPADDED)
  | Decl_event_1d _ _ => bool_decide (d = ONED) || bool_decide (d = NUREGULAR)
  end.

(** The per-population group the 1-D declarations require. *)
Definition decl_group (c : declaration) : option path :=
  match c with
  | Decl_nonuniform_1d popname _ => Some (mapping_grp ++ [NONUNIFORM; popname])
  | Decl_event_1d popname _ => Some (mapping_grp ++ [EVENT; popname])
  | _ => None
  end.

(** The mapping dataset a declaration creates. *)
Definition decl_dataset (c : declaration) (idlist : list string) : dataset :=
  match c with
  | Decl_nonuniform_1d _ _ | Decl_event_1d _ _ => srcmap_dataset idlist
  | _ => ids_dataset idlist
  end.

(** An attribute that is absent or holds a list of references. *)
Definition refs_typed (n : node) (k : string) : Prop :=
  match node_attrs n !! k with
  | None | Some (ARefs _) => True
  | Some _ => False
  end.

(** The writer with one more line printed. *)
Definition printed (s : string) (w : NSDFWriter) : NSDFWriter :=
  mkWriter (dialect w) (fd w) (id_path_dict w) (stdout w ++ [s]).

(** A computation keeps a relation between the writer before and after,
    however it ends. *)
Definition preserves {A} (R : relation NSDFWriter) (m : M A) : Prop :=
  ∀ w w' r, m w = (w', r) → R w w'.

(** Every object is still of its kind (group or dataset), none is new or
    gone, and the Python side of the writer is untouched. *)
Definition same_kinds (w w' : NSDFWriter) : Prop :=
  dialect w' = dialect w ∧ id_path_dict w' = id_path_dict w
  ∧ ∀ p, is_group <$> fd w' !! p = is_group <$> fd w !! p.


(** ** The model tree in the file *)

(** What [add_model_component] reads from a [ModelComponent]. *)
Record ModelComponent := mkComponent {
  mc_name : string;
  mc_uid : option string;
  mc_path : string;
  mc_attrs : list (string * attr)
}.

Definition add_model_component (component : ModelComponent)
    (parentgroup : path) : M path :=
  grp ← require_group parentgroup (mc_name component);
  attrs_set grp "uid" (AStr (default (mc_path component) (mc_uid component)));;
  for_each (mc_attrs component) (λ kv, attrs_set grp kv.1 kv.2);;
  mret grp.

(** ** Example files and batches *)

(** The longest common prefix of tree paths, component by component: the
    closest common ancestor. *)
Fixpoint common_prefix2 (a b : path) : path :=
  match a, b with
  | x :: a', y :: b' => if decide (x = y) then x :: common_prefix2 a' b' else []
  | _, _ => []
  end.

Definition closest_common_ancestor (paths : list path) : path :=
  match paths with
  | [] => []
  | p :: ps => foldl common_prefix2 p ps
  end.

(** A new file, as [__init__] leaves it. *)
Definition new_file : gmap path node := {[ [] := Group ∅ ]}.

Definition fresh_writer (d : dialect_t) : NSDFWriter :=
  (NSDFWriter_init new_file d "2014-04-25T19:51:42").1.

(** A model tree [/A/B] with the cells [c0], [c1], [c2] under [B], written
    to the file and known to the id-to-path dictionary. *)
Definition component (name path : string) : ModelComponent :=
  mkComponent name (Some name) path [].

Definition write_tree : M unit :=
  add_model_component (component "A" "/modeltree/A") modeltree;;
  add_model_component (component "B" "/modeltree/A/B") (modeltree ++ ["A"]);;
  add_model_component (component "c0" "/modeltree/A/B/c0") (modeltree ++ ["A"; "B"]);;
  add_model_component (component "c1" "/modeltree/A/B/c1") (modeltree ++ ["A"; "B"]);;
  add_model_component (component "c2" "/modeltree/A/B/c2") (modeltree ++ ["A"; "B"]);;
  mret tt.

Definition tree_dict : gmap string path :=
  list_to_map
    [("modeltree", ["modeltree"]);
     ("A", ["modeltree"; "A"]);
     ("B", ["modeltree"; "A"; "B"]);
     ("c0", ["modeltree"; "A"; "B"; "c0"]);
     ("c1", ["modeltree"; "A"; "B"; "c1"]);
     ("c2", ["modeltree"; "A"; "B"; "c2"])].

Definition tree_writer (d : dialect_t) : NSDFWriter :=
  let w := (write_tree (fresh_writer d)).1 in
  mkWriter (dialect w) (fd w) tree_dict (stdout w).

(** The same dictionary for a file whose tree was never written. *)
Definition unwritten_tree_writer (d : dialect_t) : NSDFWriter :=
  let w := fresh_writer d in
  mkWriter (dialect w) (fd w) tree_dict (stdout w).

(** A batch from an association list of sources and their payloads. *)
Definition assoc {D} (items : list (string * D)) (src : string) : option D :=
  snd <$> head (filter (λ kv, kv.1 = src) items).

Definition batch {D} (name : string) (unit tunit : option string)
    (dt : option float) (times : list float) (items : list (string * D))
    : NSDFData D :=
  mkData name unit name tunit dt (items.*1) (assoc items) times.

Definition cells : list string := ["c0"; "c1"; "c2"].

(** The references an object stores under an attribute name. *)
Definition refs_at (w : NSDFWriter) (p : path) (k : string) : option (list path) :=
  (λ n, ref_list n k) <$> fd w !! p.

Definition cells_paths : list path :=
  [["modeltree"; "A"; "B"; "c0"];
   ["modeltree"; "A"; "B"; "c1"];
   ["modeltree"; "A"; "B"; "c2"]].

(** Five samples for each of the three cells, sampled every half unit. *)
Definition Vm_batch (unit tunit : option string) (dt : option float)
    : NSDFData (list float) :=
  batch "Vm" unit tunit dt []
    [("c0", [1; 2; 3; 4; 5]%float);
     ("c1", [6; 7; 8; 9; 10]%float);
     ("c2", [11; 12; 13; 14; 15]%float)].

(** The same, leaving aside the objects at the paths listed. *)
Definition only_new_groups_except (ps : list path) (f f' : gmap path node) : Prop :=
  ∀ p, p ∉ ps → f' !! p = f !! p ∨ (f !! p = None ∧ f' !! p = Some (Group ∅)).

(** The mapping [/map/uniform/cells] declared over the written tree, hence
    linked once to [/model/modeltree/A/B]. *)
Definition cells_map : path := ["map"; "uniform"; "cells"].
Definition node_AB : path := ["model"; "modeltree"; "A"; "B"].

Definition linked_writer : NSDFWriter :=
  (add_uniform_ds closest_common_ancestor ValueError_noname
      "cells" cells (tree_writer ONED)).1.

(** The tree with a second component, [X], right under the root: the
    closest common ancestor of [c0] and [X] is the root. *)
Definition span_dict : gmap string path := <["X" := ["modeltree"; "X"]]> tree_dict.

Definition span_writer (d : dialect_t) : NSDFWriter :=
  let w := (add_model_component (component "X" "/modeltree/X") modeltree
              (tree_writer d)).1 in
  mkWriter (dialect w) (fd w) span_dict (stdout w).

(** The nine appending methods, as one family; what a call returns is
    dropped. *)
Inductive append_call :=
| Add_uniform (d : NSDFData (list float)) (tstart : float)
| Add_nonuniform_regular (d : NSDFData (list float))
| Add_static (d : NSDFData (list float))
| Add_nonuniform_1d (d : NSDFData (list float * list float)) (names : gmap string string)
| Add_event_1d (d : NSDFData (list float)) (names : gmap string string)
| Add_nonuniform_vlen (d : NSDFData (list float * list float))
| Add_event_vlen (d : NSDFData (list float))
| Add_nonuniform_nan (d : NSDFData (list float * list float))
| Add_event_nan (d : NSDFData (list float)).

Definition discard {A} (m : M A) : M unit := m ≫= λ _, mret tt.

Definition append (c : append_call) (source_ds : path) (fixed : bool) : M unit :=
  match c with
  | Add_uniform d tstart => discard (add_uniform_data source_ds d tstart fixed)
  | Add_nonuniform_regular d => discard (add_nonuniform_regular source_ds d fixed)
  | Add_static d => discard (add_static_data source_ds d fixed)
  | Add_nonuniform_1d d names => discard (add_nonuniform_1d source_ds d names fixed)
  | Add_event_1d d names => discard (add_event_1d source_ds d names fixed)
  | Add_nonuniform_vlen d => discard (add_nonuniform_vlen source_ds d fixed)
  | Add_event_vlen d => discard (add_event_vlen source_ds d fixed)
  | Add_nonuniform_nan d => discard (add_nonuniform_nan source_ds d fixed)
  | Add_event_nan d => discard (add_event_nan source_ds d fixed)
  end.

Definition call_sources (c : append_call) : list string :=
  match c with
  | Add_uniform d _ | Add_nonuniform_regular d | Add_static d | Add_event_1d d _
  | Add_event_vlen d | Add_event_nan d => get_sources d
  | Add_nonuniform_1d d _ | Add_nonuniform_vlen d | Add_nonuniform_nan d =>
      get_sources d
  end.

Definition call_name (c : append_call) : string :=
  match c with
  | Add_uniform d _ | Add_nonuniform_regular d | Add_static d | Add_event_1d d _
  | Add_event_vlen d | Add_event_nan d => d_name d
  | Add_nonuniform_1d d _ | Add_nonuniform_vlen d | Add_nonuniform_nan d => d_name d
  end.

Definition call_namespace (c : append_call) : string :=
  match c with
  | Add_uniform _ _ => UNIFORM
  | Add_static _ => STATIC
  | Add_nonuniform_regular _ | Add_nonuniform_1d _ _ | Add_nonuniform_vlen _
  | Add_nonuniform_nan _ => NONUNIFORM
  | Add_event_1d _ _ | Add_event_vlen _ | Add_event_nan _ => EVENT
  end.

Definition is_1d (c : append_call) : bool :=
  match c with Add_nonuniform_1d _ _ | Add_event_1d _ _ => true | _ => false end.

(** The population name a method derives from the name of [source_ds]. *)
Definition call_popname (c : append_call) (source_ds : path) : string :=
  if is_1d c then split_penultimate source_ds else rpartition_last source_ds.

(** [/data/<namespace>/<population>] *)
Definition call_group (c : append_call) (source_ds : path) : path :=
  data_grp ++ [call_namespace c; call_popname c source_ds].

(** The dialect check a method starts with, if it has one. *)
Definition call_dialect_ok (c : append_call) (d : dialect_t) : bool :=
  match c with
  | Add_uniform _ _ | Add_nonuniform_regular _ | Add_static _ => true
  | Add_nonuniform_1d _ _ => bool_decide (d = ONED)
  | Add_event_1d _ _ => bool_decide (d = ONED) || bool_decide (d = NUREGULAR)
  | Add_nonuniform_vlen _ | Add_event_vlen _ => bool_decide (d = VLEN)
  | Add_nonuniform_nan _ | Add_event_nan _ => bool_decide (d = NANPADDED)
  end.

(** The ids of the mapping dataset a method is given: a VLENSTR dataset
    for the 2-D methods, a SRCDATAMAPTYPE dataset for the 1-D ones. *)
Definition call_mapping_ids (c : append_call) (x : payload) : option (list string) :=
  match x with
  | Ids l => if is_1d c then None else Some l
  | SrcMap l => if is_1d c then Some (l.*1) else None
  | _ => None
  end.

(** [add_event_1d] compares the batch with [source_name_dict] only; every
    other method compares it with the mapping dataset. *)
Definition checks_mapping (c : append_call) : bool :=
  match c with Add_event_1d _ _ => false | _ => true end.

(** A batch that leaves the cell [c2] out. *)
Definition partial_Vm_batch : NSDFData (list float) :=
  batch "Vm" (Some "mV") (Some "ms") (Some 0.5%float) []
    [("c0", [1; 2]%float); ("c1", [3; 4]%float)].

(** Event mappings over the written tree: a 2-D one under the NaN-padded
    dialect, and a per-variable one, for the cell [c0] alone, under the
    1-D dialect. *)
Definition event_map : path := ["map"; "event"; "cells"].

Definition nan_event_writer : NSDFWriter :=
  (add_event_ds closest_common_ancestor ValueError_noname
      "cells" cells (tree_writer NANPADDED)).1.

Definition spikes_map : path := ["map"; "event"; "cells"; "spikes"].

Definition oned_event_writer : NSDFWriter :=
  (add_event_ds_1d closest_common_ancestor ValueError_noname
      "cells" "spikes" ["c0"] (tree_writer ONED)).1.

Definition spikes_batch (unit : option string) (items : list (string * list float))
    : NSDFData (list float) :=
  batch "spikes" unit None None [] items.

Definition spike_names : gmap string string :=
  list_to_map [("c0", "spikes_c0"); ("c1", "spikes_c1")].

Definition call_unit (c : append_call) : option string :=
  match c with
  | Add_uniform d _ | Add_nonuniform_regular d | Add_static d | Add_event_1d d _
  | Add_event_vlen d | Add_event_nan d => d_unit d
  | Add_nonuniform_1d d _ | Add_nonuniform_vlen d | Add_nonuniform_nan d => d_unit d
  end.

Definition call_tunit (c : append_call) : option string :=
  match c with
  | Add_uniform d _ | Add_nonuniform_regular d | Add_static d | Add_event_1d d _
  | Add_event_vlen d | Add_event_nan d => d_tunit d
  | Add_nonuniform_1d d _ | Add_nonuniform_vlen d | Add_nonuniform_nan d => d_tunit d
  end.

Definition call_dt (c : append_call) : option float :=
  match c with
  | Add_uniform d _ | Add_nonuniform_regular d | Add_static d | Add_event_1d d _
  | Add_event_vlen d | Add_event_nan d => d_dt d
  | Add_nonuniform_1d d _ | Add_nonuniform_vlen d | Add_nonuniform_nan d => d_dt d
  end.

(** The metadata a creation path asks for: the unit always, the time unit
    for uniform and nonuniform data, a sampling interval above zero for
    uniform data. *)
Definition needs_tunit (c : append_call) : bool :=
  match c with
  | Add_uniform _ _ | Add_nonuniform_regular _ | Add_nonuniform_1d _ _
  | Add_nonuniform_vlen _ | Add_nonuniform_nan _ => true
  | Add_static _ | Add_event_1d _ _ | Add_event_vlen _ | Add_event_nan _ => false
  end.

Definition needs_dt (c : append_call) : bool :=
  match c with Add_uniform _ _ => true | _ => false end.

Definition metadata_missing (c : append_call) : bool :=
  (needs_dt c && dt_le_zero (call_dt c))
  || bool_decide (call_unit c = None)
  || (needs_tunit c && bool_decide (call_tunit c = None)).

(** The rows of a batch in mapping order, when every id is known to it. *)
Definition rows_of {D} (d : NSDFData D) (ids : list string) : option (list D) :=
  mapM (get_data d) ids.

(** Rows that [np.vstack] accepts. *)
Definition stackable (rows : list (list float)) : bool :=
  match rows with
  | [] => false
  | r :: rs => forallb (λ r', length r' =? length r) rs
  end.

(** What a method needs from the batch before it looks for the dataset:
    the 2-D array of the regular dialects, the row lengths of the padded
    dialect. *)
Definition batch_assembles (c : append_call) (ids : list string) : bool :=
  match c with
  | Add_uniform d _ | Add_static d =>
      match rows_of d ids with Some rows => stackable rows | None => false end
  | Add_nonuniform_regular d =>
      match rows_of d ids with
      | Some rows => stackable rows && (shape1 rows =? length (get_times d))
      | None => false
      end
  | Add_nonuniform_nan d =>
      match rows_of d ids with Some _ => true | None => false end
  | Add_event_nan d =>
      match rows_of d ids with Some _ => true | None => false end
  | _ => true
  end.

(** [/data/<namespace>/<population>/<name>]: the Stored Array of a call. *)
Definition call_target (c : append_call) (source_ds : path) : path :=
  call_group c source_ds ++ [call_name c].

(** A per-variable nonuniform mapping for the three cells, under the 1-D
    dialect, and a batch for it. *)
Definition Vm_map_1d : path := ["map"; "nonuniform"; "cells"; "Vm"].

Definition oned_writer : NSDFWriter :=
  (add_nonuniform_ds_1d closest_common_ancestor ValueError_noname
      "cells" "Vm" cells (tree_writer ONED)).1.

Definition Vm_batch_1d (unit tunit : option string)
    : NSDFData (list float * list float) :=
  batch "Vm" unit tunit None []
    [("c0", ([1; 2]%float, [0; 1]%float));
     ("c1", ([3]%float, [0]%float));
     ("c2", ([4; 5; 6]%float, [0; 1; 2]%float))].

Definition Vm_names : gmap string string :=
  list_to_map [("c0", "Vm_c0"); ("c1", "Vm_c1"); ("c2", "Vm_c2")].

(** The attributes of the object at a path. *)
Definition attrs_at (w : NSDFWriter) (p : path) : option (gmap string attr) :=
  node_attrs <$> fd w !! p.

(** A triple for method bodies: started where [Inv] holds, a computation
    ends where [Inv] holds, with a value in [Q] or an exception in [E]. *)
Definition hoare {A} (Inv : NSDFWriter → Prop) (m : M A) (Q : A → Prop)
    (E : exn → Prop) : Prop :=
  ∀ w w' r, Inv w → m w = (w', r) →
    Inv w' ∧ match r with Ok a => Q a | Raise e => E e end.

(** Properties of the file that no write of data and no new group
    disturbs. *)
Definition payload_stable (Inv : NSDFWriter → Prop) : Prop :=
  ∀ w p d x, fd w !! p = Some (Dataset d) → Inv w →
    Inv (set_fd <[p := Dataset (set_data x d)]> w).

Definition group_stable (Inv : NSDFWriter → Prop) : Prop :=
  ∀ w p, fd w !! p = None → Inv w → Inv (set_fd <[p := Group ∅]> w).

(** The failures of h5py and numpy on an append. *)
Definition library_error (e : exn) : Prop :=
  e = H5_kind ∨ e = H5_resize ∨ e = ValueError_shape ∨ e = IndexError
  ∨ e = ValueError_empty.

(** A batch's metadata replaced, in a call. *)
Definition call_with_metadata (c : append_call) (unit tunit : option string)
    (dt : option float) : append_call :=
  match c with
  | Add_uniform d tstart => Add_uniform (with_metadata d unit tunit dt) tstart
  | Add_nonuniform_regular d => Add_nonuniform_regular (with_metadata d unit tunit dt)
  | Add_static d => Add_static (with_metadata d unit tunit dt)
  | Add_nonuniform_1d d names => Add_nonuniform_1d (with_metadata d unit tunit dt) names
  | Add_event_1d d names => Add_event_1d (with_metadata d unit tunit dt) names
  | Add_nonuniform_vlen d => Add_nonuniform_vlen (with_metadata d unit tunit dt)
  | Add_event_vlen d => Add_event_vlen (with_metadata d unit tunit dt)
  | Add_nonuniform_nan d => Add_nonuniform_nan (with_metadata d unit tunit dt)
  | Add_event_nan d => Add_event_nan (with_metadata d unit tunit dt)
  end.

(** The time dataset [/map/time/<population>_<name>] that the ragged and
    padded nonuniform methods look up next to the data. *)
Definition call_time (c : append_call) (source_ds : path) : option path :=
  match c with
  | Add_nonuniform_vlen _ | Add_nonuniform_nan _ =>
      Some (time_dim ++ [format2 (call_popname c source_ds) (call_name c)])
  | _ => None
  end.

(** The Stored Array of a call is in the file, with these attributes. *)
Definition array_present (target : path) (time : option path)
    (a : gmap string attr) (w : NSDFWriter) : Prop :=
  (∃ d, fd w !! target = Some (Dataset d) ∧ ds_attrs d = a)
  ∧ ∀ t, time = Some t → is_Some (fd w !! t).

(** The exceptions that are not KeyError and not a metadata error. *)
Definition not_metadata (e : exn) : Prop := classify e ≠ Some MissingMetadata.

Definition not_caught (e : exn) : Prop :=
  is_KeyError e = false ∧ classify e ≠ Some MissingMetadata.

(** A nonuniform mapping for the three cells under the default dialect,
    and batches with a shared time vector for it. *)
Definition nonuniform_map : path := ["map"; "nonuniform"; "cells"].

Definition regular_writer : NSDFWriter :=
  (add_nonuniform_ds closest_common_ancestor ValueError_noname
      "cells" cells (tree_writer NUREGULAR)).1.

Definition Im_batch (times : list float) (items : list (string * list float))
    : NSDFData (list float) :=
  batch "Im" (Some "nA") (Some "ms") None times items.

Definition Im_first : NSDFData (list float) :=
  Im_batch [0; 1]%float
    [("c0", [1; 2]%float); ("c1", [3; 4]%float); ("c2", [5; 6]%float)].

Definition Im_second : NSDFData (list float) :=
  Im_batch [2]%float
    [("c0", [7]%float); ("c1", [8]%float); ("c2", [9]%float)].

(** The data of the dataset at a path. *)
Definition data_at (w : NSDFWriter) (p : path) : option payload :=
  match fd w !! p with
  | Some (Dataset d) => Some (ds_data d)
  | _ => None
  end.

(** A matrix whose rows all have [n] cells. *)
Definition rectangular (n : nat) (rows : list (list float)) : Prop :=
  Forall (λ r, length r = n) rows.

(** The three methods that store a rectangular 2-D array and append
    columns to it. *)
Definition is_columns (c : append_call) : bool :=
  match c with
  | Add_uniform _ _ | Add_nonuniform_regular _ | Add_static _ => true
  | _ => false
  end.

(** The 2-D array a batch of these methods holds, rows in mapping order. *)
Definition call_matrix (c : append_call) (ids : list string)
    : option (list (list float)) :=
  match c with
  | Add_uniform d _ | Add_nonuniform_regular d | Add_static d => rows_of d ids
  | _ => None
  end.

(** The rows of a ragged dataset after the loop
    [dataset[iii] = np.concatenate((dataset[iii], data))] has run over the
    chunks, the first of them for row [i]. *)
Fixpoint append_chunks (i : nat) (rows chunks : list (list float))
    : list (list float) :=
  match chunks with
  | [] => rows
  | c :: cs => append_chunks (S i) (alter (λ r, r ++ c) i rows) cs
  end.












(** A writer in the VLEN dialect with an event mapping and a nonuniform
    mapping of the three cells, and two batches for each. *)
Definition vlen_writer : NSDFWriter :=
  (add_nonuniform_ds closest_common_ancestor ValueError_noname "cells" cells
     (add_event_ds closest_common_ancestor ValueError_noname
         "cells" cells (tree_writer VLEN)).1).1.

Definition spikes_first : NSDFData (list float) :=
  spikes_batch (Some "s") [("c0", [1; 2]%float); ("c1", []); ("c2", [3]%float)].

Definition spikes_second : NSDFData (list float) :=
  spikes_batch None [("c0", [4]%float); ("c1", [5; 6]%float); ("c2", [])].

Definition Vm_ragged_first : NSDFData (list float * list float) :=
  batch "Vm" (Some "mV") (Some "ms") None []
    [("c0", ([1; 2]%float, [0; 1]%float));
     ("c1", ([3]%float, [0]%float));
     ("c2", ([], []))].

Definition Vm_ragged_second : NSDFData (list float * list float) :=
  batch "Vm" None None None []
    [("c0", ([4]%float, [2]%float));
     ("c1", ([], []));
     ("c2", ([5; 6]%float, [1; 2]%float))].

(** ** The padded dialect *)

(** A cell that holds the sentinel. *)
Definition sentinel (x : float) : Prop := PrimFloat.is_nan x = true.

(** A row in which the sentinel marks unused cells only: from its first
    sentinel on, every cell is one. *)
Definition padded (row : list float) : Prop :=
  Forall sentinel (drop (row_start row) row).

(** The rows of a padded dataset after the loop
    [dataset[iii, starts[iii]:ends[iii]] = data] has run over the batch,
    the first of its rows for row [i]. *)
Fixpoint write_slices (i : nat) (starts : list nat) (rows batch : list (list float))
    : list (list float) :=
  match batch with
  | [] => rows
  | x :: xs =>
      let s := default 0 (starts !! i) in
      write_slices (S i) starts
        (alter (λ r, take s r ++ x ++ drop (s + length x) r) i rows) xs
  end.

(** [max(ends)] of an append: the largest, over the rows, of the start
    offset plus the number of new samples. *)
Definition width_after (rows batch : list (list float)) : nat :=
  max_list (zip_with (λ r x, row_start r + length x) rows batch).

(** The padded array of a population is in the file, for one of the two
    namespaces that have it: the writer is in the NaN-padded dialect, the
    mapping lists [ids], and the dataset holds a row per id and can be
    resized. *)
Definition padded_ready (ns : string) (source_ds target : path) (ids : list string)
    (dd : dataset) (rows : list (list float)) (w : NSDFWriter) : Prop :=
  dialect w = NANPADDED
  ∧ is_group_at (fd w) (data_grp ++ [ns])
  ∧ is_group_at (fd w) (data_grp ++ [ns; rpartition_last source_ds])
  ∧ (∃ ds, fd w !! source_ds = Some (Dataset ds) ∧ ds_data ds = Ids ids)
  ∧ fd w !! target = Some (Dataset dd)
  ∧ ds_data dd = Array2 rows
  ∧ length rows = length ids.

(** What an append does to the row of a source: [old] is the row as the
    resize left it, [s] the start offset, [x] the new samples. *)
Definition slice_written (s : nat) (x old new : list float) : Prop :=
  length new = length old
  ∧ take s new = take s old
  ∧ take (length x) (drop s new) = x
  ∧ drop (s + length x) new = drop (s + length x) old.

(** Batches for the padded arrays of the three cells. The first event
    batch and the first nonuniform batch hold samples that are
    not-a-number. *)
Definition nan_spikes_first : NSDFData (list float) :=
  spikes_batch (Some "s")
    [("c0", [1; nan; nan]%float); ("c1", []); ("c2", [3]%float)].

Definition nan_spikes_second : NSDFData (list float) :=
  spikes_batch None [("c0", [4]%float); ("c1", []); ("c2", [])].

Definition nan_writer : NSDFWriter :=
  (add_nonuniform_ds closest_common_ancestor ValueError_noname "cells" cells
     (add_event_ds closest_common_ancestor ValueError_noname
         "cells" cells (tree_writer NANPADDED)).1).1.

(** [dataset.resize(width, 1)] is accepted. *)
Definition can_resize (d : dataset) (width : nat) : Prop :=
  ∃ lim0 lim, ds_maxshape d = Some [lim0; lim] ∧ within width lim = true.

(** The row [r] of a source after an append of the samples [x] to an
    array that is [width] wide afterwards: the samples lie from the start
    offset of [r] on, the cells before them are those of [r], the cells
    after them those of the resized row. The new width is not below the
    length of a row without sentinel, and in a padded row the cells after
    the new samples hold the sentinel when the fill value is one. *)
Definition row_appended (fill : float) (width : nat) (r x r' : list float) : Prop :=
  slice_written (row_start r) x (resize_row fill width r) r'
  ∧ take (row_start r) r' = take (row_start r) r
  ∧ (find_isnan r = None → width = length r `max` width)
  ∧ (padded r → sentinel fill → Forall sentinel (drop (row_start r + length x) r')).

(** A writer with the padded arrays of the three cells in the file, each
    created by a first batch. *)
Definition padded_writer : NSDFWriter :=
  (add_nonuniform_nan nonuniform_map Vm_ragged_first false
     (add_event_nan event_map spikes_first false nan_writer).1).1.

(** The uniform array [Vm] of the three cells, created by a first batch
    of five samples each. *)
Definition Vm_full : NSDFData (list float) :=
  Vm_batch (Some "mV") (Some "ms") (Some 0.5%float).

Definition uniform_writer : NSDFWriter :=
  (add_uniform_data cells_map Vm_full 0%float false linked_writer).1.

(** A batch whose time vector is longer than its rows. *)
Definition Im_mismatched : NSDFData (list float) :=
  Im_batch [0; 1; 2]%float
    [("c0", [1; 2]%float); ("c1", [3; 4]%float); ("c2", [5; 6]%float)].

(** The attributes [add_uniform_data] stores on the array it creates. *)
Definition uniform_attrs (tstart : float) (dt : option float)
    (field unit tunit : string) : gmap string attr :=
  <["timeunit" := AStr tunit]>
    (<["unit" := AStr unit]>
       (<["field" := AStr field]>
          (<["dt" := AFloat dt]>
             (<["tstart" := AFloat (Some tstart)]> ∅)))).

(** The same array created by a one-time write ([fixed=True]). *)
Definition fixed_writer : NSDFWriter :=
  (add_uniform_data cells_map Vm_full 0%float true linked_writer).1.

(** The exception a declaring method ends with on an empty id list: the
    checks run in the order of the source. *)
Definition empty_idlist_error (c : declaration) (d : dialect_t) : exn :=
  match c with
  | Decl_uniform _ | Decl_static _ => ValueError_idlist
  | Decl_event _ | Decl_event_1d _ _ => AssertionError_idlist
  | Decl_nonuniform _ | Decl_nonuniform_1d _ _ =>
      if decl_dialect_ok c d then AssertionError_idlist else AssertionError_dialect
  end.

(** The exception of the dialect check of an appending method. *)
Definition dialect_error (c : append_call) : exn :=
  match c with
  | Add_nonuniform_vlen _ | Add_event_vlen _ => Exception_dialect
  | _ => AssertionError_dialect
  end.

(** ** Vocabulary: model components and the groups of a file *)

(** The attributes of the group of a component after
    [add_model_component]: [uid] first, then the attributes of the
    component in the order of [component.attrs.items()], over the
    attributes [a0] the group had. *)
Definition stored_attrs (c : ModelComponent) (a0 : gmap string attr)
    : gmap string attr :=
  foldl (λ a kv, <[kv.1 := kv.2]> a)
    (<["uid" := AStr (default (mc_path c) (mc_uid c))]> a0) (mc_attrs c).

(** [require_group] on the file: a group is added where nothing is. *)
Definition ensure_group (q : path) (f : gmap path node) : gmap path node :=
  match f !! q with None => <[q := Group ∅]> f | Some _ => f end.

(** The groups [__init__] requires, in the order of the source. *)
Definition init_groups : list path :=
  [["data"]; ["model"]; ["map"]; time_dim; modeltree;
   data_grp ++ [UNIFORM]; mapping_grp ++ [UNIFORM];
   data_grp ++ [NONUNIFORM]; mapping_grp ++ [NONUNIFORM];
   data_grp ++ [EVENT]; mapping_grp ++ [EVENT];
   data_grp ++ [STATIC]; mapping_grp ++ [STATIC]].

(** A component with an attribute of its own and no uid. *)
Definition soma : ModelComponent :=
  mkComponent "soma" None "/modeltree/soma" [("kind", AStr "compartment")].

(** A file that was initialised before and holds a mapping and data. *)
Definition reopened_file : gmap path node := fd uniform_writer.

(** The rows of a batch, each followed by the sentinel up to the length
    of the longest: the padded array a first batch makes. *)
Definition padded_rows (batch : list (list float)) : list (list float) :=
  (λ x, x ++ replicate (max_list (length <$> batch) - length x) nan) <$> batch.

(** An object without its [map] and [model] attributes, the two the
    linker writes. *)
Definition without_links (n : node) : node :=
  let cut (a : gmap string attr) := delete "map" (delete "model" a) in
  match n with
  | Group a => Group (cut a)
  | Dataset d =>
      Dataset (mkDataset (ds_data d) (ds_fill d) (ds_maxshape d)
                 (cut (ds_attrs d)) (ds_scale d) (ds_dims d) (ds_labels d))
  end.

(** Two states of the writer that differ at most in the [map] and [model]
    attributes of the objects of the file: the same paths hold objects,
    groups are groups, and a dataset has its contents, fill value,
    maximal shape, scales, labels and every other attribute. *)
Definition links_only (w w' : NSDFWriter) : Prop :=
  dialect w' = dialect w ∧ id_path_dict w' = id_path_dict w
  ∧ ∀ p, without_links <$> fd w' !! p = without_links <$> fd w !! p.

(** The call of a method on the same batch with another source list. *)
Definition call_with_sources (c : append_call) (srcs : list string) : append_call :=
  match c with
  | Add_uniform d tstart => Add_uniform (with_sources d srcs) tstart
  | Add_nonuniform_regular d => Add_nonuniform_regular (with_sources d srcs)
  | Add_static d => Add_static (with_sources d srcs)
  | Add_nonuniform_1d d names => Add_nonuniform_1d (with_sources d srcs) names
  | Add_event_1d d names => Add_event_1d (with_sources d srcs) names
  | Add_nonuniform_vlen d => Add_nonuniform_vlen (with_sources d srcs)
  | Add_event_vlen d => Add_event_vlen (with_sources d srcs)
  | Add_nonuniform_nan d => Add_nonuniform_nan (with_sources d srcs)
  | Add_event_nan d => Add_event_nan (with_sources d srcs)
  end.

(** The names a per-source method is given for the datasets of the
    sources, and whether the batch has data for a source. *)
Definition call_names (c : append_call) : gmap string string :=
  match c with
  | Add_nonuniform_1d _ names | Add_event_1d _ names => names
  | _ => ∅
  end.

Definition call_has_data (c : append_call) (source : string) : bool :=
  match c with
  | Add_uniform d _ | Add_nonuniform_regular d | Add_static d | Add_event_1d d _
  | Add_event_vlen d | Add_event_nan d => bool_decide (is_Some (get_data d source))
  | Add_nonuniform_1d d _ | Add_nonuniform_vlen d | Add_nonuniform_nan d =>
      bool_decide (is_Some (get_data d source))
  end.

(** * Properties *)

(** ** The monad *)

Lemma bind_eq {A B} (m : M A) (k : A → M B) w :
  (m ≫= k) w = match m w with
               | (w', Ok a) => k a w'
               | (w', Raise e) => (w', Raise e)
               end.
Proof. reflexivity. Qed.

Lemma bind_ok {A B} (m : M A) (k : A → M B) w w' a :
  m w = (w', Ok a) → (m ≫= k) w = k a w'.
Proof. intros H. rewrite bind_eq, H. reflexivity. Qed.

Lemma bind_raise {A B} (m : M A) (k : A → M B) w w' e :
  m w = (w', Raise e) → (m ≫= k) w = (w', Raise e).
Proof. intros H. rewrite bind_eq, H. reflexivity. Qed.

Lemma only_new_groups_refl f : only_new_groups f f.
Proof. intros p. by left. Qed.

Lemma only_new_groups_insert f p :
  f !! p = None → only_new_groups f (<[p := Group ∅]> f).
Proof.
  intros Hp q. destruct (decide (q = p)) as [->|Hne].
  - right. by rewrite lookup_insert_eq.
  - left. by rewrite lookup_insert_ne.
Qed.

(** ** match_datasets *)

Lemma match_datasets_true (hdfds pydata : list string) :
  match_datasets hdfds pydata = true ↔ ∀ x, x ∈ hdfds ↔ x ∈ pydata.
Proof.
  unfold match_datasets. rewrite bool_decide_eq_true, set_eq.
  by setoid_rewrite elem_of_list_to_set.
Qed.

Lemma match_datasets_ext (hdfds a b : list string) :
  (∀ x, x ∈ a ↔ x ∈ b) → match_datasets hdfds a = match_datasets hdfds b.
Proof.
  intros Hab. apply eq_true_iff_eq. rewrite !match_datasets_true.
  split; intros H x; rewrite (H x); [apply Hab | symmetry; apply Hab].
Qed.

Lemma bind_ext {A B} (m : M A) (k k' : A → M B) w :
  (∀ a w', k a w' = k' a w') → (m ≫= k) w = (m ≫= k') w.
Proof.
  intros H. rewrite !bind_eq. destruct (m w) as [w' [a|e]]; [apply H | reflexivity].
Qed.

(** ** The cross-reference linker *)

Lemma mapM_lookup_ok (m : gmap string path) (idlist : list string)
    (paths : list path) (w : NSDFWriter) :
  Forall2 (λ uid p, m !! uid = Some p) idlist paths →
  mapM (λ uid, lift_option KeyError_lookup (m !! uid)) idlist w = (w, Ok paths).
Proof.
  intros H. induction H as [|uid p idlist paths Hp _ IH]; [reflexivity|].
  cbn [mapM]. rewrite bind_eq, Hp. cbn [lift_option mret M_ret].
  rewrite bind_eq, IH. reflexivity.
Qed.

Section LinkerFacts.
Variable common_prefix : list path → path.
Variable noname : exn.

(** The linker, when every id resolves: what it does is decided by the
    node at the ancestor path. *)
Lemma link_map_model_resolved w mapds d idlist paths :
  fd w !! mapds = Some (Dataset d) →
  mapping_ids (ds_data d) = Some idlist →
  1 < size (id_path_dict w) →
  Forall2 (λ uid p, id_path_dict w !! uid = Some p) idlist paths →
  _link_map_model common_prefix noname mapds w
  = try_except_KeyError
      (let source := modeltree ++ drop 1 (common_prefix paths) in
       _ ← match drop 1 (common_prefix paths) with
           | [] => raise noname
           | _ => h5_getitem source
           end;
       tmpattr ← attrs_get_refs source "map";
       attrs_set source "map" (ARefs (tmpattr ++ [mapds]));;
       tmpattr ← attrs_get_refs mapds "map";
       attrs_set mapds "model" (ARefs (tmpattr ++ [source])))
      (print "KeyError") w.
Proof.
  intros Hm Hids Hsz Hp. unfold _link_map_model.
  rewrite bind_eq. cbn [get_writer]. rewrite bind_eq.
  unfold h5_handle at 1. rewrite Hm.
  assert (Hid : (match ds_data d with
                 | Ids l => mret l
                 | SrcMap l => mret (l.*1)
                 | _ => raise H5_kind
                 end : M (list string)) w = (w, Ok idlist)).
  { destruct (ds_data d); try discriminate; injection Hids as <-; reflexivity. }
  rewrite bind_eq, Hid.
  apply Nat.ltb_lt in Hsz. rewrite Hsz.
  rewrite bind_eq, (mapM_lookup_ok _ _ _ _ Hp). reflexivity.
Qed.


Lemma link_map_model_skipped w mapds d idlist paths :
  fd w !! mapds = Some (Dataset d) →
  mapping_ids (ds_data d) = Some idlist →
  1 < size (id_path_dict w) →
  Forall2 (λ uid p, id_path_dict w !! uid = Some p) idlist paths →
  fd w !! (modeltree ++ drop 1 (common_prefix paths)) = None →
  drop 1 (common_prefix paths) ≠ [] →
  _link_map_model common_prefix noname mapds w = (printed "KeyError" w, Ok tt).
Proof.
  intros Hm Hids Hsz Hp Hn Hroot.
  rewrite (link_map_model_resolved _ _ _ _ _ Hm Hids Hsz Hp).
  unfold try_except_KeyError. cbn zeta. rewrite bind_eq.
  destruct (drop 1 (common_prefix paths)) as [|x prefix]; [done|].
  unfold h5_getitem at 1. rewrite Hn. reflexivity.
Qed.

(** The ancestor is the root of the tree: the lookup by an empty name
    raises, and nothing is linked; the call prints and returns when the
    exception is a KeyError, and raises it otherwise. *)
Lemma link_map_model_root w mapds d idlist paths :
  fd w !! mapds = Some (Dataset d) →
  mapping_ids (ds_data d) = Some idlist →
  1 < size (id_path_dict w) →
  Forall2 (λ uid p, id_path_dict w !! uid = Some p) idlist paths →
  drop 1 (common_prefix paths) = [] →
  _link_map_model common_prefix noname mapds w
  = if is_KeyError noname then (printed "KeyError" w, Ok tt) else (w, Raise noname).
Proof.
  intros Hm Hids Hsz Hp Hroot.
  rewrite (link_map_model_resolved _ _ _ _ _ Hm Hids Hsz Hp).
  unfold try_except_KeyError. cbn zeta. rewrite bind_eq, Hroot.
  unfold raise. by destruct (is_KeyError noname).
Qed.

Lemma attrs_get_refs_typed w p n k :
  fd w !! p = Some n → refs_typed n k →
  attrs_get_refs p k w = (w, Ok (ref_list n k)).
Proof.
  intros Hp Ht. unfold attrs_get_refs, refs_typed, ref_list in *.
  rewrite bind_eq. unfold h5_getitem. rewrite Hp.
  destruct (node_attrs n !! k) as [[]|]; try done.
Qed.

Lemma attrs_set_some w p n k v :
  fd w !! p = Some n →
  attrs_set p k v w = (set_fd <[p := set_node_attr k v n]> w, Ok tt).
Proof.
  intros Hp. unfold attrs_set. rewrite bind_eq. unfold h5_getitem. by rewrite Hp.
Qed.

Lemma link_map_model_linked w mapds d idlist paths n :
  let source := modeltree ++ drop 1 (common_prefix paths) in
  fd w !! mapds = Some (Dataset d) →
  mapping_ids (ds_data d) = Some idlist →
  1 < size (id_path_dict w) →
  Forall2 (λ uid p, id_path_dict w !! uid = Some p) idlist paths →
  fd w !! source = Some n →
  source ≠ mapds →
  refs_typed n "map" → refs_typed (Dataset d) "map" →
  drop 1 (common_prefix paths) ≠ [] →
  _link_map_model common_prefix noname mapds w
  = (set_fd (λ f,
       <[mapds := set_node_attr "model"
                    (ARefs (ref_list (Dataset d) "map" ++ [source])) (Dataset d)]>
         (<[source := set_node_attr "map" (ARefs (ref_list n "map" ++ [mapds])) n]> f)) w,
     Ok tt).
Proof.
  intros source Hm Hids Hsz Hp Hn Hne Htn Htd Hroot.
  rewrite (link_map_model_resolved _ _ _ _ _ Hm Hids Hsz Hp).
  unfold try_except_KeyError. cbn zeta. fold source.
  rewrite bind_eq.
  assert ((match drop 1 (common_prefix paths) with
           | [] => raise noname
           | _ => h5_getitem source
           end) = h5_getitem source) as ->
    by (by destruct (drop 1 (common_prefix paths))).
  unfold h5_getitem at 1. rewrite Hn.
  rewrite bind_eq, (attrs_get_refs_typed _ _ _ _ Hn Htn).
  rewrite bind_eq, (attrs_set_some _ _ _ _ _ Hn).
  set (w1 := set_fd _ w).
  assert (Hm1 : fd w1 !! mapds = Some (Dataset d)).
  { unfold w1. cbn. by rewrite lookup_insert_ne. }
  rewrite bind_eq, (attrs_get_refs_typed _ _ _ _ Hm1 Htd).
  rewrite (attrs_set_some _ _ _ _ _ Hm1). reflexivity.
Qed.

Lemma link_map_model_small_tree w mapds d idlist :
  fd w !! mapds = Some (Dataset d) →
  mapping_ids (ds_data d) = Some idlist →
  size (id_path_dict w) ≤ 1 →
  _link_map_model common_prefix noname mapds w = (w, Ok tt).
Proof.
  intros Hm Hids Hsz. unfold _link_map_model.
  rewrite bind_eq. cbn [get_writer]. rewrite bind_eq.
  unfold h5_handle at 1. rewrite Hm.
  assert (Hid : (match ds_data d with
                 | Ids l => mret l
                 | SrcMap l => mret (l.*1)
                 | _ => raise H5_kind
                 end : M (list string)) w = (w, Ok idlist)).
  { destruct (ds_data d); try discriminate; injection Hids as <-; reflexivity. }
  rewrite bind_eq, Hid.
  assert ((1 <? size (id_path_dict w)) = false) as -> by (apply Nat.ltb_ge; lia).
  reflexivity.
Qed.

End LinkerFacts.

(** ** h5py primitives, step by step *)

Lemma h5_getitem_some w p n :
  fd w !! p = Some n → h5_getitem p w = (w, Ok n).
Proof. intros H. unfold h5_getitem. by rewrite H. Qed.

Lemma h5_getitem_none w p :
  fd w !! p = None → h5_getitem p w = (w, Raise KeyError_lookup).
Proof. intros H. unfold h5_getitem. by rewrite H. Qed.

Lemma h5_handle_some w p d :
  fd w !! p = Some (Dataset d) → h5_handle p w = (w, Ok d).
Proof. intros H. unfold h5_handle. by rewrite H. Qed.

Lemma require_group_found w parent name :
  is_group_at (fd w) (parent ++ [name]) →
  require_group parent name w = (w, Ok (parent ++ [name])).
Proof. intros [a H]. unfold require_group. by rewrite H. Qed.

Lemma require_group_new w parent name :
  fd w !! (parent ++ [name]) = None →
  require_group parent name w
  = (set_fd <[parent ++ [name] := Group ∅]> w, Ok (parent ++ [name])).
Proof. intros H. unfold require_group. by rewrite H. Qed.

Lemma create_dataset_new w parent name d :
  fd w !! (parent ++ [name]) = None →
  create_dataset parent name d w
  = (set_fd <[parent ++ [name] := Dataset d]> w, Ok (parent ++ [name])).
Proof. intros H. unfold create_dataset. by rewrite H. Qed.


(** [require_group] on a path that holds no dataset: the group is there
    afterwards, and nothing else changed. *)
Lemma require_group_ok w parent name :
  not_dataset_at (fd w) (parent ++ [name]) →
  ∃ w', require_group parent name w = (w', Ok (parent ++ [name]))
        ∧ dialect w' = dialect w ∧ id_path_dict w' = id_path_dict w
        ∧ stdout w' = stdout w
        ∧ is_group_at (fd w') (parent ++ [name])
        ∧ (fd w' = fd w
           ∨ (fd w !! (parent ++ [name]) = None
              ∧ fd w' = <[parent ++ [name] := Group ∅]> (fd w))).
Proof.
  intros Hnd. unfold require_group.
  destruct (fd w !! (parent ++ [name])) as [[a|d]|] eqn:E.
  - eexists; repeat split; eauto. by exists a.
  - by destruct (Hnd d).
  - eexists; repeat split; eauto. exists ∅. cbn. by rewrite lookup_insert_eq.
Qed.

Lemma skeleton_data f stype :
  skeleton f → stype ∈ SAMPLING_TYPES → is_group_at f (data_grp ++ [stype]).
Proof. intros (_ & _ & H) Hs. by apply H. Qed.

Lemma skeleton_mapping f stype :
  skeleton f → stype ∈ SAMPLING_TYPES → is_group_at f (mapping_grp ++ [stype]).
Proof. intros (_ & _ & H) Hs. by apply H. Qed.

Lemma is_group_at_not_dataset f p : is_group_at f p → not_dataset_at f p.
Proof. intros [a H] d. congruence. Qed.

Lemma assert_true (b : bool) e w : b = true → assert_ b e w = (w, Ok tt).
Proof. by intros ->. Qed.

Lemma assert_false (b : bool) e w : b = false → assert_ b e w = (w, Raise e).
Proof. by intros ->. Qed.

Lemma length_pos_ltb {A} (l : list A) : l ≠ [] → (0 <? length l) = true.
Proof. destruct l; [done|]. intros _. reflexivity. Qed.

Lemma length_eqb_zero {A} (l : list A) : l ≠ [] → (length l =? 0) = false.
Proof. destruct l; [done|]. intros _. reflexivity. Qed.

Lemma sampling_types_elem :
  UNIFORM ∈ SAMPLING_TYPES ∧ NONUNIFORM ∈ SAMPLING_TYPES
  ∧ EVENT ∈ SAMPLING_TYPES ∧ STATIC ∈ SAMPLING_TYPES.
Proof. unfold SAMPLING_TYPES. repeat split; set_solver. Qed.

Section DeclareFacts.
Variable common_prefix : list path → path.
Variable noname : exn.

(** A declaration that passes its checks stores the mapping dataset and
    hands it to the linker; the only other change is the per-population
    group of the 1-D declarations, when it was not there. *)
Lemma declare_reaches_linker c idlist w :
  skeleton (fd w) → idlist ≠ [] →
  decl_dialect_ok c (dialect w) = true →
  fd w !! decl_target c = None →
  (∀ g, decl_group c = Some g → not_dataset_at (fd w) g) →
  ∃ w0, dialect w0 = dialect w ∧ id_path_dict w0 = id_path_dict w
        ∧ stdout w0 = stdout w
        ∧ (fd w0 = fd w
           ∨ ∃ g, decl_group c = Some g ∧ fd w !! g = None
                  ∧ fd w0 = <[g := Group ∅]> (fd w))
        ∧ declare common_prefix noname c idlist w
          = (_link_map_model common_prefix noname (decl_target c)
               ≫= λ _, mret (decl_target c))
              (set_fd <[decl_target c := Dataset (decl_dataset c idlist)]> w0).
Proof.
  intros Hsk Hne Hdia Hfree Hgrp.
  destruct sampling_types_elem as (Hu & Hn & He & Hs).
  destruct c as [name|popname|popname varname|name|popname varname|popname];
    cbn [declare decl_target decl_dataset decl_dialect_ok decl_group] in *.
  - exists w. repeat split; auto. unfold add_uniform_ds.
    rewrite (length_eqb_zero _ Hne).
    destruct (skeleton_mapping _ _ Hsk Hu) as [a Ha].
    rewrite bind_eq. unfold try_except_KeyError.
    rewrite bind_eq, (h5_getitem_some _ _ _ Ha). cbn [mret M_ret].
    rewrite bind_eq, create_dataset_new by exact Hfree. reflexivity.
  - exists w. repeat split; auto. unfold add_nonuniform_ds.
    rewrite bind_eq, (require_group_found _ _ _ (skeleton_mapping _ _ Hsk Hn)).
    rewrite bind_eq. cbn [get_writer].
    rewrite bind_eq, (assert_true _ _ _ Hdia).
    rewrite bind_eq, (assert_true _ _ _ (length_pos_ltb _ Hne)).
    rewrite bind_eq, create_dataset_new by exact Hfree. reflexivity.
  - destruct (require_group_ok w (mapping_grp ++ [NONUNIFORM]) popname)
      as (w0 & Hrg & Hd0 & Hi0 & Ho0 & Hg0 & Hfd0); [by apply Hgrp|].
    exists w0. repeat split; auto.
    { destruct Hfd0 as [?|[? ?]]; [by left|right]. eexists; repeat split; eauto. }
    unfold add_nonuniform_ds_1d.
    rewrite bind_eq, (require_group_found _ _ _ (skeleton_mapping _ _ Hsk Hn)).
    rewrite bind_eq. cbn [get_writer].
    rewrite bind_eq, (assert_true _ _ _ Hdia).
    rewrite bind_eq, (assert_true _ _ _ (length_pos_ltb _ Hne)).
    rewrite bind_eq, Hrg.
    rewrite bind_eq, create_dataset_new; [reflexivity|].
    destruct Hfd0 as [->|[_ ->]]; [exact Hfree|].
    rewrite lookup_insert_ne; [exact Hfree|]. cbn. congruence.
  - exists w. repeat split; auto. unfold add_event_ds.
    rewrite bind_eq, (require_group_found _ _ _ (skeleton_mapping _ _ Hsk He)).
    rewrite bind_eq. cbn [get_writer].
    rewrite bind_eq, (assert_true _ _ _ (length_pos_ltb _ Hne)).
    rewrite bind_eq, (assert_true _ _ _ Hdia).
    rewrite bind_eq, create_dataset_new by exact Hfree. reflexivity.
  - destruct (require_group_ok w (mapping_grp ++ [EVENT]) popname)
      as (w0 & Hrg & Hd0 & Hi0 & Ho0 & Hg0 & Hfd0); [by apply Hgrp|].
    exists w0. repeat split; auto.
    { destruct Hfd0 as [?|[? ?]]; [by left|right]. eexists; repeat split; eauto. }
    unfold add_event_ds_1d.
    rewrite bind_eq, (require_group_found _ _ _ (skeleton_mapping _ _ Hsk He)).
    rewrite bind_eq. cbn [get_writer].
    rewrite bind_eq, (assert_true _ _ _ (length_pos_ltb _ Hne)).
    rewrite bind_eq, (assert_true _ _ _ Hdia).
    rewrite bind_eq, Hrg.
    rewrite bind_eq, create_dataset_new; [reflexivity|].
    destruct Hfd0 as [->|[_ ->]]; [exact Hfree|].
    rewrite lookup_insert_ne; [exact Hfree|]. cbn. congruence.
  - exists w. repeat split; auto. unfold add_static_ds.
    rewrite (length_eqb_zero _ Hne).
    rewrite bind_eq, (require_group_found _ _ _ (skeleton_mapping _ _ Hsk Hs)).
    rewrite bind_eq, create_dataset_new by exact Hfree. reflexivity.
Qed.

End DeclareFacts.

Lemma mapping_ids_decl_dataset c idlist :
  mapping_ids (ds_data (decl_dataset c idlist)) = Some idlist.
Proof.
  destruct c; cbn; try reflexivity; f_equal;
    rewrite <- list_fmap_compose; apply list_fmap_id.
Qed.

Lemma modeltree_not_mapping (x y : path) : modeltree ++ x ≠ mapping_grp ++ y.
Proof. cbn. congruence. Qed.

Lemma decl_target_mapping c : ∃ y, decl_target c = mapping_grp ++ y.
Proof. destruct c; cbn [decl_target]; eauto. Qed.

Lemma decl_group_mapping c g : decl_group c = Some g → ∃ y, g = mapping_grp ++ y.
Proof. destruct c; cbn [decl_group]; intros [= <-]; eauto. Qed.

(** C8. When no node of the model tree is at the closest-common-ancestor
    path of a mapping's sources, the linker does not raise: the declaring
    method returns the handle of the mapping dataset, the dataset is stored
    without any reference attribute, one line is printed, and nothing else
    in the file changes but the per-population group a 1-D declaration
    may add. *)
Theorem missing_ancestor_is_logged (common_prefix : list path → path) (noname : exn)
    (c : declaration) (idlist : list string) (paths : list path) (w : NSDFWriter) :
  skeleton (fd w) → idlist ≠ [] →
  decl_dialect_ok c (dialect w) = true →
  fd w !! decl_target c = None →
  (∀ g, decl_group c = Some g → not_dataset_at (fd w) g) →
  1 < size (id_path_dict w) →
  Forall2 (λ uid p, id_path_dict w !! uid = Some p) idlist paths →
  fd w !! (modeltree ++ drop 1 (common_prefix paths)) = None →
  ∃ w', declare common_prefix noname c idlist w = (w', Ok (decl_target c))
        ∧ stdout w' = stdout w ++ ["KeyError"]
        ∧ fd w' !! decl_target c = Some (Dataset (decl_dataset c idlist))
        ∧ only_new_groups_except [decl_target c] (fd w) (fd w').
Proof.
  intros Hsk Hne Hdia Hfree Hgrp Hsz Hres Hnode.
  destruct (declare_reaches_linker common_prefix noname c idlist w Hsk Hne Hdia Hfree Hgrp)
    as (w0 & Hd0 & Hi0 & Ho0 & Hfd0 & ->).
  set (w1 := set_fd _ w0).
  assert (Hm : fd w1 !! decl_target c = Some (Dataset (decl_dataset c idlist))).
  { unfold w1. cbn. by rewrite lookup_insert_eq. }
  assert (Hnode1 : fd w1 !! (modeltree ++ drop 1 (common_prefix paths)) = None).
  { unfold w1. cbn.
    destruct (decl_target_mapping c) as [y Hy].
    rewrite lookup_insert_ne by (rewrite Hy; apply not_eq_sym, modeltree_not_mapping).
    destruct Hfd0 as [->|(g & Hg & _ & ->)]; [exact Hnode|].
    destruct (decl_group_mapping _ _ Hg) as [z ->].
    rewrite lookup_insert_ne by apply not_eq_sym, modeltree_not_mapping.
    exact Hnode. }
  rewrite bind_eq.
  rewrite (link_map_model_skipped common_prefix noname w1 _ _ idlist paths Hm
             (mapping_ids_decl_dataset c idlist)).
  - eexists. split; [reflexivity|]. cbn. rewrite Ho0. repeat split.
    + by rewrite lookup_insert_eq.
    + intros p Hp. apply not_elem_of_cons in Hp as [Hp _].
      rewrite lookup_insert_ne by done.
      destruct Hfd0 as [->|(g & Hg & Hgn & ->)]; [by left|].
      by apply only_new_groups_insert.
  - unfold w1. cbn. by rewrite Hi0.
  - unfold w1. cbn. by rewrite Hi0.
  - exact Hnode1.
  - intros Hroot. rewrite Hroot, app_nil_r in Hnode.
    destruct Hsk as (_ & [a Ha] & _). congruence.
Qed.

(** ** Computations that keep a relation *)

Section Preserves.
Context (R : relation NSDFWriter) `{!PreOrder R}.

Lemma preserves_ret {A} (a : A) : preserves R (mret a : M A).
Proof. intros w w' r [= <- _]. reflexivity. Qed.

Lemma preserves_raise {A} e : preserves R (raise e : M A).
Proof. intros w w' r [= <- _]. reflexivity. Qed.

Lemma preserves_bind {A B} (m : M A) (k : A → M B) :
  preserves R m → (∀ a, preserves R (k a)) → preserves R (m ≫= k).
Proof.
  intros Hm Hk w w' r. rewrite bind_eq.
  destruct (m w) as [w1 [a|e]] eqn:E.
  - intros H. etrans; [eapply Hm, E | eapply Hk, H].
  - intros [= <- _]. eapply Hm, E.
Qed.

Lemma preserves_try {A} (body handler : M A) :
  preserves R body → preserves R handler →
  preserves R (try_except_KeyError body handler).
Proof.
  intros Hb Hh w w' r. unfold try_except_KeyError.
  destruct (body w) as [w1 [a|e]] eqn:E.
  - intros [= <- _]. eapply Hb, E.
  - destruct (is_KeyError e).
    + intros H. etrans; [eapply Hb, E | eapply Hh, H].
    + intros [= <- _]. eapply Hb, E.
Qed.

Lemma preserves_lift_option {A} e (o : option A) : preserves R (lift_option e o).
Proof. destruct o; [apply preserves_ret | apply preserves_raise]. Qed.

Lemma preserves_assert b e : preserves R (assert_ b e).
Proof. destruct b; [apply preserves_ret | apply preserves_raise]. Qed.

Lemma preserves_mapM {A B} (f : A → M B) (l : list A) :
  (∀ x, preserves R (f x)) → preserves R (mapM f l).
Proof.
  intros Hf. induction l as [|x l IH]; cbn [mapM]; [apply preserves_ret|].
  apply preserves_bind; [apply Hf|]. intros y.
  apply preserves_bind; [apply IH|]. intros ys. apply preserves_ret.
Qed.

Lemma preserves_for_each {A} (l : list A) (body : A → M unit) :
  (∀ x, preserves R (body x)) → preserves R (for_each l body).
Proof.
  intros Hf. induction l as [|x l IH]; cbn [for_each]; [apply preserves_ret|].
  apply preserves_bind; [apply Hf | intros _; apply IH].
Qed.

Lemma preserves_get_writer : preserves R get_writer.
Proof. intros w w' r [= <- _]. reflexivity. Qed.

Lemma preserves_h5_getitem p : preserves R (h5_getitem p).
Proof.
  intros w w' r. unfold h5_getitem.
  destruct (fd w !! p); intros [= <- _]; reflexivity.
Qed.

Lemma preserves_h5_handle p : preserves R (h5_handle p).
Proof.
  intros w w' r. unfold h5_handle.
  destruct (fd w !! p) as [[]|]; intros [= <- _]; reflexivity.
Qed.

Lemma preserves_attrs_get_refs p k : preserves R (attrs_get_refs p k).
Proof.
  unfold attrs_get_refs. apply preserves_bind; [apply preserves_h5_getitem|].
  intros n. destruct (node_attrs n !! k) as [[]|];
    first [apply preserves_ret | apply preserves_raise].
Qed.

End Preserves.

Create HintDb preserves discriminated.

(** Structural descent through a method body; the leaves that write to the
    file are closed from the hint database. *)
Ltac preserves_step :=
  lazymatch goal with
  | |- PreOrder _ => apply _
  | |- preserves _ (_ ≫= _) => apply preserves_bind; [apply _ | | intros ?]
  | |- preserves _ (mret _) => apply preserves_ret; apply _
  | |- preserves _ (raise _) => apply preserves_raise; apply _
  | |- preserves _ (try_except_KeyError _ _) => apply preserves_try; [apply _ | | ]
  | |- preserves _ (lift_option _ _) => apply preserves_lift_option; apply _
  | |- preserves _ (assert_ _ _) => apply preserves_assert; apply _
  | |- preserves _ (mapM _ _) => apply preserves_mapM; [apply _ | intros ?]
  | |- preserves _ (for_each _ _) => apply preserves_for_each; [apply _ | intros ?]
  | |- preserves _ get_writer => apply preserves_get_writer; apply _
  | |- preserves _ (h5_getitem _) => apply preserves_h5_getitem; apply _
  | |- preserves _ (h5_handle _) => apply preserves_h5_handle; apply _
  | |- preserves _ (attrs_get_refs _ _) => apply preserves_attrs_get_refs; apply _
  | |- preserves _ (if ?b then _ else _) => destruct b
  | |- preserves _ (match ?x with _ => _ end) => destruct x
  | |- preserves _ (let _ := _ in _) => cbn zeta
  | |- preserves _ _ => solve [auto with preserves]
  end.
Ltac preserves_tac := repeat preserves_step.

#[global] Instance same_kinds_preorder : PreOrder same_kinds.
Proof.
  split.
  - intros w. by repeat split.
  - intros w1 w2 w3 (Hd1 & Hi1 & Hk1) (Hd2 & Hi2 & Hk2). repeat split.
    + congruence.
    + congruence.
    + intros p. by rewrite Hk2, Hk1.
Qed.

Lemma same_kinds_attrs_set p k v : preserves same_kinds (attrs_set p k v).
Proof.
  intros w w' r. unfold attrs_set. rewrite bind_eq. unfold h5_getitem.
  destruct (fd w !! p) as [n|] eqn:E; intros [= <- _]; [|reflexivity].
  repeat split. intros q. cbn.
  destruct (decide (q = p)) as [->|Hne].
  - rewrite lookup_insert_eq, E. by destruct n.
  - by rewrite lookup_insert_ne.
Qed.

Lemma same_kinds_print s : preserves same_kinds (print s).
Proof. intros w w' r [= <- _]. by repeat split. Qed.

#[global] Hint Resolve same_kinds_attrs_set same_kinds_print : preserves.

Lemma same_kinds_link_map_model common_prefix noname mapds :
  preserves same_kinds (_link_map_model common_prefix noname mapds).
Proof. unfold _link_map_model. preserves_tac. Qed.

(** ** Declarations *)




Lemma create_group_inv w parent name w' p :
  create_group parent name w = (w', Ok p) →
  p = parent ++ [name] ∧ dialect w' = dialect w
  ∧ fd w' = <[p := Group ∅]> (fd w) ∧ fd w !! p = None.
Proof.
  unfold create_group.
  destruct (fd w !! (parent ++ [name])) as [n|] eqn:E; intros [= <- <-].
  by repeat split.
Qed.






Section DeclareInversion.
Variable common_prefix : list path → path.
Variable noname : exn.


End DeclareInversion.

Section Redeclaration.
Variable common_prefix : list path → path.
Variable noname : exn.


End Redeclaration.


(** ** The example files *)

Lemma skeleton_fresh_writer d : skeleton (fd (fresh_writer d)).
Proof.
  repeat split; try (eexists; vm_compute; reflexivity).
  all: unfold SAMPLING_TYPES in *;
    repeat match goal with
    | H : _ ∈ _ :: _ |- _ => apply elem_of_cons in H as [->|H]
    | H : _ ∈ [] |- _ => by apply elem_of_nil in H
    end; eexists; vm_compute; reflexivity.
Qed.

Lemma skeleton_tree_writer d : skeleton (fd (tree_writer d)).
Proof.
  repeat split; try (eexists; vm_compute; reflexivity).
  all: unfold SAMPLING_TYPES in *;
    repeat match goal with
    | H : _ ∈ _ :: _ |- _ => apply elem_of_cons in H as [->|H]
    | H : _ ∈ [] |- _ => by apply elem_of_nil in H
    end; eexists; vm_compute; reflexivity.
Qed.

Lemma cells_resolve :
  Forall2 (λ uid p, tree_dict !! uid = Some p) cells cells_paths.
Proof. repeat constructor. Qed.

Lemma missing_ancestor_is_logged_witness :
  ∃ w', declare closest_common_ancestor ValueError_noname (Decl_uniform "cells") cells
          (unwritten_tree_writer ONED)
        = (w', Ok (decl_target (Decl_uniform "cells")))
        ∧ stdout w' = stdout (unwritten_tree_writer ONED) ++ ["KeyError"]
        ∧ fd w' !! decl_target (Decl_uniform "cells")
          = Some (Dataset (decl_dataset (Decl_uniform "cells") cells))
        ∧ only_new_groups_except [decl_target (Decl_uniform "cells")]
            (fd (unwritten_tree_writer ONED)) (fd w').
Proof.
  apply (missing_ancestor_is_logged closest_common_ancestor ValueError_noname
           (Decl_uniform "cells") cells cells_paths (unwritten_tree_writer ONED)).
  - apply skeleton_fresh_writer.
  - discriminate.
  - reflexivity.
  - vm_compute. reflexivity.
  - intros g [=].
  - vm_compute. lia.
  - apply cells_resolve.
  - vm_compute. reflexivity.
Defined.



(** X8. Linking a mapping that was just declared, when the ancestor is a
    node below the root of the tree and is in the file: the node's [map]
    list gains the mapping at its end, the mapping's [model] list is the
    node alone, and no other object gains a reference. *)
Lemma declare_links_ancestor (common_prefix : list path → path) (noname : exn)
    (c : declaration) (idlist : list string) (paths : list path)
    (w : NSDFWriter) (n : node) :
  let source := modeltree ++ drop 1 (common_prefix paths) in
  skeleton (fd w) → idlist ≠ [] →
  decl_dialect_ok c (dialect w) = true →
  fd w !! decl_target c = None →
  (∀ g, decl_group c = Some g → not_dataset_at (fd w) g) →
  1 < size (id_path_dict w) →
  Forall2 (λ uid p, id_path_dict w !! uid = Some p) idlist paths →
  drop 1 (common_prefix paths) ≠ [] →
  fd w !! source = Some n →
  refs_typed n "map" →
  ∃ w', declare common_prefix noname c idlist w = (w', Ok (decl_target c))
        ∧ refs_at w' source "map" = Some (ref_list n "map" ++ [decl_target c])
        ∧ refs_at w' (decl_target c) "model" = Some [source]
        ∧ only_new_groups_except [source; decl_target c] (fd w) (fd w').
Proof.
  intros source Hsk Hne Hdia Hfree Hgrp Hsz Hres Hbelow Hnode Htyped.
  destruct (declare_reaches_linker common_prefix noname c idlist w Hsk Hne Hdia Hfree Hgrp)
    as (w0 & Hd0 & Hi0 & Ho0 & Hfd0 & ->).
  set (w1 := set_fd _ w0).
  destruct (decl_target_mapping c) as [y Hy].
  assert (Hst : source ≠ decl_target c).
  { rewrite Hy. apply modeltree_not_mapping. }
  assert (Hm : fd w1 !! decl_target c = Some (Dataset (decl_dataset c idlist))).
  { unfold w1. cbn. by rewrite lookup_insert_eq. }
  assert (Hnode1 : fd w1 !! source = Some n).
  { unfold w1. cbn. rewrite lookup_insert_ne by done.
    destruct Hfd0 as [->|(g & Hg & _ & ->)]; [exact Hnode|].
    destruct (decl_group_mapping _ _ Hg) as [z ->].
    rewrite lookup_insert_ne by apply not_eq_sym, modeltree_not_mapping.
    exact Hnode. }
  rewrite bind_eq.
  rewrite (link_map_model_linked common_prefix noname w1 _ _ idlist paths n Hm
             (mapping_ids_decl_dataset c idlist)); fold source.
  - eexists. split; [reflexivity|]. unfold refs_at. cbn [fd set_fd]. repeat split.
    + rewrite lookup_insert_ne by done. rewrite lookup_insert_eq. cbn.
      unfold ref_list at 1. destruct n; cbn; by rewrite lookup_insert_eq.
    + rewrite lookup_insert_eq. cbn. unfold ref_list.
      destruct c; cbn; by rewrite lookup_insert_eq.
    + intros p Hp. apply not_elem_of_cons in Hp as [Hp1 Hp].
      apply not_elem_of_cons in Hp as [Hp2 _].
      rewrite !lookup_insert_ne by done.
      unfold w1. cbn [fd set_fd]. rewrite lookup_insert_ne by done.
      destruct Hfd0 as [->|(g & Hg & Hgn & ->)]; [by left|].
      by apply only_new_groups_insert.
  - unfold w1. cbn. by rewrite Hi0.
  - unfold w1. cbn. by rewrite Hi0.
  - exact Hnode1.
  - done.
  - exact Htyped.
  - by destruct c.
  - exact Hbelow.
Qed.

(** C6. A declaration whose sources all resolve in a tree with more than
    the root, when their closest common ancestor is the root itself: the
    slice leaves an empty name, the lookup [self.modeltree['']] raises,
    and nothing is linked.  The mapping dataset is stored without a
    [model] attribute, the [map] list of the root is what it was, and no
    other object changes but the per-population group a 1-D declaration
    may add.  The call returns the handle after printing when the
    exception is a KeyError, and ends in the exception otherwise. *)
Theorem root_ancestor_not_linked (common_prefix : list path → path) (noname : exn)
    (c : declaration) (idlist : list string) (paths : list path) (w : NSDFWriter) :
  skeleton (fd w) → idlist ≠ [] →
  decl_dialect_ok c (dialect w) = true →
  fd w !! decl_target c = None →
  (∀ g, decl_group c = Some g → not_dataset_at (fd w) g) →
  1 < size (id_path_dict w) →
  Forall2 (λ uid p, id_path_dict w !! uid = Some p) idlist paths →
  drop 1 (common_prefix paths) = [] →
  ∃ w', declare common_prefix noname c idlist w
        = (w', if is_KeyError noname then Ok (decl_target c) else Raise noname)
        ∧ stdout w' = (if is_KeyError noname then stdout w ++ ["KeyError"] else stdout w)
        ∧ fd w' !! decl_target c = Some (Dataset (decl_dataset c idlist))
        ∧ refs_at w' (decl_target c) "model" = Some []
        ∧ refs_at w' modeltree "map" = refs_at w modeltree "map"
        ∧ only_new_groups_except [decl_target c] (fd w) (fd w').
Proof.
  intros Hsk Hne Hdia Hfree Hgrp Hsz Hres Hroot.
  destruct (declare_reaches_linker common_prefix noname c idlist w Hsk Hne Hdia Hfree Hgrp)
    as (w0 & Hd0 & Hi0 & Ho0 & Hfd0 & ->).
  set (w1 := set_fd _ w0).
  assert (Hm : fd w1 !! decl_target c = Some (Dataset (decl_dataset c idlist))).
  { unfold w1. cbn. by rewrite lookup_insert_eq. }
  assert (Hother : only_new_groups_except [decl_target c] (fd w) (fd w1)).
  { intros p Hp. apply not_elem_of_cons in Hp as [Hp _].
    unfold w1. cbn [fd set_fd]. rewrite lookup_insert_ne by done.
    destruct Hfd0 as [->|(g & Hg & Hgn & ->)]; [by left|].
    by apply only_new_groups_insert. }
  assert (Htree : fd w1 !! modeltree = fd w !! modeltree).
  { destruct Hsk as (_ & [a Ha] & _).
    destruct (decl_target_mapping c) as [y Hy].
    destruct (Hother modeltree) as [H|[H _]]; [|done|congruence].
    rewrite Hy. apply not_elem_of_cons. split; [|apply not_elem_of_nil].
    rewrite <- (app_nil_r modeltree). apply modeltree_not_mapping. }
  assert (Hmodel : ref_list (Dataset (decl_dataset c idlist)) "model" = [])
    by (by destruct c).
  rewrite bind_eq.
  rewrite (link_map_model_root common_prefix noname w1 _ _ idlist paths Hm
             (mapping_ids_decl_dataset c idlist)); [|unfold w1; cbn; by rewrite Hi0..|done].
  assert (Hout : stdout w1 = stdout w) by (unfold w1; cbn; exact Ho0).
  destruct (is_KeyError noname).
  - eexists. split; [reflexivity|]. unfold refs_at, printed. cbn [stdout fd].
    rewrite Hout, Hm, Htree. cbn [fmap option_fmap option_map]. rewrite Hmodel.
    by repeat split.
  - eexists. split; [reflexivity|]. unfold refs_at.
    rewrite Hout, Hm, Htree. cbn [fmap option_fmap option_map]. rewrite Hmodel.
    by repeat split.
Qed.

(** ** The appending methods: source validation *)

(** After [require_group], an object that was there is still there. *)
Lemma lookup_after_group (f f' : gmap path node) g p n :
  (f' = f ∨ (f !! g = None ∧ f' = <[g := Group ∅]> f)) →
  f !! p = Some n → f' !! p = Some n.
Proof.
  intros [->|[Hn ->]] Hp; [done|].
  rewrite lookup_insert_ne; [done|]. congruence.
Qed.

Lemma only_new_groups_after_group (f f' : gmap path node) g :
  (f' = f ∨ (f !! g = None ∧ f' = <[g := Group ∅]> f)) →
  only_new_groups f f'.
Proof.
  intros [->|[Hn ->]]; [apply only_new_groups_refl | by apply only_new_groups_insert].
Qed.

Lemma iter_ids_ok w p d ids :
  fd w !! p = Some (Dataset d) → ds_data d = Ids ids →
  iter_ids p w = (w, Ok ids).
Proof.
  intros Hp Hd. unfold iter_ids.
  rewrite bind_eq, (h5_handle_some _ _ _ Hp), Hd. reflexivity.
Qed.

Lemma source_column_ok w p d l :
  fd w !! p = Some (Dataset d) → ds_data d = SrcMap l →
  source_column p w = (w, Ok (l.*1)).
Proof.
  intros Hp Hd. unfold source_column.
  rewrite bind_eq, (h5_handle_some _ _ _ Hp), Hd. reflexivity.
Qed.

Lemma match_datasets_false (hdfds pydata : list string) :
  ¬ (∀ x, x ∈ hdfds ↔ x ∈ pydata) → match_datasets hdfds pydata = false.
Proof.
  intros H. apply not_true_is_false. by rewrite match_datasets_true.
Qed.

Lemma call_mapping_ids_flat c x ids :
  is_1d c = false → call_mapping_ids c x = Some ids → x = Ids ids.
Proof.
  intros H1. unfold call_mapping_ids. rewrite H1.
  destruct x; try discriminate. by intros [= ->].
Qed.

Lemma call_mapping_ids_1d c x ids :
  is_1d c = true → call_mapping_ids c x = Some ids → ∃ l, x = SrcMap l ∧ ids = l.*1.
Proof.
  intros H1. unfold call_mapping_ids. rewrite H1.
  destruct x; try discriminate. intros [= <-]. eauto.
Qed.

(** The steps every 2-D method starts with, when the batch does not match
    the mapping. *)
Lemma flat_mismatch {A} ns source_ds srcs (k : path → list string → M A) w ds ids :
  is_group_at (fd w) (data_grp ++ [ns]) →
  not_dataset_at (fd w) (data_grp ++ [ns] ++ [rpartition_last source_ds]) →
  fd w !! source_ds = Some (Dataset ds) → ds_data ds = Ids ids →
  match_datasets ids srcs = false →
  ∃ w', (_ ← h5_getitem (data_grp ++ [ns]);
         ngrp ← require_group (data_grp ++ [ns]) (rpartition_last source_ds);
         ids ← iter_ids source_ds;
         if negb (match_datasets ids srcs) then raise KeyError_sources
         else k ngrp ids) w = (w', Raise KeyError_sources)
        ∧ only_new_groups (fd w) (fd w').
Proof.
  intros [a Hg] Hnd Hs Hd Hm.
  rewrite bind_eq, (h5_getitem_some _ _ _ Hg).
  destruct (require_group_ok w (data_grp ++ [ns]) (rpartition_last source_ds))
    as (w1 & Hrg & _ & _ & _ & _ & Hfd); [by rewrite <- (assoc_L (++))|].
  rewrite bind_eq, Hrg.
  rewrite bind_eq, (iter_ids_ok w1 source_ds ds ids); [|by eapply lookup_after_group|done].
  rewrite Hm. cbn [negb]. eexists. split; [reflexivity|].
  by eapply only_new_groups_after_group.
Qed.

Lemma discard_raise {A} (m : M A) w w' e :
  m w = (w', Raise e) → discard m w = (w', Raise e).
Proof. intros H. unfold discard. by rewrite bind_eq, H. Qed.

Lemma discard_ok {A} (m : M A) w w' a :
  m w = (w', Ok a) → discard m w = (w', Ok tt).
Proof. intros H. unfold discard. by rewrite bind_eq, H. Qed.

Lemma call_namespace_sampling c : call_namespace c ∈ SAMPLING_TYPES.
Proof.
  destruct sampling_types_elem as (Hu & Hn & He & Hs). by destruct c.
Qed.

Lemma mismatch_finish {A} (m : M A) w :
  (∃ w', m w = (w', Raise KeyError_sources) ∧ only_new_groups (fd w) (fd w')) →
  ∃ w' e, discard m w = (w', Raise e)
          ∧ classify e = Some SourceMismatch
          ∧ only_new_groups (fd w) (fd w').
Proof.
  intros (w' & Heq & Hong). exists w', KeyError_sources.
  repeat split; [by apply discard_raise | exact Hong].
Qed.

(** C1, as the code has it. For every appending method that compares the
    batch with the mapping dataset (all but [add_event_1d]), called under
    the dialect it asserts: when the set of source ids of the batch
    differs from the set of ids of the mapping, the call raises the
    source-mismatch error, and in the file no dataset is created, grown or
    rewritten and no attribute is written; at most the empty group of the
    population is new. *)
Theorem source_mismatch_rejected (c : append_call) (source_ds : path)
    (fixed : bool) (w : NSDFWriter) (ds : dataset) (ids : list string) :
  checks_mapping c = true →
  call_dialect_ok c (dialect w) = true →
  skeleton (fd w) →
  not_dataset_at (fd w) (call_group c source_ds) →
  fd w !! source_ds = Some (Dataset ds) →
  call_mapping_ids c (ds_data ds) = Some ids →
  ¬ (∀ x, x ∈ ids ↔ x ∈ call_sources c) →
  ∃ w' e, append c source_ds fixed w = (w', Raise e)
          ∧ classify e = Some SourceMismatch
          ∧ only_new_groups (fd w) (fd w').
Proof.
  intros Hchk Hdia Hsk Hnd Hs Hids Hdiff.
  pose proof (skeleton_data _ _ Hsk (call_namespace_sampling c)) as Hns.
  assert (Hm : is_1d c = false → match_datasets ids (call_sources c) = false)
    by (intros _; by apply match_datasets_false).
  assert (Hd : is_1d c = false → ds_data ds = Ids ids)
    by (intros H1; by eapply call_mapping_ids_flat).
  assert (Hnd' : is_1d c = false →
            not_dataset_at (fd w)
              (data_grp ++ [call_namespace c] ++ [rpartition_last source_ds])).
  { intros H1. unfold call_group, call_popname in Hnd. by rewrite H1 in Hnd. }
  destruct c as [d tstart|d|d|d names|d names|d|d|d|d];
    cbn [append call_sources call_namespace call_dialect_ok is_1d checks_mapping] in *;
    try discriminate Hchk.
  - apply mismatch_finish. unfold add_uniform_data.
    eapply flat_mismatch; eauto.
  - apply mismatch_finish. unfold add_nonuniform_regular.
    eapply flat_mismatch; eauto.
  - apply mismatch_finish. unfold add_static_data.
    eapply flat_mismatch; eauto.
  - (* add_nonuniform_1d *)
    destruct (call_mapping_ids_1d (Add_nonuniform_1d d names) _ _ eq_refl Hids) as (l & Hl & ->).
    destruct Hns as [a Ha].
    destruct (require_group_ok w (data_grp ++ [NONUNIFORM]) (split_penultimate source_ds))
      as (w1 & Hrg & _ & _ & _ & _ & Hfd); [exact Hnd|].
    exists w1, AssertionError_sources. repeat split;
      [|by eapply only_new_groups_after_group].
    apply discard_raise. unfold add_nonuniform_1d.
    rewrite bind_eq. cbn [get_writer].
    rewrite bind_eq, (assert_true _ _ _ Hdia).
    cbn zeta. rewrite bind_eq, (h5_getitem_some _ _ _ Ha).
    rewrite bind_eq, Hrg.
    destruct (match_datasets (dict_keys names) (get_sources d)) eqn:Hk1.
    + rewrite bind_eq, (assert_true _ _ _ eq_refl).
      rewrite bind_eq, (source_column_ok w1 source_ds ds l);
        [|by eapply lookup_after_group|done].
      rewrite bind_eq, assert_false; [reflexivity|].
      apply match_datasets_false. intros Hk2. apply Hdiff.
      pose proof (proj1 (match_datasets_true _ _) Hk1) as Hk1'.
      intros x. by rewrite Hk2, Hk1'.
    + rewrite bind_eq, (assert_false _ _ _ eq_refl). reflexivity.
  - apply mismatch_finish. unfold add_nonuniform_vlen.
    rewrite bind_eq. cbn [get_writer]. rewrite Hdia. cbn [negb].
    eapply flat_mismatch; eauto.
  - apply mismatch_finish. unfold add_event_vlen.
    rewrite bind_eq. cbn [get_writer]. rewrite Hdia. cbn [negb].
    eapply flat_mismatch; eauto.
  - apply mismatch_finish. unfold add_nonuniform_nan.
    rewrite bind_eq. cbn [get_writer].
    rewrite bind_eq, (assert_true _ _ _ Hdia).
    eapply flat_mismatch; eauto.
  - apply mismatch_finish. unfold add_event_nan.
    rewrite bind_eq. cbn [get_writer].
    rewrite bind_eq, (assert_true _ _ _ Hdia).
    eapply flat_mismatch; eauto.
Qed.

Ltac skeleton_by_computation :=
  repeat split; try (eexists; vm_compute; reflexivity);
  unfold SAMPLING_TYPES in *;
  repeat match goal with
    | H : _ ∈ _ :: _ |- _ => apply elem_of_cons in H as [->|H]
    | H : _ ∈ [] |- _ => by apply elem_of_nil in H
    end; eexists; vm_compute; reflexivity.

Lemma skeleton_linked_writer : skeleton (fd linked_writer).
Proof. skeleton_by_computation. Qed.

Lemma skeleton_nan_event_writer : skeleton (fd nan_event_writer).
Proof. skeleton_by_computation. Qed.

Lemma skeleton_oned_event_writer : skeleton (fd oned_event_writer).
Proof. skeleton_by_computation. Qed.

(** Counterexample to C1 as stated. A mismatching batch given to
    [add_uniform_data] is refused, but the group of the population has
    been added to the file by then; and under the NaN-padded dialect a
    mismatching batch given to [add_event_vlen] is refused for the dialect,
    not for its sources. *)
Lemma source_mismatch_counterexample :
  let refused := add_uniform_data cells_map partial_Vm_batch 0%float false linked_writer in
  let ragged := add_event_vlen event_map (spikes_batch (Some "s") [("c0", [1%float])])
                  false nan_event_writer in
  match_datasets cells (get_sources partial_Vm_batch) = false
  ∧ raised refused = Some KeyError_sources
  ∧ fd linked_writer !! ["data"; "uniform"; "cells"] = None
  ∧ fd refused.1 !! ["data"; "uniform"; "cells"] = Some (Group ∅)
  ∧ raised ragged = Some Exception_dialect
  ∧ classify Exception_dialect ≠ Some SourceMismatch.
Proof. vm_compute. repeat split; try reflexivity. discriminate. Qed.

(** [add_event_1d] takes a batch with a source the mapping does not list:
    it checks the batch against [source_name_dict] only, where
    [add_nonuniform_1d] also checks the mapping. *)
Lemma add_event_1d_accepts_extra_sources :
  let r := add_event_1d spikes_map
             (spikes_batch (Some "s") [("c0", [1%float]); ("c1", [2%float])])
             spike_names false oned_event_writer in
  raised r = None
  ∧ ds_data <$> (fd r.1 !! ["data"; "event"; "cells"; "spikes"; "spikes_c0"]
                   ≫= λ n, match n with Dataset d => Some d | Group _ => None end)
    = Some (Array1 [1%float]).
Proof. vm_compute. split; reflexivity. Qed.

Lemma source_mismatch_rejected_witness :
  ∃ w' e, append (Add_uniform partial_Vm_batch 0%float) cells_map false linked_writer
          = (w', Raise e)
          ∧ classify e = Some SourceMismatch
          ∧ only_new_groups (fd linked_writer) (fd w').
Proof.
  eapply (source_mismatch_rejected (Add_uniform partial_Vm_batch 0%float)
            cells_map false linked_writer _ cells).
  - reflexivity.
  - reflexivity.
  - apply skeleton_linked_writer.
  - intros d H. vm_compute in H. discriminate.
  - vm_compute. reflexivity.
  - vm_compute. reflexivity.
  - intros H. apply match_datasets_true in H. vm_compute in H. discriminate.
Defined.

(** ** The appending methods: creation *)

Lemma mapM_lift_option_ok {A B} e (f : A → option B) (l : list A) (k : list B) w :
  mapM f l = Some k →
  mapM (λ x, lift_option e (f x)) l w = (w, Ok k).
Proof.
  intros H. apply mapM_Some in H.
  induction H as [|x y l k Hxy _ IH]; [reflexivity|].
  cbn [mapM]. rewrite bind_eq, Hxy. cbn [lift_option mret M_ret].
  rewrite bind_eq, IH. reflexivity.
Qed.

Lemma mapM_data_of_ok {D} (d : NSDFData D) ids rows w :
  rows_of d ids = Some rows → mapM (data_of d) ids w = (w, Ok rows).
Proof. apply mapM_lift_option_ok. Qed.

Lemma vstack_ok rows w : stackable rows = true → vstack rows w = (w, Ok rows).
Proof.
  unfold vstack, stackable. destruct rows as [|r rs]; [discriminate|].
  by intros ->.
Qed.

Lemma app_singleton_ne {A} (l : list A) x : l ++ [x] ≠ l.
Proof.
  intros H. apply (f_equal length) in H. rewrite length_app in H. cbn in H. lia.
Qed.

Lemma lookup_none_after_group (f f' : gmap path node) g x :
  (f' = f ∨ (f !! g = None ∧ f' = <[g := Group ∅]> f)) →
  f !! (g ++ [x]) = None → f' !! (g ++ [x]) = None.
Proof.
  intros [->|[Hn ->]] Hp; [done|].
  rewrite lookup_insert_ne; [done|]. apply not_eq_sym, app_singleton_ne.
Qed.

(** The steps every 2-D method starts with, when the batch matches the
    mapping: the method goes on with the group of the population and
    the ids of the mapping. *)
Lemma flat_enter ns source_ds srcs w ds ids :
  is_group_at (fd w) (data_grp ++ [ns]) →
  not_dataset_at (fd w) (data_grp ++ [ns] ++ [rpartition_last source_ds]) →
  fd w !! source_ds = Some (Dataset ds) → ds_data ds = Ids ids →
  (∀ x, x ∈ ids ↔ x ∈ srcs) →
  ∃ w1, dialect w1 = dialect w
        ∧ is_group_at (fd w1) (data_grp ++ [ns] ++ [rpartition_last source_ds])
        ∧ (fd w1 = fd w
           ∨ (fd w !! (data_grp ++ [ns] ++ [rpartition_last source_ds]) = None
              ∧ fd w1 = <[data_grp ++ [ns] ++ [rpartition_last source_ds] := Group ∅]> (fd w)))
        ∧ ∀ A (k : path → list string → M A),
            (_ ← h5_getitem (data_grp ++ [ns]);
             ngrp ← require_group (data_grp ++ [ns]) (rpartition_last source_ds);
             ids ← iter_ids source_ds;
             if negb (match_datasets ids srcs) then raise KeyError_sources
             else k ngrp ids) w
            = k (data_grp ++ [ns] ++ [rpartition_last source_ds]) ids w1.
Proof.
  intros [a Hg] Hnd Hs Hd Hm.
  destruct (require_group_ok w (data_grp ++ [ns]) (rpartition_last source_ds))
    as (w1 & Hrg & Hd1 & _ & _ & Hg1 & Hfd); [by rewrite <- (assoc_L (++))|].
  rewrite <- (assoc_L (++)) in Hfd, Hrg, Hg1.
  exists w1. split; [done|]. split; [done|]. split; [done|]. intros A k.
  rewrite bind_eq, (h5_getitem_some _ _ _ Hg).
  rewrite bind_eq, Hrg.
  rewrite bind_eq, (iter_ids_ok w1 source_ds ds ids); [|by eapply lookup_after_group|done].
  by rewrite (proj2 (match_datasets_true _ _) Hm).
Qed.

Lemma try_lookup_missing {A} p (k : node → M A) (handler : M A) w :
  fd w !! p = None →
  try_except_KeyError (h5_getitem p ≫= k) handler w = handler w.
Proof.
  intros H. unfold try_except_KeyError.
  by rewrite bind_eq, (h5_getitem_none _ _ H).
Qed.

Lemma raise_finish {A} (m : M A) w w1 e s :
  m w = (w1, Raise e) → classify e = Some s →
  only_new_groups (fd w) (fd w1) →
  ∃ w' e', discard m w = (w', Raise e') ∧ classify e' = Some s
           ∧ only_new_groups (fd w) (fd w').
Proof.
  intros Hm Hc Hong. exists w1, e. repeat split; auto. by apply discard_raise.
Qed.

(** C5, as the code has it. For the seven 2-D methods, on a call that
    reaches the creation path (right dialect, matching sources, a batch
    that assembles, no dataset yet under the name): when the unit is
    missing, or the time unit where the method asks for one, or, for
    uniform data, [dt <= 0.0] holds, the call raises the missing-metadata
    error, and in the file no dataset is created and no attribute is
    written; at most the empty group of the population is new. *)
Theorem missing_metadata_rejected (c : append_call) (source_ds : path)
    (fixed : bool) (w : NSDFWriter) (ds : dataset) (ids : list string) :
  is_1d c = false →
  call_dialect_ok c (dialect w) = true →
  skeleton (fd w) →
  not_dataset_at (fd w) (call_group c source_ds) →
  fd w !! source_ds = Some (Dataset ds) →
  ds_data ds = Ids ids →
  (∀ x, x ∈ ids ↔ x ∈ call_sources c) →
  batch_assembles c ids = true →
  fd w !! call_target c source_ds = None →
  metadata_missing c = true →
  ∃ w' e, append c source_ds fixed w = (w', Raise e)
          ∧ classify e = Some MissingMetadata
          ∧ only_new_groups (fd w) (fd w').
Proof.
  intros H1d Hdia Hsk Hnd Hs Hd Hm Hasm Habs Hmiss.
  pose proof (skeleton_data _ _ Hsk (call_namespace_sampling c)) as Hns.
  unfold call_target, call_group, call_popname in *. rewrite H1d in *.
  destruct (flat_enter (call_namespace c) source_ds (call_sources c) w ds ids)
    as (w1 & Hd1 & Hpop1 & Hfd1 & Henter); auto.
  pose proof (only_new_groups_after_group _ _ _ Hfd1) as Hong.
  pose proof (lookup_none_after_group _ _ _ (call_name c) Hfd1 Habs) as Habs1.
  unfold metadata_missing in Hmiss.
  destruct c as [d tstart|d|d|d names|d names|d|d|d|d];
    cbn [append call_sources call_namespace call_dialect_ok is_1d call_name
         call_unit call_tunit call_dt needs_tunit needs_dt batch_assembles
         andb orb] in *;
    try discriminate H1d.
  - (* add_uniform_data *)
    destruct (rows_of d ids) as [rows|] eqn:Hrows; [|discriminate].
    eassert (Hrun : add_uniform_data source_ds d tstart fixed w = _).
    { unfold add_uniform_data. apply Henter. }
    cbn beta in Hrun.
    rewrite bind_eq, (mapM_data_of_ok _ _ _ _ Hrows) in Hrun.
    rewrite bind_eq, (vstack_ok _ _ Hasm) in Hrun.
    rewrite try_lookup_missing in Hrun by exact Habs1.
    destruct (dt_le_zero (d_dt d)).
    { eapply raise_finish; [exact Hrun | reflexivity | exact Hong]. }
    destruct (d_unit d) as [u|].
    2:{ eapply raise_finish; [exact Hrun | reflexivity | exact Hong]. }
    destruct (d_tunit d) as [tu|]; [discriminate|].
    eapply raise_finish; [exact Hrun | reflexivity | exact Hong].
  - (* add_nonuniform_regular *)
    destruct (rows_of d ids) as [rows|] eqn:Hrows; [|discriminate].
    apply andb_true_iff in Hasm as [Hst Htimes].
    eassert (Hrun : add_nonuniform_regular source_ds d fixed w = _).
    { unfold add_nonuniform_regular. apply Henter. }
    cbn beta in Hrun.
    rewrite bind_eq, (mapM_data_of_ok _ _ _ _ Hrows) in Hrun.
    rewrite bind_eq, (vstack_ok _ _ Hst) in Hrun.
    rewrite Htimes in Hrun. cbn [negb] in Hrun.
    rewrite try_lookup_missing in Hrun by exact Habs1.
    destruct (d_unit d) as [u|].
    2:{ eapply raise_finish; [exact Hrun | reflexivity | exact Hong]. }
    destruct (d_tunit d) as [tu|]; [discriminate|].
    eapply raise_finish; [exact Hrun | reflexivity | exact Hong].
  - (* add_static_data *)
    destruct (rows_of d ids) as [rows|] eqn:Hrows; [|discriminate].
    eassert (Hrun : add_static_data source_ds d fixed w = _).
    { unfold add_static_data. apply Henter. }
    cbn beta in Hrun.
    rewrite bind_eq, (mapM_data_of_ok _ _ _ _ Hrows) in Hrun.
    rewrite bind_eq, (vstack_ok _ _ Hasm) in Hrun.
    rewrite try_lookup_missing in Hrun by exact Habs1.
    destruct (d_unit d) as [u|]; [discriminate|].
    eapply raise_finish; [exact Hrun | reflexivity | exact Hong].
  - (* add_nonuniform_vlen *)
    eassert (Hrun : add_nonuniform_vlen source_ds d fixed w = _).
    { unfold add_nonuniform_vlen. rewrite bind_eq. cbn [get_writer].
      rewrite Hdia. cbn [negb]. apply Henter. }
    cbn beta zeta in Hrun.
    rewrite bind_eq, try_lookup_missing in Hrun by exact Habs1.
    destruct (d_unit d) as [u|].
    2:{ eapply raise_finish; [exact Hrun | reflexivity | exact Hong]. }
    destruct (d_tunit d) as [tu|]; [discriminate|].
    eapply raise_finish; [exact Hrun | reflexivity | exact Hong].
  - (* add_event_vlen *)
    eassert (Hrun : add_event_vlen source_ds d fixed w = _).
    { unfold add_event_vlen. rewrite bind_eq. cbn [get_writer].
      rewrite Hdia. cbn [negb]. apply Henter. }
    cbn beta zeta in Hrun.
    rewrite bind_eq, try_lookup_missing in Hrun by exact Habs1.
    destruct (d_unit d) as [u|]; [discriminate|].
    eapply raise_finish; [exact Hrun | reflexivity | exact Hong].
  - (* add_nonuniform_nan *)
    destruct (rows_of d ids) as [rows|] eqn:Hrows; [|discriminate].
    eassert (Hrun : add_nonuniform_nan source_ds d fixed w = _).
    { unfold add_nonuniform_nan. rewrite bind_eq. cbn [get_writer].
      rewrite bind_eq, (assert_true _ _ _ Hdia). apply Henter. }
    cbn beta zeta in Hrun.
    rewrite bind_eq, (mapM_data_of_ok _ _ _ _ Hrows) in Hrun.
    rewrite bind_eq, try_lookup_missing in Hrun by exact Habs1.
    destruct (d_unit d) as [u|].
    2:{ eapply raise_finish; [exact Hrun | reflexivity | exact Hong]. }
    destruct (d_tunit d) as [tu|]; [discriminate|].
    eapply raise_finish; [exact Hrun | reflexivity | exact Hong].
  - (* add_event_nan *)
    destruct (rows_of d ids) as [rows|] eqn:Hrows; [|discriminate].
    eassert (Hrun : add_event_nan source_ds d fixed w = _).
    { unfold add_event_nan. rewrite bind_eq. cbn [get_writer].
      rewrite bind_eq, (assert_true _ _ _ Hdia). apply Henter. }
    cbn beta zeta in Hrun.
    rewrite bind_eq, (mapM_data_of_ok _ _ _ _ Hrows) in Hrun.
    rewrite bind_eq, try_lookup_missing in Hrun by exact Habs1.
    destruct (d_unit d) as [u|]; [discriminate|].
    eapply raise_finish; [exact Hrun | reflexivity | exact Hong].
Qed.

Lemma skeleton_oned_writer : skeleton (fd oned_writer).
Proof. skeleton_by_computation. Qed.

(** Counterexample to C5 as stated, in three evaluations.  The first
    write of a variable by [add_nonuniform_1d] without a unit raises the
    missing-metadata error, yet the group of the variable is in the file
    afterwards and carries the attribute [source]: that attribute is
    written before the loop that validates the metadata.  A first write
    by [add_event_1d] without a unit does the same.  And a sampling
    interval that is not a number is not above zero, yet it passes the
    test [dt <= 0.0]: [add_uniform_data] creates the array and stores the
    interval in its attribute [dt]. *)
Lemma missing_metadata_counterexample :
  let r := add_nonuniform_1d Vm_map_1d (Vm_batch_1d None (Some "ms")) Vm_names
             false oned_writer in
  let e := add_event_1d spikes_map
             (spikes_batch None [("c0", [1%float]); ("c1", [2%float])])
             spike_names false oned_event_writer in
  let u := add_uniform_data cells_map (Vm_batch (Some "mV") (Some "ms") (Some nan))
             0%float false linked_writer in
  (raised r = Some ValueError_unit
   ∧ classify ValueError_unit = Some MissingMetadata
   ∧ fd oned_writer !! ["data"; "nonuniform"; "cells"; "Vm"] = None
   ∧ attrs_at r.1 ["data"; "nonuniform"; "cells"; "Vm"]
     = Some {[ "source" := ARef Vm_map_1d ]})
  ∧ (raised e = Some ValueError_unit
     ∧ fd oned_event_writer !! ["data"; "event"; "cells"; "spikes"] = None
     ∧ attrs_at e.1 ["data"; "event"; "cells"; "spikes"]
       = Some {[ "source" := ARef spikes_map ]})
  ∧ (PrimFloat.ltb 0 nan = false
     ∧ fd linked_writer !! ["data"; "uniform"; "cells"; "Vm"] = None
     ∧ u.2 = Ok ["data"; "uniform"; "cells"; "Vm"]
     ∧ attrs_at u.1 ["data"; "uniform"; "cells"; "Vm"] ≫= (.!! "dt")
       = Some (AFloat (Some nan))).
Proof.
  split; [|split]; vm_compute; repeat split; reflexivity.
Qed.

Lemma missing_metadata_rejected_witness :
  ∃ w' e, append (Add_uniform (Vm_batch None (Some "ms") (Some 0.5%float)) 0%float)
            cells_map false linked_writer
          = (w', Raise e)
          ∧ classify e = Some MissingMetadata
          ∧ only_new_groups (fd linked_writer) (fd w').
Proof.
  eapply (missing_metadata_rejected
            (Add_uniform (Vm_batch None (Some "ms") (Some 0.5%float)) 0%float)
            cells_map false linked_writer _ cells).
  - reflexivity.
  - reflexivity.
  - apply skeleton_linked_writer.
  - intros d H. vm_compute in H. discriminate.
  - vm_compute. reflexivity.
  - vm_compute. reflexivity.
  - intros x. unfold cells. cbn. rewrite !elem_of_cons, !elem_of_nil. tauto.
  - vm_compute. reflexivity.
  - vm_compute. reflexivity.
  - vm_compute. reflexivity.
Defined.

(** ** The appending methods: appends *)

Section Hoare.
Context (Inv : NSDFWriter → Prop) (E : exn → Prop).

Lemma hoare_ret {A} (a : A) (Q : A → Prop) : Q a → hoare Inv (mret a : M A) Q E.
Proof. intros Ha w w' r HI [= <- <-]. done. Qed.

Lemma hoare_raise {A} e (Q : A → Prop) : E e → hoare Inv (raise e : M A) Q E.
Proof. intros He w w' r HI [= <- <-]. done. Qed.

Lemma hoare_bind {A B} (m : M A) (k : A → M B) (Q : A → Prop) (Q' : B → Prop) :
  hoare Inv m Q E → (∀ a, Q a → hoare Inv (k a) Q' E) → hoare Inv (m ≫= k) Q' E.
Proof.
  intros Hm Hk w w' r HI. rewrite bind_eq.
  destruct (m w) as [w1 [a|e]] eqn:Em.
  - intros H. destruct (Hm _ _ _ HI Em) as [HI1 Ha]. exact (Hk a Ha _ _ _ HI1 H).
  - intros [= <- <-]. exact (Hm _ _ _ HI Em).
Qed.

Lemma hoare_lift_option {A} e (o : option A) :
  E e → hoare Inv (lift_option e o) (λ _, True) E.
Proof. intros He. destruct o; [by apply hoare_ret | by apply hoare_raise]. Qed.

Lemma hoare_assert b e : E e → hoare Inv (assert_ b e) (λ _, True) E.
Proof. intros He. destruct b; [by apply hoare_ret | by apply hoare_raise]. Qed.

Lemma hoare_mapM {A B} (f : A → M B) (l : list A) :
  (∀ x, hoare Inv (f x) (λ _, True) E) → hoare Inv (mapM f l) (λ _, True) E.
Proof.
  intros Hf. induction l as [|x l IH]; cbn [mapM]; [by apply hoare_ret|].
  eapply hoare_bind; [apply Hf|]. intros y _.
  eapply hoare_bind; [apply IH|]. intros ys _. by apply hoare_ret.
Qed.

Lemma hoare_for_each {A} (l : list A) (body : A → M unit) :
  (∀ x, hoare Inv (body x) (λ _, True) E) →
  hoare Inv (for_each l body) (λ _, True) E.
Proof.
  intros Hf. induction l as [|x l IH]; cbn [for_each]; [by apply hoare_ret|].
  eapply hoare_bind; [apply Hf | intros _ _; apply IH].
Qed.

Lemma hoare_get_writer : hoare Inv get_writer (λ _, True) E.
Proof. intros w w' r HI [= <- <-]. done. Qed.

Lemma hoare_h5_handle p : E H5_kind → hoare Inv (h5_handle p) (λ _, True) E.
Proof.
  intros He w w' r HI. unfold h5_handle.
  destruct (fd w !! p) as [[]|]; intros [= <- <-]; done.
Qed.

Lemma hoare_h5_getitem p :
  (E KeyError_lookup ∨ ∀ w, Inv w → is_Some (fd w !! p)) →
  hoare Inv (h5_getitem p) (λ _, True) E.
Proof.
  intros He w w' r HI. unfold h5_getitem.
  destruct (fd w !! p) eqn:Ep; intros [= <- <-]; [done|].
  split; [done|]. destruct He as [He|He]; [done|].
  destruct (He w HI) as [n Hn]. congruence.
Qed.

Lemma hoare_put_data p d x :
  payload_stable Inv →
  ∀ w w' (r : result unit), Inv w → fd w !! p = Some (Dataset d) →
    put_dataset p (set_data x d) w = (w', r) →
    Inv w' ∧ match r with Ok _ => True | Raise e => E e end.
Proof. intros Hst w w' r HI Hp [= <- <-]. split; [|done]. by apply Hst. Qed.

Lemma hoare_require_group parent name :
  group_stable Inv → E H5_kind →
  hoare Inv (require_group parent name) (λ p, p = parent ++ [name]) E.
Proof.
  intros Hst Hk w w' r HI. unfold require_group.
  destruct (fd w !! (parent ++ [name])) as [[a|d]|] eqn:Ep; intros [= <- <-]; try done.
  split; [|done]. by apply Hst.
Qed.

Lemma hoare_try {A} (body handler : M A) (Q : A → Prop) :
  hoare Inv body Q (λ e, E e ∨ is_KeyError e = true) →
  hoare Inv handler Q E →
  hoare Inv (try_except_KeyError body handler) Q E.
Proof.
  intros Hb Hh w w' r HI. unfold try_except_KeyError.
  destruct (body w) as [w1 [a|e]] eqn:Eb.
  - intros [= <- <-]. exact (Hb _ _ _ HI Eb).
  - destruct (Hb _ _ _ HI Eb) as [HI1 He]. destruct (is_KeyError e) eqn:Ek.
    + intros H. exact (Hh _ _ _ HI1 H).
    + intros [= <- <-]. split; [done|]. by destruct He.
Qed.

End Hoare.

Lemma hoare_conseq {A} (Inv : NSDFWriter → Prop) (m : M A) (Q Q' : A → Prop)
    (E E' : exn → Prop) :
  (∀ a, Q a → Q' a) → (∀ e, E e → E' e) →
  hoare Inv m Q E → hoare Inv m Q' E'.
Proof.
  intros HQ HE Hm w w' r HI H. destruct (Hm _ _ _ HI H) as [HI' Hr].
  split; [done|]. destruct r; [by apply HQ | by apply HE].
Qed.

(** A body that cannot raise KeyError where [Inv] holds makes the handler
    of its [try] dead code. *)
Lemma try_dead {A} (Inv : NSDFWriter → Prop) (body handler : M A) (Q : A → Prop) w :
  hoare Inv body Q library_error → Inv w →
  try_except_KeyError body handler w = body w.
Proof.
  intros Hb HI. unfold try_except_KeyError.
  destruct (body w) as [w1 [a|e]] eqn:Eb; [done|].
  destruct (Hb _ _ _ HI Eb) as [_ He].
  by destruct He as [->|[->|[->|[->| ->]]]].
Qed.

Lemma hoare_try_dead {A} (Inv : NSDFWriter → Prop) (body handler : M A)
    (Q : A → Prop) :
  hoare Inv body Q library_error →
  hoare Inv (try_except_KeyError body handler) Q library_error.
Proof.
  intros Hb w w' r HI. rewrite (try_dead Inv body handler Q w Hb HI).
  by apply Hb.
Qed.

Lemma bind_ext_hoare {A B} (Inv : NSDFWriter → Prop) (Q : A → Prop)
    (E : exn → Prop) (m : M A) (k k' : A → M B) w :
  hoare Inv m Q E → Inv w →
  (∀ a w', Inv w' → Q a → k a w' = k' a w') →
  (m ≫= k) w = (m ≫= k') w.
Proof.
  intros Hm HI Hk. rewrite !bind_eq.
  destruct (m w) as [w1 [a|e]] eqn:Em; [|done].
  destruct (Hm _ _ _ HI Em) as [HI1 Ha]. by apply Hk.
Qed.

(** The primitives that read or rewrite the data of a dataset. *)
Section Primitives.
Context (Inv : NSDFWriter → Prop) (E : exn → Prop).
Hypothesis stable : payload_stable Inv.
Hypothesis library : ∀ e, library_error e → E e.

Ltac primitive p :=
  let w := fresh "w" in
  let Ep := fresh "Ep" in
  let Heq := fresh "Heq" in
  intros w ? ? ?; rewrite bind_eq;
  unfold lift_option, h5_handle, put_dataset;
  destruct (fd w !! p) as [[?|?]|] eqn:Ep;
  repeat case_match; unfold mret, M_ret, raise;
  intros Heq; simplify_eq; (split; [|try done]);
  first [ done
        | by apply stable
        | apply library; unfold library_error; tauto ].

Lemma hoare_resize_axis1 p size : hoare Inv (resize_axis1 p size) (λ _, True) E.
Proof. unfold resize_axis1. primitive p. Qed.

Lemma hoare_resize_1d p size : hoare Inv (resize_1d p size) (λ _, True) E.
Proof. unfold resize_1d. primitive p. Qed.

Lemma hoare_write_columns p start data :
  hoare Inv (write_columns p start data) (λ _, True) E.
Proof. unfold write_columns. primitive p. Qed.

Lemma hoare_write_tail p start data :
  hoare Inv (write_tail p start data) (λ _, True) E.
Proof. unfold write_tail. primitive p. Qed.

Lemma hoare_write_row_slice p iii s e data :
  hoare Inv (write_row_slice p iii s e data) (λ _, True) E.
Proof. unfold write_row_slice. primitive p. Qed.

Lemma hoare_write_vlen p iii row : hoare Inv (write_vlen p iii row) (λ _, True) E.
Proof. unfold write_vlen. primitive p. Qed.

Lemma hoare_read_row p iii : hoare Inv (read_row p iii) (λ _, True) E.
Proof. unfold read_row. primitive p. Qed.

Lemma hoare_read_vlen p iii : hoare Inv (read_vlen p iii) (λ _, True) E.
Proof. unfold read_vlen. primitive p. Qed.

Lemma hoare_ds_shape1 p : hoare Inv (ds_shape1 p) (λ _, True) E.
Proof. unfold ds_shape1. primitive p. Qed.

Lemma hoare_ds_shape0 p : hoare Inv (ds_shape0 p) (λ _, True) E.
Proof. unfold ds_shape0. primitive p. Qed.

Lemma hoare_iter_ids p : hoare Inv (iter_ids p) (λ _, True) E.
Proof. unfold iter_ids. primitive p. Qed.

Lemma hoare_source_column p : hoare Inv (source_column p) (λ _, True) E.
Proof. unfold source_column. primitive p. Qed.

Lemma hoare_vstack rows : hoare Inv (vstack rows) (λ _, True) E.
Proof.
  unfold vstack. intros w w' r HI. repeat case_match; unfold mret, M_ret, raise;
    intros Heq; simplify_eq; (split; [done|]);
    first [done | apply library; unfold library_error; tauto].
Qed.

Lemma hoare_py_max l : hoare Inv (py_max l) (λ _, True) E.
Proof.
  unfold py_max. intros w w' r HI. repeat case_match; unfold mret, M_ret, raise;
    intros Heq; simplify_eq; (split; [done|]);
    first [done | apply library; unfold library_error; tauto].
Qed.

End Primitives.

Lemma array_present_payload_stable target time a :
  payload_stable (array_present target time a).
Proof.
  intros w p d x Hp [(d0 & Hd0 & Ha) Ht]. split.
  - cbn. destruct (decide (p = target)) as [->|Hne].
    + rewrite lookup_insert_eq. eexists; split; [reflexivity|].
      cbn. congruence.
    + rewrite lookup_insert_ne by done. eauto.
  - intros t Ht'. cbn. destruct (decide (p = t)) as [->|Hne].
    + by rewrite lookup_insert_eq.
    + rewrite lookup_insert_ne by done. eauto.
Qed.

Lemma array_present_group_stable target time a :
  group_stable (array_present target time a).
Proof.
  intros w p Hp [(d0 & Hd0 & Ha) Ht]. split.
  - cbn. rewrite lookup_insert_ne by congruence. eauto.
  - intros t Ht'. cbn. destruct (Ht t Ht') as [n Hn].
    rewrite lookup_insert_ne by congruence. eauto.
Qed.

Lemma array_present_target target time a w :
  array_present target time a w → is_Some (fd w !! target).
Proof. intros [(d & Hd & _) _]. eauto. Qed.

Lemma library_not_metadata e : library_error e → not_metadata e.
Proof. by intros [->|[->|[->|[->| ->]]]]. Qed.

Ltac fix_post :=
  lazymatch goal with
  | |- @hoare ?A _ _ ?Q _ => tryif is_evar Q then unify Q (λ _ : A, True) else idtac
  end.

Ltac exn_ok :=
  first [ done
        | by (unfold not_metadata; cbn; discriminate)
        | by (unfold library_error; tauto)
        | by (left; unfold not_metadata; cbn; discriminate)
        | by (left; unfold library_error; tauto)
        | by (right; reflexivity)
        | by auto using library_not_metadata ].

Ltac hoare_side :=
  first [ solve [eauto using array_present_payload_stable, array_present_group_stable]
        | (intros ? ?; exn_ok)
        | exn_ok ].

Ltac hoare_step :=
  lazymatch goal with
  | |- hoare _ (require_group _ _) _ _ =>
      apply hoare_require_group; hoare_side
  | |- hoare _ (_ ≫= _) _ _ =>
      fix_post; eapply hoare_bind; [| intros ? ?; cbn beta in *; subst]
  | |- hoare _ (mret _) _ _ => fix_post; apply hoare_ret; done
  | |- hoare _ (raise _) _ _ => fix_post; apply hoare_raise; exn_ok
  | |- hoare _ (lift_option _ _) _ _ => apply hoare_lift_option; exn_ok
  | |- hoare _ (assert_ _ _) _ _ => apply hoare_assert; exn_ok
  | |- hoare _ get_writer _ _ => apply hoare_get_writer
  | |- hoare _ (mapM _ _) _ _ => apply hoare_mapM; intros ?
  | |- hoare _ (for_each _ _) _ _ => apply hoare_for_each; intros ?
  | |- hoare _ (data_of _ _) _ _ => apply hoare_lift_option; exn_ok
  | |- hoare _ (h5_handle _) _ _ => apply hoare_h5_handle; exn_ok
  | |- hoare _ (h5_getitem _) _ _ =>
      apply hoare_h5_getitem;
      first [ left; exn_ok
            | right;
              let Hw := fresh "Hw" in
              intros ? Hw;
              first [ exact (array_present_target _ _ _ _ Hw)
                    | by (destruct Hw as [_ Hw]; apply Hw) ] ]
  | |- hoare _ (try_except_KeyError _ _) _ not_metadata =>
      fix_post; eapply hoare_conseq; [done | apply library_not_metadata |];
      apply hoare_try_dead
  | |- hoare _ (iter_ids _) _ _ =>
      apply hoare_iter_ids; hoare_side
  | |- hoare _ (vstack _) _ _ =>
      apply hoare_vstack; hoare_side
  | |- hoare _ (py_max _) _ _ =>
      apply hoare_py_max; hoare_side
  | |- hoare _ (ds_shape1 _) _ _ =>
      apply hoare_ds_shape1; hoare_side
  | |- hoare _ (ds_shape0 _) _ _ =>
      apply hoare_ds_shape0; hoare_side
  | |- hoare _ (resize_axis1 _ _) _ _ =>
      apply hoare_resize_axis1; hoare_side
  | |- hoare _ (write_columns _ _ _) _ _ =>
      apply hoare_write_columns; hoare_side
  | |- hoare _ (write_row_slice _ _ _ _ _) _ _ =>
      apply hoare_write_row_slice; hoare_side
  | |- hoare _ (read_row _ _) _ _ =>
      apply hoare_read_row; hoare_side
  | |- hoare _ (read_vlen _ _) _ _ =>
      apply hoare_read_vlen; hoare_side
  | |- hoare _ (write_vlen _ _ _) _ _ =>
      apply hoare_write_vlen; hoare_side
  | |- hoare _ (if ?b then _ else _) _ _ => fix_post; destruct b
  | |- hoare _ (let _ := _ in _) _ _ => cbn zeta
  end.


(** An append by a 2-D method, where the Stored Array is in the file,
    leaves its attributes as they were and raises no metadata error. *)
Lemma append_keeps_array c source_ds fixed a :
  is_1d c = false →
  hoare (array_present (call_target c source_ds) (call_time c source_ds) a)
    (append c source_ds fixed) (λ _, True) not_metadata.
Proof.
  intros H1d. unfold call_target, call_group, call_popname, call_time.
  destruct c as [d tstart|d|d|d names|d names|d|d|d|d]; try discriminate H1d;
    cbn [append call_namespace call_name is_1d]; unfold discard.
  - unfold add_uniform_data. repeat hoare_step.
  - unfold add_nonuniform_regular. repeat hoare_step.
  - unfold add_static_data. repeat hoare_step.
  - unfold add_nonuniform_vlen. repeat hoare_step.
  - unfold add_event_vlen. repeat hoare_step.
  - unfold add_nonuniform_nan. repeat hoare_step.
  - unfold add_event_nan. repeat hoare_step.
Qed.

Ltac ext_step Inv :=
  eapply (bind_ext_hoare Inv _ not_metadata);
  [ repeat hoare_step | eassumption | intros ? ? ? ?; cbn beta in *; subst ].

Ltac same_branch :=
  lazymatch goal with
  | |- (if ?b then _ else _) _ = _ => destruct b; [reflexivity|]
  end.

Ltac dead_handlers Inv :=
  rewrite ?bind_eq;
  erewrite !(try_dead Inv);
  [ reflexivity | repeat hoare_step | eassumption | repeat hoare_step | eassumption ].

Lemma discard_ext {A} (m m' : M A) w : m w = m' w → discard m w = discard m' w.
Proof. intros H. unfold discard. by rewrite !bind_eq, H. Qed.

(** Where the Stored Array is in the file, an append by a 2-D method does
    not depend on the unit, the time unit and the sampling interval of
    the batch. *)
Lemma append_with_metadata c source_ds fixed a unit tunit dt w :
  is_1d c = false →
  array_present (call_target c source_ds) (call_time c source_ds) a w →
  append (call_with_metadata c unit tunit dt) source_ds fixed w
  = append c source_ds fixed w.
Proof.
  intros H1d. unfold call_target, call_group, call_popname, call_time.
  destruct c as [d tstart|d|d|d names|d names|d|d|d|d]; try discriminate H1d;
    cbn [append call_with_metadata call_namespace call_name is_1d];
    set (Inv := array_present _ _ _); intros HI; apply discard_ext.
  - unfold add_uniform_data.
    cbn [with_metadata d_name d_unit d_field d_tunit d_dt get_sources get_data get_times].
    ext_step Inv. ext_step Inv. ext_step Inv. same_branch.
    ext_step Inv. ext_step Inv. dead_handlers Inv.
  - unfold add_nonuniform_regular.
    cbn [with_metadata d_name d_unit d_field d_tunit d_dt get_sources get_data get_times].
    ext_step Inv. ext_step Inv. ext_step Inv. same_branch.
    ext_step Inv. ext_step Inv. same_branch. dead_handlers Inv.
  - unfold add_static_data.
    cbn [with_metadata d_name d_unit d_field d_tunit d_dt get_sources get_data get_times].
    ext_step Inv. ext_step Inv. ext_step Inv. same_branch.
    ext_step Inv. ext_step Inv. dead_handlers Inv.
  - unfold add_nonuniform_vlen.
    cbn [with_metadata d_name d_unit d_field d_tunit d_dt get_sources get_data get_times].
    ext_step Inv. same_branch.
    ext_step Inv. ext_step Inv. ext_step Inv. same_branch.
    cbn zeta. dead_handlers Inv.
  - unfold add_event_vlen.
    cbn [with_metadata d_name d_unit d_field d_tunit d_dt get_sources get_data get_times].
    ext_step Inv. same_branch.
    ext_step Inv. ext_step Inv. ext_step Inv. same_branch.
    dead_handlers Inv.
  - unfold add_nonuniform_nan.
    cbn [with_metadata d_name d_unit d_field d_tunit d_dt get_sources get_data get_times].
    ext_step Inv. ext_step Inv.
    ext_step Inv. ext_step Inv. ext_step Inv. same_branch.
    cbn zeta. ext_step Inv. dead_handlers Inv.
  - unfold add_event_nan.
    cbn [with_metadata d_name d_unit d_field d_tunit d_dt get_sources get_data get_times].
    ext_step Inv. ext_step Inv.
    ext_step Inv. ext_step Inv. ext_step Inv. same_branch.
    ext_step Inv. dead_handlers Inv.
Qed.

(** ** Appending columns *)

Lemma set_data_set_data x y d : set_data x (set_data y d) = set_data x d.
Proof. reflexivity. Qed.

Lemma set_fd_set_fd f g w : set_fd f (set_fd g w) = set_fd (f ∘ g) w.
Proof. reflexivity. Qed.

Lemma resize_row_grow fill n (r : list float) k :
  length r = n → resize_row fill (n + k) r = r ++ replicate k fill.
Proof.
  intros <-. unfold resize_row. rewrite take_ge by lia. f_equal. f_equal. lia.
Qed.

Lemma stackable_rectangular rows :
  stackable rows = true → rectangular (shape1 rows) rows.
Proof.
  unfold stackable, rectangular, shape1. destruct rows as [|r rs]; [discriminate|].
  intros H. constructor; [done|].
  apply Forall_forall. intros x Hx.
  rewrite forallb_forall in H. apply Nat.eqb_eq, H. by apply list_elem_of_In.
Qed.

Lemma write_columns_check (rows data : list (list float)) old new fill :
  rectangular old rows → rectangular new data → length rows = length data →
  forallb (λ rx : list float * list float, length rx.1 =? old + length rx.2)
    (zip (resize_row fill (old + new) <$> rows) data) = true.
Proof.
  intros Hr Hd. revert data Hd. induction Hr as [|r rows Hlen _ IH];
    intros [|x data] Hd Hl; try discriminate; [done|].
  apply Forall_cons in Hd as [Hx Hd]. cbn.
  rewrite (resize_row_grow _ _ _ _ Hlen), length_app, length_replicate, Hlen, Hx.
  rewrite Nat.eqb_refl. cbn. apply IH; [done|]. by injection Hl.
Qed.

Lemma write_columns_result (rows data : list (list float)) old new fill :
  rectangular old rows → length rows = length data →
  zip_with (λ r x, take old r ++ x) (resize_row fill (old + new) <$> rows) data
  = zip_with app rows data.
Proof.
  intros Hr. revert data. induction Hr as [|r rows Hlen _ IH];
    intros [|x data] Hl; try discriminate; [done|].
  cbn. rewrite (resize_row_grow _ _ _ _ Hlen), take_app_length' by done.
  f_equal. apply IH. by injection Hl.
Qed.

(** The append path shared by [add_uniform_data], [add_nonuniform_regular]
    and [add_static_data]: the new columns follow the old ones in every
    row, and nothing else in the file is written. *)
Lemma append_columns_ok w p d rows data lim0 lim :
  fd w !! p = Some (Dataset d) →
  ds_data d = Array2 rows →
  ds_maxshape d = Some [lim0; lim] →
  within (shape1 rows + shape1 data) lim = true →
  rectangular (shape1 rows) rows → rectangular (shape1 data) data →
  length rows = length data →
  (_ ← h5_getitem p;
   oldcolcount ← ds_shape1 p;
   resize_axis1 p (oldcolcount + shape1 data);;
   write_columns p oldcolcount data;;
   mret p) w
  = (set_fd <[p := Dataset (set_data (Array2 (zip_with app rows data)) d)]> w, Ok p).
Proof.
  intros Hp Hd Hmax Hlim Hr Hdt Hlen.
  rewrite bind_eq, (h5_getitem_some _ _ _ Hp).
  rewrite bind_eq. unfold ds_shape1 at 1.
  rewrite bind_eq, (h5_handle_some _ _ _ Hp), Hd. cbn [mret M_ret].
  rewrite bind_eq. unfold resize_axis1.
  rewrite bind_eq, (h5_handle_some _ _ _ Hp), Hd, Hmax, Hlim.
  unfold put_dataset at 1.
  set (w1 := set_fd _ w).
  assert (Hp1 : fd w1 !! p = Some (Dataset (set_data
             (Array2 (resize_row (ds_fill d) (shape1 rows + shape1 data) <$> rows)) d))).
  { unfold w1. cbn. by rewrite lookup_insert_eq. }
  rewrite bind_eq. unfold write_columns.
  rewrite bind_eq, (h5_handle_some _ _ _ Hp1). cbn [ds_data set_data].
  rewrite length_fmap, Hlen, Nat.eqb_refl.
  rewrite write_columns_check by done. cbn [andb].
  rewrite write_columns_result by done.
  unfold put_dataset, w1. rewrite set_data_set_data, set_fd_set_fd.
  cbn [mret M_ret]. f_equal. unfold set_fd. f_equal. cbn.
  by rewrite insert_insert_eq.
Qed.

Lemma try_ok {A} (body handler : M A) w w' a :
  body w = (w', Ok a) → try_except_KeyError body handler w = (w', Ok a).
Proof. intros H. unfold try_except_KeyError. by rewrite H. Qed.

Lemma flat_enter_group ns source_ds srcs w ds ids :
  is_group_at (fd w) (data_grp ++ [ns]) →
  is_group_at (fd w) (data_grp ++ [ns] ++ [rpartition_last source_ds]) →
  fd w !! source_ds = Some (Dataset ds) → ds_data ds = Ids ids →
  (∀ x, x ∈ ids ↔ x ∈ srcs) →
  ∀ A (k : path → list string → M A),
    (_ ← h5_getitem (data_grp ++ [ns]);
     ngrp ← require_group (data_grp ++ [ns]) (rpartition_last source_ds);
     ids ← iter_ids source_ds;
     if negb (match_datasets ids srcs) then raise KeyError_sources
     else k ngrp ids) w
    = k (data_grp ++ [ns] ++ [rpartition_last source_ds]) ids w.
Proof.
  intros [a Hg] Hpop Hs Hd Hm A k.
  rewrite bind_eq, (h5_getitem_some _ _ _ Hg).
  rewrite bind_eq, require_group_found by (by rewrite <- (assoc_L (++))).
  rewrite bind_eq, (iter_ids_ok w source_ds ds ids) by done.
  rewrite (proj2 (match_datasets_true _ _) Hm). cbn [negb].
  by rewrite <- (assoc_L (++)).
Qed.

(** An append of columns by one of the three rectangular methods: the
    call succeeds, the batch's columns follow the stored ones in every
    row, and the dataset of the array is the only object written. *)
Lemma columns_append_ok c source_ds fixed w ds ids dd rows data lim0 lim :
  is_columns c = true →
  skeleton (fd w) →
  is_group_at (fd w) (call_group c source_ds) →
  fd w !! source_ds = Some (Dataset ds) → ds_data ds = Ids ids →
  (∀ x, x ∈ ids ↔ x ∈ call_sources c) →
  call_matrix c ids = Some data →
  batch_assembles c ids = true →
  fd w !! call_target c source_ds = Some (Dataset dd) →
  ds_data dd = Array2 rows →
  ds_maxshape dd = Some [lim0; lim] →
  within (shape1 rows + shape1 data) lim = true →
  rectangular (shape1 rows) rows →
  length rows = length data →
  append c source_ds fixed w
  = (set_fd <[call_target c source_ds
              := Dataset (set_data (Array2 (zip_with app rows data)) dd)]> w,
     Ok tt).
Proof.
  intros Hcol Hsk Hpop Hs Hd Hm Hmat Hasm Ht Hdd Hmax Hlim Hrect Hlen.
  pose proof (skeleton_data _ _ Hsk (call_namespace_sampling c)) as Hns.
  unfold call_target, call_group, call_popname in *.
  assert (H1d : is_1d c = false) by (by destruct c).
  rewrite H1d in *.
  pose proof (flat_enter_group (call_namespace c) source_ds (call_sources c)
                w ds ids Hns Hpop Hs Hd Hm) as Henter.
  destruct c as [d tstart|d|d|d names|d names|d|d|d|d]; try discriminate Hcol;
    cbn [append call_sources call_namespace call_name call_matrix batch_assembles] in *;
    rewrite Hmat in Hasm.
  - eapply discard_ok. unfold add_uniform_data. rewrite Henter.
    rewrite bind_eq, (mapM_data_of_ok _ _ _ _ Hmat).
    rewrite bind_eq, (vstack_ok _ _ Hasm).
    apply try_ok. eapply append_columns_ok; eauto using stackable_rectangular.
  - apply andb_true_iff in Hasm as [Hst Htimes].
    eapply discard_ok. unfold add_nonuniform_regular. rewrite Henter.
    rewrite bind_eq, (mapM_data_of_ok _ _ _ _ Hmat).
    rewrite bind_eq, (vstack_ok _ _ Hst). rewrite Htimes. cbn [negb].
    apply try_ok. eapply append_columns_ok; eauto using stackable_rectangular.
  - eapply discard_ok. unfold add_static_data. rewrite Henter.
    rewrite bind_eq, (mapM_data_of_ok _ _ _ _ Hmat).
    rewrite bind_eq, (vstack_ok _ _ Hasm).
    apply try_ok. eapply append_columns_ok; eauto using stackable_rectangular.
Qed.

(** ** The shared time axis of the regular nonuniform dialect *)

(** X3. [add_nonuniform_regular] refuses a batch whose time vector is
    not as long as its rows are, with the shape error, before anything
    but the group of the population is written. *)
Lemma regular_rejects_time_mismatch source_ds d fixed w ds ids data :
  skeleton (fd w) →
  not_dataset_at (fd w) (data_grp ++ [NONUNIFORM; rpartition_last source_ds]) →
  fd w !! source_ds = Some (Dataset ds) → ds_data ds = Ids ids →
  (∀ x, x ∈ ids ↔ x ∈ get_sources d) →
  rows_of d ids = Some data → stackable data = true →
  shape1 data ≠ length (get_times d) →
  ∃ w', add_nonuniform_regular source_ds d fixed w = (w', Raise ValueError_times)
        ∧ classify ValueError_times = Some ShapeMismatch
        ∧ only_new_groups (fd w) (fd w').
Proof.
  intros Hsk Hnd Hs Hd Hm Hrows Hst Hne.
  destruct sampling_types_elem as (_ & Hn & _).
  destruct (flat_enter NONUNIFORM source_ds (get_sources d) w ds ids)
    as (w1 & Hd1 & Hpop1 & Hfd1 & Henter); auto using skeleton_data.
  exists w1. split; [|split; [reflexivity | by eapply only_new_groups_after_group]].
  unfold add_nonuniform_regular. rewrite Henter.
  rewrite bind_eq, (mapM_data_of_ok _ _ _ _ Hrows).
  rewrite bind_eq, (vstack_ok _ _ Hst).
  apply Nat.eqb_neq in Hne. by rewrite Hne.
Qed.

(** On the append path the columns of the batch are added to the data and
    the time dataset is not written: its length stays what it was. *)
Lemma regular_append_keeps_time source_ds d fixed w ds ids dd rows data lim0 lim :
  let c := Add_nonuniform_regular d in
  let time := time_dim ++ [format2 (rpartition_last source_ds) (d_name d)] in
  skeleton (fd w) →
  is_group_at (fd w) (call_group c source_ds) →
  fd w !! source_ds = Some (Dataset ds) → ds_data ds = Ids ids →
  (∀ x, x ∈ ids ↔ x ∈ get_sources d) →
  rows_of d ids = Some data →
  batch_assembles c ids = true →
  fd w !! call_target c source_ds = Some (Dataset dd) →
  ds_data dd = Array2 rows →
  ds_maxshape dd = Some [lim0; lim] →
  within (shape1 rows + shape1 data) lim = true →
  rectangular (shape1 rows) rows →
  length rows = length data →
  ∃ w', append c source_ds fixed w = (w', Ok tt)
        ∧ data_at w' (call_target c source_ds) = Some (Array2 (zip_with app rows data))
        ∧ data_at w' time = data_at w time.
Proof.
  intros c time Hsk Hpop Hs Hd Hm Hrows Hasm Ht Hdd Hmax Hlim Hrect Hlen.
  eexists. split.
  - eapply (columns_append_ok c); eauto.
  - unfold data_at. cbn [fd set_fd]. split.
    + by rewrite lookup_insert_eq.
    + rewrite lookup_insert_ne; [done|]. unfold time. cbn. congruence.
Qed.

(** C3. Evaluation at the failing input: the three cells are recorded at
    the times 0 and 1, then at the time 2. Both calls succeed; after the
    second the data has three columns and the shared time dataset still
    holds the two times of the first call. *)
Theorem regular_append_leaves_time_axis :
  let target := ["data"; "nonuniform"; "cells"; "Im"] in
  let time := ["map"; "time"; "cells_Im"] in
  let created := add_nonuniform_regular nonuniform_map Im_first false regular_writer in
  let appended := add_nonuniform_regular nonuniform_map Im_second false created.1 in
  created.2 = Ok target
  ∧ data_at created.1 target
    = Some (Array2 [[1; 2]; [3; 4]; [5; 6]]%float)
  ∧ data_at created.1 time = Some (Array1 [0; 1]%float)
  ∧ appended.2 = Ok target
  ∧ data_at appended.1 target
    = Some (Array2 [[1; 2; 7]; [3; 4; 8]; [5; 6; 9]]%float)
  ∧ data_at appended.1 time = Some (Array1 [0; 1]%float).
Proof. vm_compute. repeat split; reflexivity. Qed.

(** ** The ragged dialect *)





Lemma append_chunks_length i rows chunks :
  length (append_chunks i rows chunks) = length rows.
Proof.
  revert i rows. induction chunks as [|c cs IH]; intros i rows; [done|].
  cbn. by rewrite IH, length_alter.
Qed.

Lemma set_fd_id f w : f (fd w) = fd w → set_fd f w = w.
Proof. intros H. unfold set_fd. rewrite H. by destruct w. Qed.

Lemma set_data_id x d : ds_data d = x → set_data x d = d.
Proof. intros <-. by destruct d. Qed.

































(** Times that single precision does not hold are stored rounded: one
    tenth reads back as the nearest single-precision value, a time below
    the smallest of them as zero, and one above the largest as infinity.
    The samples are stored as they are. *)
Lemma time_rows_single_precision :
  let tenth := 0x1.999999999999ap-4%float in
  let tiny := 0x1p-160%float in
  let huge := 0x1p+200%float in
  let d := batch "Vm" (Some "mV") (Some "ms") None []
             [("c0", ([tenth; tiny; huge], [tenth; tiny; huge]));
              ("c1", ([], [])); ("c2", ([], []))] in
  let w' := (add_nonuniform_vlen nonuniform_map d false vlen_writer).1 in
  (read_vlen ["data"; "nonuniform"; "cells"; "Vm"] 0 w').2 = Ok [tenth; tiny; huge]
  ∧ (read_vlen ["map"; "time"; "cells_Vm"] 0 w').2
    = Ok [0x1.99999ap-4; 0; infinity]%float.
Proof. vm_compute. split; reflexivity. Qed.

(** ** The padded dialect *)

Lemma py_max_ok (l : list nat) w : l ≠ [] → py_max l w = (w, Ok (max_list l)).
Proof.
  destruct l as [|x l]; [done|]. intros _. unfold py_max, mret, M_ret. do 2 f_equal.
  induction l as [|y l IH]; cbn; [lia|]. cbn in IH. lia.
Qed.

Lemma length_resize_row fill n (r : list float) : length (resize_row fill n r) = n.
Proof. unfold resize_row. rewrite length_app, length_take, length_replicate. lia. Qed.

Lemma find_isnan_bound (r : list float) n : find_isnan r = Some n → n < length r.
Proof.
  revert n. induction r as [|x r IH]; intros n; cbn; [done|].
  destruct (PrimFloat.is_nan x).
  - intros [= <-]. lia.
  - destruct (find_isnan r) as [m|]; cbn; [|done]. intros [= <-].
    specialize (IH m eq_refl). lia.
Qed.

Lemma row_start_le (r : list float) : row_start r ≤ length r.
Proof.
  unfold row_start. destruct (find_isnan r) as [n|] eqn:E; cbn; [|lia].
  apply find_isnan_bound in E. lia.
Qed.

Lemma length_write_slices starts batch : ∀ i rows,
  length (write_slices i starts rows batch) = length rows.
Proof.
  induction batch as [|x xs IH]; intros i rows; [done|].
  cbn. by rewrite IH, length_alter.
Qed.

Lemma write_slices_lookup_lt starts batch : ∀ i rows k,
  k < i → write_slices i starts rows batch !! k = rows !! k.
Proof.
  induction batch as [|x xs IH]; intros i rows k Hk; [done|].
  cbn. rewrite IH by lia. apply list_lookup_alter_ne. lia.
Qed.

Lemma write_slices_lookup starts batch : ∀ i rows j x r,
  batch !! j = Some x → rows !! (i + j) = Some r →
  write_slices i starts rows batch !! (i + j)
  = Some (let s := default 0 (starts !! (i + j)) in
          take s r ++ x ++ drop (s + length x) r).
Proof.
  induction batch as [|y ys IH]; intros i rows j x r Hx Hr; [done|].
  destruct j as [|j]; cbn in Hx.
  - injection Hx as ->. rewrite Nat.add_0_r in *. cbn [write_slices].
    rewrite write_slices_lookup_lt by lia.
    by rewrite list_lookup_alter_eq, Hr.
  - cbn [write_slices]. replace (i + S j) with (S i + j) in * by lia.
    apply IH; [done|]. rewrite list_lookup_alter_ne by lia. done.
Qed.

Lemma insert_alter_lookup {A} (f : A → A) (l : list A) i x :
  l !! i = Some x → <[i := f x]> l = alter f i l.
Proof.
  intros H. apply list_eq. intros j. destruct (decide (j = i)) as [->|Hne].
  - rewrite list_lookup_insert_eq by (by eapply lookup_lt_Some).
    by rewrite list_lookup_alter_eq, H.
  - rewrite list_lookup_insert_ne by done. by rewrite list_lookup_alter_ne.
Qed.

(** The row loop of [add_event_nan]. *)
Lemma event_nan_loop p (starts ends : list nat) batch : ∀ i w dd rows,
  fd w !! p = Some (Dataset dd) → ds_data dd = Array2 rows →
  (∀ j x, batch !! j = Some x →
     ∃ s r, starts !! (i + j) = Some s ∧ ends !! (i + j) = Some (s + length x)
            ∧ rows !! (i + j) = Some r ∧ s + length x ≤ length r) →
  for_each (enumerate_from i batch) (λ ix,
    s ← lift_option IndexError (starts !! ix.1);
    e ← lift_option IndexError (ends !! ix.1);
    write_row_slice p ix.1 s e ix.2) w
  = (set_fd <[p := Dataset (set_data (Array2 (write_slices i starts rows batch)) dd)]> w,
     Ok tt).
Proof.
  induction batch as [|x xs IH]; intros i w dd rows Hp Hd Hall.
  - cbn. rewrite set_fd_id; [done|].
    rewrite (set_data_id _ _ Hd). by apply insert_id.
  - destruct (Hall 0 x eq_refl) as (s & r & Hs & He & Hr & Hle).
    rewrite Nat.add_0_r in Hs, He, Hr.
    cbn [enumerate_from for_each write_slices fst snd].
    rewrite bind_eq.
    rewrite bind_eq, Hs. cbn [lift_option mret M_ret].
    rewrite bind_eq, He. cbn [lift_option mret M_ret].
    unfold write_row_slice. rewrite bind_eq, (h5_handle_some _ _ _ Hp), Hd, Hr.
    assert ((length x =? (s + length x) `min` length r - s) = true) as ->
      by (apply Nat.eqb_eq; lia).
    unfold put_dataset. cbn [default].
    erewrite IH; [| cbn; apply lookup_insert_eq | reflexivity |].
    + rewrite set_data_set_data, set_fd_set_fd. f_equal.
      unfold set_fd. f_equal. cbn. rewrite insert_insert_eq.
      by rewrite <- (insert_alter_lookup _ rows i r Hr).
    + intros j y Hy. destruct (Hall (S j) y Hy) as (s' & r' & Hs' & He' & Hr' & Hle').
      replace (i + S j) with (S i + j) in * by lia.
      exists s', r'. repeat split; try done.
      rewrite list_lookup_insert_ne by lia. done.
Qed.

(** [starts] as the first loop of [add_event_nan] finds them. *)
Lemma event_nan_starts p n w dd rows :
  fd w !! p = Some (Dataset dd) → ds_data dd = Array2 rows →
  ∀ k i, i + k ≤ length rows → i + k ≤ n →
  mapM (λ iii, row ← read_row p iii;
               assert_ (iii <? n) IndexError;;
               mret (row_start row)) (seq i k) w
  = (w, Ok (row_start <$> take k (drop i rows))).
Proof.
  intros Hp Hd. induction k as [|k IH]; intros i Hlen Hn.
  - cbn. by rewrite take_0.
  - destruct (lookup_lt_is_Some_2 rows i) as [r Hr]; [lia|].
    cbn [seq mapM]. rewrite bind_eq. unfold read_row at 1.
    rewrite bind_eq, bind_eq, (h5_handle_some _ _ _ Hp), Hd, Hr.
    cbn [lift_option mret M_ret].
    rewrite bind_eq, assert_true by (apply Nat.ltb_lt; lia).
    cbn [mret M_ret].
    rewrite bind_eq, IH by lia. cbn [mret M_ret].
    do 2 f_equal. rewrite (drop_S _ _ _ Hr). reflexivity.
Qed.

Lemma nan_dialect_ok w e : dialect w = NANPADDED →
  assert_ (bool_decide (dialect w = NANPADDED)) e w = (w, Ok tt).
Proof. intros H. apply assert_true. by apply bool_decide_eq_true. Qed.

Lemma width_after_ends (rows batch : list (list float)) :
  zip_with Nat.add (row_start <$> rows) (length <$> batch)
  = zip_with (λ r x, row_start r + length x) rows batch.
Proof. by rewrite zip_with_fmap_l, zip_with_fmap_r. Qed.

Lemma width_after_bound (rows batch : list (list float)) j r x :
  rows !! j = Some r → batch !! j = Some x →
  row_start r + length x ≤ width_after rows batch.
Proof.
  intros Hr Hx. apply max_list_elem_of_le, (list_elem_of_lookup_2 _ j).
  by rewrite lookup_zip_with, Hr, Hx.
Qed.

(** The slices an append writes fit the rows of the resized dataset. *)
Lemma slices_fit fill (rows batch : list (list float)) :
  let width := width_after rows batch in
  ∀ j x, batch !! j = Some x → j < length rows →
    ∃ s r, (row_start <$> rows) !! (0 + j) = Some s
           ∧ zip_with Nat.add (row_start <$> rows) (length <$> batch) !! (0 + j)
             = Some (s + length x)
           ∧ (resize_row fill width <$> rows) !! (0 + j) = Some r
           ∧ s + length x ≤ length r.
Proof.
  intros width j x Hx Hj.
  destruct (lookup_lt_is_Some_2 rows j Hj) as [r Hr].
  exists (row_start r), (resize_row fill width r). cbn [Nat.add].
  rewrite !list_lookup_fmap, Hr. repeat split.
  - by rewrite width_after_ends, lookup_zip_with, Hr, Hx.
  - rewrite length_resize_row. by eapply width_after_bound.
Qed.

(** An append of [add_event_nan] to the array in the file: the dataset is
    resized to [max(ends)] and every row takes the samples of its source
    from its start offset on. *)
Lemma event_nan_append source_ds (d : NSDFData (list float)) fixed ids dd rows batch
    lim0 lim w :
  let target := data_grp ++ [EVENT; rpartition_last source_ds] ++ [d_name d] in
  let width := width_after rows batch in
  padded_ready EVENT source_ds target ids dd rows w →
  ds_maxshape dd = Some [lim0; lim] →
  ids ≠ [] →
  (∀ x, x ∈ ids ↔ x ∈ get_sources d) →
  rows_of d ids = Some batch →
  within width lim = true →
  add_event_nan source_ds d fixed w
  = (set_fd <[target := Dataset (set_data
               (Array2 (write_slices 0 (row_start <$> rows)
                          (resize_row (ds_fill dd) width <$> rows) batch)) dd)]> w,
     Ok target).
Proof.
  intros target width (Hdia & Hns & Hpop & (ds & Hs & Hds) & Ht & Hdd & Hlen)
    Hmax Hne Hm Hrows Hlim.
  assert (Hbatch : length batch = length ids).
  { apply mapM_Some in Hrows. symmetry. by eapply Forall2_length. }
  unfold add_event_nan. rewrite bind_eq. cbn [get_writer].
  rewrite bind_eq, (nan_dialect_ok _ _ Hdia).
  rewrite (flat_enter_group EVENT source_ds (get_sources d) w ds ids) by done.
  change ((data_grp ++ [EVENT] ++ [rpartition_last source_ds]) ++ [d_name d])
    with target.
  rewrite bind_eq, (mapM_data_of_ok _ _ _ _ Hrows). cbn zeta.
  rewrite bind_eq. unfold try_except_KeyError.
  rewrite bind_eq, (h5_getitem_some _ _ _ Ht).
  rewrite bind_eq. unfold ds_shape0 at 1.
  rewrite bind_eq, (h5_handle_some _ _ _ Ht), Hdd. cbn [mret M_ret].
  rewrite bind_eq, (event_nan_starts target (length ids) w dd rows Ht Hdd) by lia.
  rewrite drop_0, firstn_all, Hlen, Nat.sub_diag. cbn [replicate].
  rewrite app_nil_r, width_after_ends.
  rewrite bind_eq, py_max_ok.
  2:{ destruct rows, batch, ids; cbn in *; congruence. }
  fold (width_after rows batch). fold width.
  rewrite bind_eq. unfold resize_axis1.
  rewrite bind_eq, (h5_handle_some _ _ _ Ht), Hdd, Hmax, Hlim.
  unfold put_dataset. cbn [mret M_ret fst snd].
  unfold enumerate. rewrite bind_eq. rewrite <- width_after_ends.
  erewrite event_nan_loop;
    [| cbn; apply lookup_insert_eq | reflexivity
     | intros j x Hx; apply slices_fit; [done|];
       apply lookup_lt_Some in Hx; lia ].
  cbn [mret M_ret]. rewrite set_data_set_data, set_fd_set_fd. f_equal.
  unfold set_fd. f_equal. cbn. by rewrite insert_insert_eq.
Qed.

(** The row loop of [add_nonuniform_nan]: samples and times, written at
    the same offsets. *)
Lemma nonuniform_nan_loop p q (starts ends : list nat)
    (batch : list (list float * list float)) :
  p ≠ q → ∀ i w dd dt rows trows,
  fd w !! p = Some (Dataset dd) → ds_data dd = Array2 rows →
  fd w !! q = Some (Dataset dt) → ds_data dt = Array2 trows →
  (∀ j x, batch !! j = Some x →
     ∃ s r tr, starts !! (i + j) = Some s ∧ ends !! (i + j) = Some (s + length x.1)
               ∧ rows !! (i + j) = Some r ∧ trows !! (i + j) = Some tr
               ∧ s + length x.1 ≤ length r ∧ s + length x.1 ≤ length tr
               ∧ length x.2 = length x.1) →
  for_each (enumerate_from i batch) (λ ix,
    s ← lift_option IndexError (starts !! ix.1);
    e ← lift_option IndexError (ends !! ix.1);
    write_row_slice p ix.1 s e ix.2.1;;
    write_row_slice q ix.1 s e ix.2.2) w
  = (set_fd (λ f,
       <[q := Dataset (set_data (Array2 (write_slices i starts trows (batch.*2))) dt)]>
         (<[p := Dataset (set_data (Array2 (write_slices i starts rows (batch.*1))) dd)]>
            f)) w,
     Ok tt).
Proof.
  intros Hpq.
  induction batch as [|x xs IH]; intros i w dd dt rows trows Hp Hd Hq Hdt Hall.
  - cbn. rewrite set_fd_id; [done|].
    rewrite (set_data_id _ _ Hd), (set_data_id _ _ Hdt).
    rewrite (insert_id _ p) by done. by apply insert_id.
  - destruct (Hall 0 x eq_refl) as (s & r & tr & Hs & He & Hr & Htr & Hle & Htle & Hx).
    rewrite Nat.add_0_r in Hs, He, Hr, Htr.
    cbn [enumerate_from for_each write_slices fst snd fmap list_fmap].
    rewrite bind_eq.
    rewrite bind_eq, Hs. cbn [lift_option mret M_ret].
    rewrite bind_eq, He. cbn [lift_option mret M_ret].
    rewrite bind_eq. unfold write_row_slice at 1.
    rewrite bind_eq, (h5_handle_some _ _ _ Hp), Hd, Hr.
    assert ((length x.1 =? (s + length x.1) `min` length r - s) = true) as ->
      by (apply Nat.eqb_eq; lia).
    unfold put_dataset at 1.
    set (w1 := set_fd _ w).
    assert (Hq1 : fd w1 !! q = Some (Dataset dt)).
    { unfold w1. cbn. by rewrite lookup_insert_ne. }
    unfold write_row_slice at 1.
    rewrite bind_eq, (h5_handle_some _ _ _ Hq1), Hdt, Htr.
    assert ((length x.2 =? (s + length x.1) `min` length tr - s) = true) as ->
      by (apply Nat.eqb_eq; lia).
    unfold put_dataset at 1. cbn [default].
    erewrite IH;
      [| unfold w1; cbn; rewrite lookup_insert_ne by done; apply lookup_insert_eq
       | reflexivity
       | cbn; apply lookup_insert_eq
       | reflexivity
       | ].
    + rewrite !set_data_set_data. unfold w1. rewrite !set_fd_set_fd. f_equal.
      unfold set_fd. f_equal. cbn.
      rewrite <- (insert_alter_lookup _ rows i r Hr).
      rewrite <- (insert_alter_lookup _ trows i tr Htr).
      rewrite Hx.
      apply map_eq. intros k.
      destruct (decide (k = q)) as [->|Hkq]; [by rewrite !lookup_insert_eq|].
      rewrite !(lookup_insert_ne _ q) by done.
      destruct (decide (k = p)) as [->|Hkp]; [by rewrite !lookup_insert_eq|].
      by rewrite !lookup_insert_ne.
    + intros j y Hy.
      destruct (Hall (S j) y Hy) as (s' & r' & tr' & Hs' & He' & Hr' & Htr' & H').
      replace (i + S j) with (S i + j) in * by lia.
      exists s', r', tr'. repeat split; try done; try tauto.
      * rewrite list_lookup_insert_ne by lia. done.
      * rewrite list_lookup_insert_ne by lia. done.
Qed.

(** [starts] as the first loop of [add_nonuniform_nan] finds them. *)
Lemma nonuniform_nan_starts p w dd rows :
  fd w !! p = Some (Dataset dd) → ds_data dd = Array2 rows →
  ∀ k i, i + k ≤ length rows →
  mapM (λ iii, row ← read_row p iii; mret (row_start row)) (seq i k) w
  = (w, Ok (row_start <$> take k (drop i rows))).
Proof.
  intros Hp Hd. induction k as [|k IH]; intros i Hlen.
  - cbn. by rewrite take_0.
  - destruct (lookup_lt_is_Some_2 rows i) as [r Hr]; [lia|].
    cbn [seq mapM]. rewrite bind_eq. unfold read_row at 1.
    rewrite bind_eq, bind_eq, (h5_handle_some _ _ _ Hp), Hd, Hr.
    cbn [lift_option mret M_ret].
    rewrite bind_eq, IH by lia. cbn [mret M_ret].
    do 2 f_equal. rewrite (drop_S _ _ _ Hr). reflexivity.
Qed.

Lemma slices_fit2 fill tfill (rows trows : list (list float))
    (batch : list (list float * list float)) :
  let width := width_after rows (batch.*1) in
  Forall (λ x, length x.2 = length x.1) batch →
  ∀ j x, batch !! j = Some x → j < length rows → j < length trows →
    ∃ s r tr, (row_start <$> rows) !! (0 + j) = Some s
           ∧ zip_with Nat.add (row_start <$> rows) (length <$> batch.*1) !! (0 + j)
             = Some (s + length x.1)
           ∧ (resize_row fill width <$> rows) !! (0 + j) = Some r
           ∧ (resize_row tfill width <$> trows) !! (0 + j) = Some tr
           ∧ s + length x.1 ≤ length r ∧ s + length x.1 ≤ length tr
           ∧ length x.2 = length x.1.
Proof.
  intros width Hall j x Hx Hj Htj.
  destruct (lookup_lt_is_Some_2 rows j Hj) as [r Hr].
  destruct (lookup_lt_is_Some_2 trows j Htj) as [tr Htr].
  assert (Hx1 : batch.*1 !! j = Some x.1) by (by rewrite list_lookup_fmap, Hx).
  exists (row_start r), (resize_row fill width r), (resize_row tfill width tr).
  cbn [Nat.add]. rewrite !list_lookup_fmap, Hr, Htr. cbn [fmap option_fmap option_map].
  rewrite !length_resize_row.
  pose proof (width_after_bound rows (batch.*1) j r x.1 Hr Hx1).
  repeat split; try done.
  - by rewrite width_after_ends, lookup_zip_with, Hr, Hx1.
  - by eapply (proj1 (Forall_lookup _ _) Hall).
Qed.

(** An append of [add_nonuniform_nan]: the dataset and its time dataset
    are resized to [max(ends)], and every row of both takes the samples
    and the times of its source from the start offset found in the
    data. *)
Lemma nonuniform_nan_append source_ds (d : NSDFData (list float * list float)) fixed
    ids dd dt rows trows batch lim0 lim tlim0 tlim w :
  let target := data_grp ++ [NONUNIFORM; rpartition_last source_ds] ++ [d_name d] in
  let time := time_dim ++ [format2 (rpartition_last source_ds) (d_name d)] in
  let width := width_after rows (batch.*1) in
  padded_ready NONUNIFORM source_ds target ids dd rows w →
  fd w !! time = Some (Dataset dt) → ds_data dt = Array2 trows →
  length trows = length ids →
  ds_maxshape dd = Some [lim0; lim] →
  ds_maxshape dt = Some [tlim0; tlim] →
  ids ≠ [] →
  (∀ x, x ∈ ids ↔ x ∈ get_sources d) →
  rows_of d ids = Some batch →
  Forall (λ x, length x.2 = length x.1) batch →
  within width lim = true → within width tlim = true →
  add_nonuniform_nan source_ds d fixed w
  = (set_fd (λ f,
       <[time := Dataset (set_data
                   (Array2 (write_slices 0 (row_start <$> rows)
                              (resize_row (ds_fill dt) width <$> trows) (batch.*2))) dt)]>
         (<[target := Dataset (set_data
                   (Array2 (write_slices 0 (row_start <$> rows)
                              (resize_row (ds_fill dd) width <$> rows) (batch.*1))) dd)]>
            f)) w,
     Ok target).
Proof.
  intros target time width (Hdia & Hns & Hpop & (ds & Hs & Hds) & Ht & Hdd & Hlen)
    Hq Hdt Htlen Hmax Htmax Hne Hm Hrows Hpairs Hlim Htlim.
  assert (Hbatch : length batch = length ids).
  { apply mapM_Some in Hrows. symmetry. by eapply Forall2_length. }
  assert (Hpq : target ≠ time) by (unfold target, time; cbn; congruence).
  unfold add_nonuniform_nan. rewrite bind_eq. cbn [get_writer].
  rewrite bind_eq, (nan_dialect_ok _ _ Hdia).
  rewrite (flat_enter_group NONUNIFORM source_ds (get_sources d) w ds ids) by done.
  change ((data_grp ++ [NONUNIFORM] ++ [rpartition_last source_ds]) ++ [d_name d])
    with target.
  cbn zeta. fold time.
  rewrite bind_eq, (mapM_data_of_ok _ _ _ _ Hrows).
  rewrite bind_eq. unfold try_except_KeyError.
  rewrite bind_eq, (h5_getitem_some _ _ _ Ht).
  rewrite bind_eq, (nonuniform_nan_starts target w dd rows Ht Hdd) by lia.
  rewrite drop_0, <- Hlen, firstn_all.
  replace ((λ dt0 : list float * list float, length dt0.1) <$> batch)
    with (length <$> batch.*1) by (by rewrite <- list_fmap_compose).
  set (ends := zip_with Nat.add (row_start <$> rows) (length <$> batch.*1)).
  rewrite bind_eq, py_max_ok.
  2:{ unfold ends. destruct rows, batch, ids; cbn in *; congruence. }
  assert (max_list ends = width) as ->
    by (unfold ends; by rewrite width_after_ends).
  rewrite bind_eq. unfold resize_axis1 at 1.
  rewrite bind_eq, (h5_handle_some _ _ _ Ht), Hdd, Hmax, Hlim.
  unfold put_dataset at 1.
  set (w1 := set_fd _ w).
  assert (Hq1 : fd w1 !! time = Some (Dataset dt)).
  { unfold w1. cbn. by rewrite lookup_insert_ne. }
  rewrite bind_eq, (h5_getitem_some _ _ _ Hq1).
  rewrite bind_eq. unfold resize_axis1 at 1.
  rewrite bind_eq, (h5_handle_some _ _ _ Hq1), Hdt, Htmax, Htlim.
  unfold put_dataset at 1. cbn [mret M_ret fst snd].
  unfold enumerate. rewrite bind_eq.
  erewrite (nonuniform_nan_loop target time _ _ batch Hpq);
    [| unfold w1; cbn; rewrite lookup_insert_ne by done; apply lookup_insert_eq
     | reflexivity
     | cbn; apply lookup_insert_eq
     | reflexivity
     | intros j x Hx; unfold ends; apply slices_fit2; [done|done| |];
       apply lookup_lt_Some in Hx; lia ].
  unfold mret, M_ret. rewrite !set_data_set_data. unfold w1. rewrite !set_fd_set_fd.
  f_equal. unfold set_fd. f_equal. cbn.
  apply map_eq. intros k.
  destruct (decide (k = time)) as [->|Hkq]; [by rewrite !lookup_insert_eq|].
  rewrite !(lookup_insert_ne _ time) by done.
  destruct (decide (k = target)) as [->|Hkp]; [by rewrite !lookup_insert_eq|].
  by rewrite !lookup_insert_ne.
Qed.

Lemma slice_written_ok s (x old : list float) :
  s + length x ≤ length old →
  slice_written s x old (take s old ++ x ++ drop (s + length x) old).
Proof.
  intros Hle.
  assert (Hs : length (take s old) = s) by (rewrite length_take; lia).
  repeat split.
  - rewrite !length_app, Hs, length_drop. lia.
  - by rewrite take_app_length'.
  - rewrite drop_app_length' by done. by rewrite take_app_length.
  - rewrite (assoc_L (++)). rewrite drop_app_length'; [done|].
    rewrite length_app. lia.
Qed.

Lemma take_resize_row fill width (r : list float) s :
  s ≤ length r → s ≤ width → take s (resize_row fill width r) = take s r.
Proof.
  intros Hr Hw. unfold resize_row.
  rewrite take_app_le by (rewrite length_take; lia).
  rewrite take_take. f_equal. lia.
Qed.

Lemma find_isnan_None_start (r : list float) : find_isnan r = None → row_start r = length r.
Proof. unfold row_start. by intros ->. Qed.

Lemma padded_resize_row fill width (r : list float) k :
  padded r → sentinel fill → row_start r ≤ k →
  Forall sentinel (drop k (resize_row fill width r)).
Proof.
  intros Hpad Hfill Hk.
  replace k with (row_start r + (k - row_start r)) by lia.
  rewrite <- drop_drop. apply Forall_drop.
  unfold resize_row. pose proof (row_start_le r) as Hle.
  destruct (decide (row_start r ≤ width)) as [Hw|Hw].
  - rewrite drop_app_le by (rewrite length_take; lia).
    apply Forall_app. split; [|by apply Forall_replicate].
    replace width with (row_start r + (width - row_start r)) at 1 by lia.
    rewrite <- take_drop_commute. by apply Forall_take.
  - rewrite drop_app_ge by (rewrite length_take; lia).
    apply Forall_drop. by apply Forall_replicate.
Qed.

(** What the slice assignment of an append leaves in a row. *)
Lemma row_appended_ok fill width (r x : list float) :
  row_start r + length x ≤ width →
  let old := resize_row fill width r in
  row_appended fill width r x
    (take (row_start r) old ++ x ++ drop (row_start r + length x) old).
Proof.
  intros Hle old.
  pose proof (row_start_le r) as Hr.
  assert (Hfit : row_start r + length x ≤ length old)
    by (unfold old; by rewrite length_resize_row).
  pose proof (slice_written_ok _ x old Hfit) as Hw.
  split; [exact Hw|]. destruct Hw as (_ & Htake & _ & Hdrop).
  split; [|split].
  - rewrite Htake. unfold old. apply take_resize_row; lia.
  - intros Hnone. apply find_isnan_None_start in Hnone. lia.
  - intros Hpad Hfill. rewrite Hdrop. unfold old.
    apply padded_resize_row; [done|done|lia].
Qed.

Lemma write_slices_rectangular starts (rows batch : list (list float)) width :
  length batch = length rows →
  (∀ j r x, rows !! j = Some r → batch !! j = Some x →
     default 0 (starts !! j) + length x ≤ length r ∧ length r = width) →
  rectangular width (write_slices 0 starts rows batch).
Proof.
  intros Hlen Hall. apply Forall_lookup. intros j r' Hj.
  assert (Hlt : j < length rows).
  { apply lookup_lt_Some in Hj. by rewrite length_write_slices in Hj. }
  destruct (lookup_lt_is_Some_2 rows j Hlt) as [r Hr].
  destruct (lookup_lt_is_Some_2 batch j) as [x Hx]; [lia|].
  pose proof (write_slices_lookup starts batch 0 rows j x r Hx Hr) as Hw.
  cbn [Nat.add] in Hw. rewrite Hw in Hj. injection Hj as <-.
  destruct (Hall j r x Hr Hx) as [Hle <-]. cbn zeta.
  rewrite !length_app, length_take, length_drop. lia.
Qed.

(** The rows of an appended array, one by one. *)
Lemma write_slices_resized fill (rows batch : list (list float)) (trows tbatch : list (list float))
    width j r tr x :
  rows !! j = Some r → trows !! j = Some tr → tbatch !! j = Some x →
  write_slices 0 (row_start <$> rows) (resize_row fill width <$> trows) tbatch !! j
  = Some (let old := resize_row fill width tr in
          take (row_start r) old ++ x ++ drop (row_start r + length x) old).
Proof.
  intros Hr Htr Hx.
  pose proof (write_slices_lookup (row_start <$> rows) tbatch 0
                (resize_row fill width <$> trows) j x (resize_row fill width tr) Hx) as Hw.
  cbn [Nat.add] in Hw. rewrite Hw by (by rewrite list_lookup_fmap, Htr).
  by rewrite list_lookup_fmap, Hr.
Qed.

(** X1. In the NaN-padded dialect, an append to an array in
    the file starts, in every row, at the first sentinel cell of the row,
    or at its end when the row holds none; the array is resized to the
    largest, over the rows, of the start offset plus the number of new
    samples, which is not below the length of a row that holds no
    sentinel; the cells before the new samples are kept, and the cells
    after them are those of the resized row: sentinels when the row was
    padded and the fill value is the sentinel. For nonuniform data the
    time dataset is resized to the same width and takes the times at the
    offsets found in the data. *)
Theorem padded_append_offsets (events nonuniform : path) (fixed : bool)
    (ids : list string) (w : NSDFWriter)
    (e : NSDFData (list float)) (n : NSDFData (list float * list float))
    (ed nd td : dataset) (erows nrows trows ebatch : list (list float))
    (nbatch : list (list float * list float)) :
  let etarget := data_grp ++ [EVENT; rpartition_last events] ++ [d_name e] in
  let ntarget := data_grp ++ [NONUNIFORM; rpartition_last nonuniform] ++ [d_name n] in
  let ntime := time_dim ++ [format2 (rpartition_last nonuniform) (d_name n)] in
  let ewidth := width_after erows ebatch in
  let nwidth := width_after nrows (nbatch.*1) in
  ids ≠ [] →
  padded_ready EVENT events etarget ids ed erows w →
  padded_ready NONUNIFORM nonuniform ntarget ids nd nrows w →
  fd w !! ntime = Some (Dataset td) → ds_data td = Array2 trows →
  length trows = length ids →
  (∀ x, x ∈ ids ↔ x ∈ get_sources e) → rows_of e ids = Some ebatch →
  (∀ x, x ∈ ids ↔ x ∈ get_sources n) → rows_of n ids = Some nbatch →
  Forall (λ x, length x.2 = length x.1) nbatch →
  can_resize ed ewidth → can_resize nd nwidth → can_resize td nwidth →
  (∃ w' rows', add_event_nan events e fixed w = (w', Ok etarget)
     ∧ data_at w' etarget = Some (Array2 rows')
     ∧ rectangular ewidth rows'
     ∧ ∀ i r x, erows !! i = Some r → ebatch !! i = Some x →
         ∃ r', rows' !! i = Some r' ∧ row_appended (ds_fill ed) ewidth r x r')
  ∧ (∃ w' rows' trows', add_nonuniform_nan nonuniform n fixed w = (w', Ok ntarget)
       ∧ data_at w' ntarget = Some (Array2 rows')
       ∧ data_at w' ntime = Some (Array2 trows')
       ∧ rectangular nwidth rows' ∧ rectangular nwidth trows'
       ∧ ∀ i r tr x, nrows !! i = Some r → trows !! i = Some tr →
           nbatch !! i = Some x →
           ∃ r' tr', rows' !! i = Some r' ∧ trows' !! i = Some tr'
             ∧ row_appended (ds_fill nd) nwidth r x.1 r'
             ∧ slice_written (row_start r) x.2
                 (resize_row (ds_fill td) nwidth tr) tr').
Proof.
  intros etarget ntarget ntime ewidth nwidth Hne Hev Hnu Hq Htd Htlen
    Hem Herows Hnm Hnrows Hpairs (elim0 & elim & Hemax & Helim)
    (nlim0 & nlim & Hnmax & Hnlim) (tlim0 & tlim & Htmax & Htlim).
  assert (Hebatch : length ebatch = length ids).
  { apply mapM_Some in Herows. symmetry. by eapply Forall2_length. }
  assert (Hnbatch : length nbatch = length ids).
  { apply mapM_Some in Hnrows. symmetry. by eapply Forall2_length. }
  assert (Helen : length erows = length ids) by apply Hev.
  assert (Hnlen : length nrows = length ids) by apply Hnu.
  split.
  - eexists _, _. split; [|split; [|split]].
    + by eapply event_nan_append.
    + unfold data_at. cbn [fd set_fd]. by rewrite lookup_insert_eq.
    + apply write_slices_rectangular.
      * rewrite length_fmap. lia.
      * intros j rr x Hrr Hx.
        rewrite list_lookup_fmap in Hrr.
        destruct (erows !! j) as [r|] eqn:Hr; [|discriminate].
        injection Hrr as <-. rewrite list_lookup_fmap, Hr. cbn.
        rewrite length_resize_row. split; [|done].
        by eapply width_after_bound.
    + intros i r x Hr Hx. eexists. split.
      * by apply (write_slices_resized _ erows ebatch erows ebatch _ i r r x).
      * apply row_appended_ok. by eapply width_after_bound.
  - assert (Hfit : ∀ j r x, nrows !! j = Some r → nbatch !! j = Some x →
              row_start r + length x.1 ≤ nwidth).
    { intros j r x Hr Hx. eapply width_after_bound; [exact Hr|].
      by rewrite list_lookup_fmap, Hx. }
    eexists _, _, _. split; [|split; [|split; [|split; [|split]]]].
    + by eapply nonuniform_nan_append.
    + unfold data_at. cbn [fd set_fd].
      rewrite lookup_insert_ne by (unfold ntarget, ntime; cbn; congruence).
      by rewrite lookup_insert_eq.
    + unfold data_at. cbn [fd set_fd]. by rewrite lookup_insert_eq.
    + apply write_slices_rectangular.
      * rewrite !length_fmap. lia.
      * intros j rr x Hrr Hx.
        rewrite list_lookup_fmap in Hrr.
        destruct (nrows !! j) as [r|] eqn:Hr; [|discriminate].
        injection Hrr as <-. rewrite list_lookup_fmap, Hr. cbn.
        rewrite length_resize_row. split; [|done].
        rewrite list_lookup_fmap in Hx.
        destruct (nbatch !! j) as [y|] eqn:Hy; [|discriminate].
        injection Hx as <-. by eapply Hfit.
    + apply write_slices_rectangular.
      * rewrite !length_fmap. lia.
      * intros j rr x Hrr Hx.
        rewrite list_lookup_fmap in Hrr.
        destruct (trows !! j) as [tr|] eqn:Htr; [|discriminate].
        injection Hrr as <-.
        destruct (lookup_lt_is_Some_2 nrows j) as [r Hr];
          [apply lookup_lt_Some in Htr; lia|].
        rewrite list_lookup_fmap, Hr. cbn.
        rewrite length_resize_row. split; [|done].
        rewrite list_lookup_fmap in Hx.
        destruct (nbatch !! j) as [y|] eqn:Hy; [|discriminate].
        injection Hx as <-.
        rewrite (proj1 (Forall_lookup _ _) Hpairs j y Hy). by eapply Hfit.
    + intros i r tr x Hr Htr Hx. eexists _, _.
      split; [|split; [|split]].
      * apply (write_slices_resized _ nrows (nbatch.*1) nrows (nbatch.*1) _ i r r x.1);
          [done|done|]. by rewrite list_lookup_fmap, Hx.
      * apply (write_slices_resized _ nrows (nbatch.*1) trows (nbatch.*2) _ i r tr x.2);
          [done|done|]. by rewrite list_lookup_fmap, Hx.
      * apply row_appended_ok. by eapply Hfit.
      * cbn zeta. apply slice_written_ok. rewrite length_resize_row.
        rewrite (proj1 (Forall_lookup _ _) Hpairs i x Hx). by eapply Hfit.
Qed.

Ltac ready_by_computation :=
  split; [vm_compute; reflexivity|];
  split; [eexists; vm_compute; reflexivity|];
  split; [eexists; vm_compute; reflexivity|];
  split; [eexists; split; vm_compute; reflexivity|];
  split; [vm_compute; reflexivity|];
  split; [vm_compute; reflexivity | reflexivity].

Lemma padded_append_offsets_witness :
  let etarget := data_grp ++ [EVENT; rpartition_last event_map] ++ ["spikes"] in
  let ntarget := data_grp ++ [NONUNIFORM; rpartition_last nonuniform_map] ++ ["Vm"] in
  let ntime := time_dim ++ [format2 (rpartition_last nonuniform_map) "Vm"] in
  let erows := [[1; 2]; [nan; nan]; [3; nan]]%float in
  let nrows := [[1; 2]; [3; nan]; [nan; nan]]%float in
  let trows := [[0; 1]; [0; nan]; [nan; nan]]%float in
  let ebatch := [[4]; [5; 6]; []]%float in
  let nbatch := [([4], [2]); ([], []); ([5; 6], [1; 2])]%float in
  ∃ ed nd td,
    (fd padded_writer !! etarget = Some (Dataset ed)
     ∧ fd padded_writer !! ntarget = Some (Dataset nd)
     ∧ fd padded_writer !! ntime = Some (Dataset td))
    ∧ (∃ w' rows', add_event_nan event_map spikes_second false padded_writer
                   = (w', Ok etarget)
         ∧ data_at w' etarget = Some (Array2 rows')
         ∧ rectangular (width_after erows ebatch) rows'
         ∧ ∀ i r x, erows !! i = Some r → ebatch !! i = Some x →
             ∃ r', rows' !! i = Some r'
                   ∧ row_appended (ds_fill ed) (width_after erows ebatch) r x r')
    ∧ (∃ w' rows' trows',
         add_nonuniform_nan nonuniform_map Vm_ragged_second false padded_writer
         = (w', Ok ntarget)
         ∧ data_at w' ntarget = Some (Array2 rows')
         ∧ data_at w' ntime = Some (Array2 trows')
         ∧ rectangular (width_after nrows (nbatch.*1)) rows'
         ∧ rectangular (width_after nrows (nbatch.*1)) trows'
         ∧ ∀ i r tr x, nrows !! i = Some r → trows !! i = Some tr →
             nbatch !! i = Some x →
             ∃ r' tr', rows' !! i = Some r' ∧ trows' !! i = Some tr'
               ∧ row_appended (ds_fill nd) (width_after nrows (nbatch.*1)) r x.1 r'
               ∧ slice_written (row_start r) x.2
                   (resize_row (ds_fill td) (width_after nrows (nbatch.*1)) tr) tr').
Proof.
  intros etarget ntarget ntime erows nrows trows ebatch nbatch.
  eexists _, _, _. split.
  { split; [|split]; vm_compute; reflexivity. }
  eapply (padded_append_offsets event_map nonuniform_map false cells padded_writer
            spikes_second Vm_ragged_second _ _ _ erows nrows trows ebatch nbatch).
  - discriminate.
  - ready_by_computation.
  - ready_by_computation.
  - vm_compute. reflexivity.
  - reflexivity.
  - reflexivity.
  - intros x. cbn. unfold cells. rewrite !elem_of_cons, !elem_of_nil. tauto.
  - vm_compute. reflexivity.
  - intros x. cbn. unfold cells. rewrite !elem_of_cons, !elem_of_nil. tauto.
  - vm_compute. reflexivity.
  - repeat constructor.
  - eexists _, _. split; vm_compute; reflexivity.
  - eexists _, _. split; vm_compute; reflexivity.
  - eexists _, _. split; vm_compute; reflexivity.
Defined.

(** A lone time for several samples is repeated over the slice of the
    row, as h5py broadcasts it. *)
Lemma lone_time_is_repeated :
  let d := batch "Vm" (Some "mV") (Some "ms") None []
             [("c0", ([1; 2; 3], [7])); ("c1", ([], [])); ("c2", ([4], [8]))]%float in
  let r := add_nonuniform_nan nonuniform_map d false nan_writer in
  raised r = None
  ∧ data_at r.1 ["data"; "nonuniform"; "cells"; "Vm"]
    = Some (Array2 [[1; 2; 3]; [nan; nan; nan]; [4; nan; nan]]%float)
  ∧ data_at r.1 ["map"; "time"; "cells_Vm"]
    = Some (Array2 [[7; 7; 7]; [nan; nan; nan]; [8; nan; nan]]%float).
Proof. vm_compute. repeat split; reflexivity. Qed.

(** An append can shrink the array. The first batch of spike times holds
    samples that are not-a-number, so every row of the array it creates
    holds a sentinel. The next append resizes the array to [max(ends)],
    which is below the width it had: the array loses its third column. *)
Lemma padded_append_can_shrink :
  let target := ["data"; "event"; "cells"; "spikes"] in
  let created := add_event_nan event_map nan_spikes_first false nan_writer in
  let appended := add_event_nan event_map nan_spikes_second false created.1 in
  let rows := [[1; nan; nan]; [nan; nan; nan]; [3; nan; nan]]%float in
  let batch := [[4]; []; []]%float in
  created.2 = Ok target
  ∧ data_at created.1 target = Some (Array2 rows)
  ∧ rows_of nan_spikes_second cells = Some batch
  ∧ appended.2 = Ok target
  ∧ data_at appended.1 target = Some (Array2 [[1; 4]; [nan; nan]; [3; nan]]%float)
  ∧ width_after rows batch = 2
  ∧ shape1 rows `max` width_after rows batch = 3.
Proof. vm_compute. repeat split; reflexivity. Qed.

(** ** Appends and metadata *)

(** X2. For the seven 2-D methods, once the array of the batch's name is
    in the file (with its time dataset, for the ragged and the padded
    nonuniform method), a call does not read the metadata of the batch:
    it ends in the same state and with the same result whatever the unit,
    the time unit and the sampling interval are, absent ones included; it
    does not fail for missing metadata, and the attributes of the array
    are what they were. *)
Theorem append_ignores_metadata (c : append_call) (source_ds : path) (fixed : bool)
    (a : gmap string attr) (unit tunit : option string) (dt : option float)
    (w : NSDFWriter) :
  is_1d c = false →
  array_present (call_target c source_ds) (call_time c source_ds) a w →
  let r := append (call_with_metadata c unit tunit dt) source_ds fixed w in
  r = append c source_ds fixed w
  ∧ array_present (call_target c source_ds) (call_time c source_ds) a r.1
  ∧ ∀ e, r.2 = Raise e → classify e ≠ Some MissingMetadata.
Proof.
  intros H1d Hpresent r. subst r.
  rewrite (append_with_metadata c source_ds fixed a unit tunit dt w H1d Hpresent).
  split; [reflexivity|].
  destruct (append c source_ds fixed w) as [w' r] eqn:Hrun.
  destruct (append_keeps_array c source_ds fixed a H1d w w' r Hpresent Hrun)
    as [Hkept Hres].
  split; [exact Hkept|]. cbn. intros e ->. exact Hres.
Qed.

Lemma append_ignores_metadata_witness :
  let c := Add_uniform Vm_full 0%float in
  let a := default ∅ (attrs_at uniform_writer (call_target c cells_map)) in
  array_present (call_target c cells_map) (call_time c cells_map) a uniform_writer
  ∧ let r := append (call_with_metadata c None None None) cells_map false
               uniform_writer in
    r = append c cells_map false uniform_writer
    ∧ array_present (call_target c cells_map) (call_time c cells_map) a r.1
    ∧ ∀ e, r.2 = Raise e → classify e ≠ Some MissingMetadata.
Proof.
  intros c a.
  assert (Hpresent : array_present (call_target c cells_map) (call_time c cells_map)
            a uniform_writer).
  { split; [eexists; split; vm_compute; reflexivity|].
    intros t Ht. discriminate Ht. }
  split; [exact Hpresent|].
  exact (append_ignores_metadata c cells_map false a None None None uniform_writer
           eq_refl Hpresent).
Defined.

Lemma skeleton_regular_writer : skeleton (fd regular_writer).
Proof. skeleton_by_computation. Qed.

Lemma skeleton_uniform_writer : skeleton (fd uniform_writer).
Proof. skeleton_by_computation. Qed.

Ltac sources_by_computation :=
  intros ?; cbn; unfold cells; rewrite !elem_of_cons, !elem_of_nil; tauto.

Lemma regular_rejects_time_mismatch_witness :
  ∃ w', add_nonuniform_regular nonuniform_map Im_mismatched false regular_writer
        = (w', Raise ValueError_times)
        ∧ classify ValueError_times = Some ShapeMismatch
        ∧ only_new_groups (fd regular_writer) (fd w').
Proof.
  eapply (regular_rejects_time_mismatch nonuniform_map Im_mismatched false
            regular_writer _ cells).
  - apply skeleton_regular_writer.
  - intros d H. vm_compute in H. discriminate.
  - vm_compute. reflexivity.
  - reflexivity.
  - sources_by_computation.
  - vm_compute. reflexivity.
  - reflexivity.
  - vm_compute. lia.
Defined.

(** X4. An append by [add_uniform_data], [add_nonuniform_regular] or
    [add_static_data] to an array in the file, with a batch of as many
    columns in every row: the call succeeds, the row of every source is
    the row it was followed by the new samples of that source, and
    nothing else is written: the attributes of the array and every other
    object of the file are what they were. *)
Theorem columns_append_concatenates (c : append_call) (source_ds : path)
    (fixed : bool) (w : NSDFWriter) (ds dd : dataset) (ids : list string)
    (rows data : list (list float)) :
  let target := call_target c source_ds in
  is_columns c = true →
  skeleton (fd w) →
  is_group_at (fd w) (call_group c source_ds) →
  fd w !! source_ds = Some (Dataset ds) → ds_data ds = Ids ids →
  (∀ x, x ∈ ids ↔ x ∈ call_sources c) →
  call_matrix c ids = Some data →
  batch_assembles c ids = true →
  fd w !! target = Some (Dataset dd) →
  ds_data dd = Array2 rows →
  can_resize dd (shape1 rows + shape1 data) →
  rectangular (shape1 rows) rows →
  length rows = length data →
  ∃ w', append c source_ds fixed w = (w', Ok tt)
        ∧ data_at w' target = Some (Array2 (zip_with app rows data))
        ∧ attrs_at w' target = attrs_at w target
        ∧ ∀ p, p ≠ target → fd w' !! p = fd w !! p.
Proof.
  intros target Hcol Hsk Hpop Hs Hd Hm Hmat Hasm Ht Hdd (lim0 & lim & Hmax & Hlim)
    Hrect Hlen.
  eexists. split; [eapply (columns_append_ok c); eauto|].
  unfold data_at, attrs_at. cbn [fd set_fd]. fold target.
  rewrite !lookup_insert_eq, Ht. repeat split.
  intros p Hp. by rewrite lookup_insert_ne.
Qed.

Lemma columns_append_concatenates_witness :
  let c := Add_uniform Vm_full 0%float in
  let target := call_target c cells_map in
  let rows := [[1; 2; 3; 4; 5]; [6; 7; 8; 9; 10]; [11; 12; 13; 14; 15]]%float in
  ∃ w', append c cells_map false uniform_writer = (w', Ok tt)
        ∧ data_at w' target = Some (Array2 (zip_with app rows rows))
        ∧ attrs_at w' target = attrs_at uniform_writer target
        ∧ ∀ p, p ≠ target → fd w' !! p = fd uniform_writer !! p.
Proof.
  intros c target rows.
  eapply (columns_append_concatenates c cells_map false uniform_writer _ _ cells
            rows rows).
  - reflexivity.
  - apply skeleton_uniform_writer.
  - eexists. vm_compute. reflexivity.
  - vm_compute. reflexivity.
  - reflexivity.
  - sources_by_computation.
  - vm_compute. reflexivity.
  - vm_compute. reflexivity.
  - vm_compute. reflexivity.
  - reflexivity.
  - eexists _, _. split; vm_compute; reflexivity.
  - repeat constructor.
  - reflexivity.
Defined.

(** ** Arrays that cannot grow, and the creation of a uniform array *)

Lemma append_columns_refused {A} w p d rows data lim0 lim (handler : M A)
    (k : path → M A) :
  fd w !! p = Some (Dataset d) →
  ds_data d = Array2 rows →
  ds_maxshape d = Some [lim0; lim] →
  within (shape1 rows + shape1 data) lim = false →
  try_except_KeyError
    (_ ← h5_getitem p;
     oldcolcount ← ds_shape1 p;
     resize_axis1 p (oldcolcount + shape1 data);;
     write_columns p oldcolcount data;;
     k p) handler w
  = (w, Raise H5_resize).
Proof.
  intros Hp Hd Hmax Hlim. unfold try_except_KeyError.
  rewrite bind_eq, (h5_getitem_some _ _ _ Hp).
  rewrite bind_eq. unfold ds_shape1 at 1.
  rewrite bind_eq, (h5_handle_some _ _ _ Hp), Hd. cbn [mret M_ret].
  rewrite bind_eq. unfold resize_axis1.
  rewrite bind_eq, (h5_handle_some _ _ _ Hp), Hd, Hmax, Hlim.
  reflexivity.
Qed.

(** X5. An array of [add_uniform_data], [add_nonuniform_regular] or
    [add_static_data] whose maximal width is set, as a creation with
    [fixed=True] sets it, does not take a batch that would make it
    wider: the call ends with the resize error of the library, and the
    writer and the file are what they were. *)
Theorem fixed_array_cannot_grow (c : append_call) (source_ds : path) (fixed : bool)
    (w : NSDFWriter) (ds dd : dataset) (ids : list string)
    (rows data : list (list float)) (lim0 : option nat) (m : nat) :
  is_columns c = true →
  skeleton (fd w) →
  is_group_at (fd w) (call_group c source_ds) →
  fd w !! source_ds = Some (Dataset ds) → ds_data ds = Ids ids →
  (∀ x, x ∈ ids ↔ x ∈ call_sources c) →
  call_matrix c ids = Some data →
  batch_assembles c ids = true →
  fd w !! call_target c source_ds = Some (Dataset dd) →
  ds_data dd = Array2 rows →
  ds_maxshape dd = Some [lim0; Some m] →
  m < shape1 rows + shape1 data →
  append c source_ds fixed w = (w, Raise H5_resize).
Proof.
  intros Hcol Hsk Hpop Hs Hd Hm Hmat Hasm Ht Hdd Hmax Hlim.
  assert (Hwithin : within (shape1 rows + shape1 data) (Some m) = false)
    by (cbn; apply Nat.leb_gt; lia).
  pose proof (skeleton_data _ _ Hsk (call_namespace_sampling c)) as Hns.
  unfold call_target, call_group, call_popname in *.
  assert (H1d : is_1d c = false) by (by destruct c).
  rewrite H1d in *.
  pose proof (flat_enter_group (call_namespace c) source_ds (call_sources c)
                w ds ids Hns Hpop Hs Hd Hm) as Henter.
  destruct c as [d tstart|d|d|d names|d names|d|d|d|d]; try discriminate Hcol;
    cbn [append call_sources call_namespace call_name call_matrix batch_assembles] in *;
    rewrite Hmat in Hasm.
  - eapply discard_raise. unfold add_uniform_data. rewrite Henter.
    rewrite bind_eq, (mapM_data_of_ok _ _ _ _ Hmat).
    rewrite bind_eq, (vstack_ok _ _ Hasm).
    eapply (append_columns_refused w _ dd rows data); eauto.
  - apply andb_true_iff in Hasm as [Hst Htimes].
    eapply discard_raise. unfold add_nonuniform_regular. rewrite Henter.
    rewrite bind_eq, (mapM_data_of_ok _ _ _ _ Hmat).
    rewrite bind_eq, (vstack_ok _ _ Hst). rewrite Htimes. cbn [negb].
    eapply (append_columns_refused w _ dd rows data); eauto.
  - eapply discard_raise. unfold add_static_data. rewrite Henter.
    rewrite bind_eq, (mapM_data_of_ok _ _ _ _ Hmat).
    rewrite bind_eq, (vstack_ok _ _ Hasm).
    eapply (append_columns_refused w _ dd rows data); eauto.
Qed.

Lemma skeleton_fixed_writer : skeleton (fd fixed_writer).
Proof. skeleton_by_computation. Qed.

Lemma fixed_array_cannot_grow_witness :
  append (Add_uniform Vm_full 0%float) cells_map false fixed_writer
  = (fixed_writer, Raise H5_resize).
Proof.
  eapply (fixed_array_cannot_grow (Add_uniform Vm_full 0%float) cells_map false
            fixed_writer _ _ cells
            [[1; 2; 3; 4; 5]; [6; 7; 8; 9; 10]; [11; 12; 13; 14; 15]]%float
            [[1; 2; 3; 4; 5]; [6; 7; 8; 9; 10]; [11; 12; 13; 14; 15]]%float _ 5).
  - reflexivity.
  - apply skeleton_fixed_writer.
  - eexists. vm_compute. reflexivity.
  - vm_compute. reflexivity.
  - reflexivity.
  - sources_by_computation.
  - vm_compute. reflexivity.
  - vm_compute. reflexivity.
  - vm_compute. reflexivity.
  - reflexivity.
  - vm_compute. reflexivity.
  - vm_compute. lia.
Defined.

Lemma create_scale_eq w p d name :
  fd w !! p = Some (Dataset d) →
  create_scale p name w
  = (set_fd <[p := Dataset (mkDataset (ds_data d) (ds_fill d) (ds_maxshape d)
                              (ds_attrs d) (Some name) (ds_dims d) (ds_labels d))]> w,
     Ok tt).
Proof. intros Hp. unfold create_scale. by rewrite bind_eq, (h5_handle_some _ _ _ Hp). Qed.

Lemma attach_scale_eq w p d axis scale :
  fd w !! p = Some (Dataset d) →
  attach_scale p axis scale w
  = (set_fd <[p := Dataset (mkDataset (ds_data d) (ds_fill d) (ds_maxshape d)
                              (ds_attrs d) (ds_scale d) (ds_dims d ++ [(axis, scale)])
                              (ds_labels d))]> w,
     Ok tt).
Proof. intros Hp. unfold attach_scale. by rewrite bind_eq, (h5_handle_some _ _ _ Hp). Qed.

(** The creation path of [add_uniform_data], one write after the other. *)
Lemma uniform_data_creation (source_ds : path) (d : NSDFData (list float))
    (tstart : float) (fixed : bool) (ids : list string) (data : list (list float))
    (unit tunit : string) (dt : float) (w : NSDFWriter) (ds : dataset) :
  let target := data_grp ++ [UNIFORM; rpartition_last source_ds] ++ [d_name d] in
  skeleton (fd w) →
  not_dataset_at (fd w) (data_grp ++ [UNIFORM; rpartition_last source_ds]) →
  fd w !! source_ds = Some (Dataset ds) → ds_data ds = Ids ids →
  fd w !! target = None →
  d_dt d = Some dt → PrimFloat.leb dt 0 = false →
  d_unit d = Some unit → d_tunit d = Some tunit →
  (∀ x, x ∈ ids ↔ x ∈ get_sources d) →
  rows_of d ids = Some data → stackable data = true →
  ∃ w' dd ds',
    add_uniform_data source_ds d tstart fixed w = (w', Ok target)
    ∧ fd w' !! target = Some (Dataset dd)
    ∧ ds_data dd = Array2 data
    ∧ ds_attrs dd = uniform_attrs tstart (Some dt) (d_field d) unit tunit
    ∧ ds_dims dd = [(0, source_ds)]
    ∧ ds_maxshape dd = Some [Some (length data); maxcol_of fixed (shape1 data)]
    ∧ fd w' !! source_ds = Some (Dataset ds')
    ∧ ds_data ds' = Ids ids ∧ ds_scale ds' = Some "source".
Proof.
  intros target Hsk Hnd Hs Hds Habs Hdt Hleb Hunit Htunit Hm Hrows Hst.
  destruct sampling_types_elem as (Hu & _).
  pose proof (skeleton_data _ _ Hsk Hu) as Hns.
  destruct (flat_enter UNIFORM source_ds (get_sources d) w ds ids)
    as (w1 & Hd1 & Hpop1 & Hfd1 & Henter); auto.
  assert (Hs1 : fd w1 !! source_ds = Some (Dataset ds))
    by (by eapply lookup_after_group).
  assert (Habs1 : fd w1 !! target = None).
  { eapply (lookup_none_after_group _ _ _ (d_name d)) in Hfd1; [exact Hfd1|exact Habs]. }
  assert (Hne : source_ds ≠ target) by (intros Heq; rewrite Heq in Hs1; congruence).
  subst target. unfold data_grp in *. cbn [app] in *.
  set (target := ["data"; UNIFORM; rpartition_last source_ds; d_name d]) in *.
  set (d0 := new_dataset (Array2 data) 0%float
               (Some [Some (length data); maxcol_of fixed (shape1 data)])).
  set (w2 := set_fd <[target := Dataset d0]> w1).
  assert (Hs2 : fd w2 !! source_ds = Some (Dataset ds)).
  { unfold w2. cbn. by rewrite lookup_insert_ne. }
  pose proof (create_scale_eq w2 source_ds ds "source" Hs2) as Hrun3.
  set (w3 := set_fd _ w2) in Hrun3.
  assert (Ht3 : fd w3 !! target = Some (Dataset d0)).
  { unfold w3, w2. cbn. rewrite lookup_insert_ne by done. apply lookup_insert_eq. }
  pose proof (attach_scale_eq w3 target d0 0 source_ds Ht3) as Hrun4.
  set (w4 := set_fd _ w3) in Hrun4.
  assert (Ht4 : fd w4 !! target = _) by (unfold w4; cbn; apply lookup_insert_eq).
  pose proof (attrs_set_some w4 target _ "tstart" (AFloat (Some tstart)) Ht4) as Hrun5.
  set (w5 := set_fd _ w4) in Hrun5.
  assert (Ht5 : fd w5 !! target = _) by (unfold w5; cbn; apply lookup_insert_eq).
  pose proof (attrs_set_some w5 target _ "dt" (AFloat (Some dt)) Ht5) as Hrun6.
  set (w6 := set_fd _ w5) in Hrun6.
  assert (Ht6 : fd w6 !! target = _) by (unfold w6; cbn; apply lookup_insert_eq).
  pose proof (attrs_set_some w6 target _ "field" (AStr (d_field d)) Ht6) as Hrun7.
  set (w7 := set_fd _ w6) in Hrun7.
  assert (Ht7 : fd w7 !! target = _) by (unfold w7; cbn; apply lookup_insert_eq).
  pose proof (attrs_set_some w7 target _ "unit" (AStr unit) Ht7) as Hrun8.
  set (w8 := set_fd _ w7) in Hrun8.
  assert (Ht8 : fd w8 !! target = _) by (unfold w8; cbn; apply lookup_insert_eq).
  pose proof (attrs_set_some w8 target _ "timeunit" (AStr tunit) Ht8) as Hrun9.
  set (w9 := set_fd _ w8) in Hrun9.
  exists w9. eexists _, _. split; [|split; [|split; [|split; [|split; [|split; [|split]]]]]].
  - unfold add_uniform_data. unfold data_grp. cbn [app]. rewrite Henter.
    cbn [app]. fold target.
    rewrite bind_eq, (mapM_data_of_ok _ _ _ _ Hrows).
    rewrite bind_eq, (vstack_ok _ _ Hst).
    rewrite try_lookup_missing by exact Habs1.
    rewrite Hdt. cbn [dt_le_zero]. rewrite Hleb.
    rewrite bind_eq, Hunit. cbn [lift_option mret M_ret].
    rewrite bind_eq, Htunit. cbn [lift_option mret M_ret].
    rewrite bind_eq.
    rewrite (create_dataset_new w1 ["data"; UNIFORM; rpartition_last source_ds]
               (d_name d)) by exact Habs1.
    cbn [app]. fold target. fold d0. fold w2.
    rewrite bind_eq. unfold attach_source. rewrite bind_eq, Hrun3, Hrun4.
    rewrite bind_eq, Hrun5. rewrite bind_eq, Hrun6. rewrite bind_eq, Hrun7.
    rewrite bind_eq, Hrun8. rewrite bind_eq, Hrun9. reflexivity.
  - unfold w9. cbn [fd set_fd]. apply lookup_insert_eq.
  - reflexivity.
  - reflexivity.
  - reflexivity.
  - reflexivity.
  - unfold w9, w8, w7, w6, w5, w4, w3. cbn [fd set_fd].
    rewrite !(lookup_insert_ne _ target) by done. apply lookup_insert_eq.
  - split; [exact Hds | reflexivity].
Qed.

(** X6. The first call of [add_uniform_data] for a name, with a unit, a
    time unit and a sampling interval above zero: the array is created at
    [/data/uniform/<population>/<name>] with the rows of the batch in the
    order of the mapping, whatever the order of the batch; it carries the
    attributes [tstart], [dt], [field], [unit] and [timeunit], its first
    dimension is attached to the mapping, which becomes the scale
    [source] and keeps its ids; the array can grow in width unless the
    call was a one-time write. *)
Theorem uniform_data_created (source_ds : path) (d : NSDFData (list float))
    (tstart : float) (fixed : bool) (ids : list string) (data : list (list float))
    (unit tunit : string) (dt : float) (w : NSDFWriter) (ds : dataset) :
  let target := data_grp ++ [UNIFORM; rpartition_last source_ds] ++ [d_name d] in
  skeleton (fd w) →
  not_dataset_at (fd w) (data_grp ++ [UNIFORM; rpartition_last source_ds]) →
  fd w !! source_ds = Some (Dataset ds) → ds_data ds = Ids ids →
  fd w !! target = None →
  d_dt d = Some dt → PrimFloat.leb dt 0 = false →
  d_unit d = Some unit → d_tunit d = Some tunit →
  (∀ x, x ∈ ids ↔ x ∈ get_sources d) →
  rows_of d ids = Some data → stackable data = true →
  ∃ w' dd ds',
    add_uniform_data source_ds d tstart fixed w = (w', Ok target)
    ∧ fd w' !! target = Some (Dataset dd)
    ∧ ds_data dd = Array2 data
    ∧ ds_attrs dd = uniform_attrs tstart (Some dt) (d_field d) unit tunit
    ∧ ds_dims dd = [(0, source_ds)]
    ∧ ds_maxshape dd = Some [Some (length data); maxcol_of fixed (shape1 data)]
    ∧ fd w' !! source_ds = Some (Dataset ds')
    ∧ ds_data ds' = Ids ids ∧ ds_scale ds' = Some "source".
Proof. apply uniform_data_creation. Qed.

Lemma uniform_data_created_witness :
  let target := data_grp ++ [UNIFORM; rpartition_last cells_map] ++ ["Vm"] in
  let data := [[1; 2; 3; 4; 5]; [6; 7; 8; 9; 10]; [11; 12; 13; 14; 15]]%float in
  ∃ w' dd ds',
    add_uniform_data cells_map Vm_full 0%float false linked_writer = (w', Ok target)
    ∧ fd w' !! target = Some (Dataset dd)
    ∧ ds_data dd = Array2 data
    ∧ ds_attrs dd = uniform_attrs 0%float (Some 0.5%float) "Vm" "mV" "ms"
    ∧ ds_dims dd = [(0, cells_map)]
    ∧ ds_maxshape dd = Some [Some (length data); maxcol_of false (shape1 data)]
    ∧ fd w' !! cells_map = Some (Dataset ds')
    ∧ ds_data ds' = Ids cells ∧ ds_scale ds' = Some "source".
Proof.
  intros target data.
  eapply (uniform_data_created cells_map Vm_full 0%float false cells data
            "mV" "ms" 0.5%float linked_writer).
  - apply skeleton_linked_writer.
  - intros d H. vm_compute in H. discriminate.
  - vm_compute. reflexivity.
  - reflexivity.
  - vm_compute. reflexivity.
  - reflexivity.
  - reflexivity.
  - reflexivity.
  - reflexivity.
  - sources_by_computation.
  - vm_compute. reflexivity.
  - reflexivity.
Defined.

(** ** Source lists that repeat ids *)

Lemma match_datasets_remove_dups (hdfds srcs : list string) :
  match_datasets hdfds (remove_dups srcs) = match_datasets hdfds srcs.
Proof. apply match_datasets_ext. intros x. apply elem_of_remove_dups. Qed.

(** Descent through two runs of a method body that differ in the source
    list of the batch only: the list is read by [match_datasets] alone. *)
Ltac same_but_sources :=
  repeat first
    [ reflexivity
    | rewrite match_datasets_remove_dups
    | apply bind_ext; intros ? ?
    | match goal with
      | |- (if ?b then _ else _) _ = (if ?b then _ else _) _ => destruct b
      end ].

(** Every appending method treats a batch as it treats the batch with the
    repetitions of its source list removed. *)
Lemma append_remove_dups (c : append_call) (srcs : list string) (source_ds : path)
    (fixed : bool) (w : NSDFWriter) :
  append (call_with_sources c srcs) source_ds fixed w
  = append (call_with_sources c (remove_dups srcs)) source_ds fixed w.
Proof.
  destruct c as [d tstart|d|d|d names|d names|d|d|d|d];
    cbn [append call_with_sources]; apply discard_ext.
  - unfold add_uniform_data.
    cbn [with_sources d_name d_unit d_field d_tunit d_dt get_sources get_data get_times].
    same_but_sources.
  - unfold add_nonuniform_regular.
    cbn [with_sources d_name d_unit d_field d_tunit d_dt get_sources get_data get_times].
    same_but_sources.
  - unfold add_static_data.
    cbn [with_sources d_name d_unit d_field d_tunit d_dt get_sources get_data get_times].
    same_but_sources.
  - unfold add_nonuniform_1d.
    cbn [with_sources d_name d_unit d_field d_tunit d_dt get_sources get_data get_times].
    same_but_sources.
  - unfold add_event_1d.
    cbn [with_sources d_name d_unit d_field d_tunit d_dt get_sources get_data get_times].
    same_but_sources.
  - unfold add_nonuniform_vlen.
    cbn [with_sources d_name d_unit d_field d_tunit d_dt get_sources get_data get_times].
    same_but_sources.
  - unfold add_event_vlen.
    cbn [with_sources d_name d_unit d_field d_tunit d_dt get_sources get_data get_times].
    same_but_sources.
  - unfold add_nonuniform_nan.
    cbn [with_sources d_name d_unit d_field d_tunit d_dt get_sources get_data get_times].
    same_but_sources.
  - unfold add_event_nan.
    cbn [with_sources d_name d_unit d_field d_tunit d_dt get_sources get_data get_times].
    same_but_sources.
Qed.

(** C9. Validation of a batch against its mapping is set-based.  Let
    the mapping dataset of the file hold [ids], and let the source list
    [srcs] of a batch have the set of ids of the mapping, whether or not
    it repeats some of them.  The method reads [ids] from the mapping and
    [match_datasets] accepts the batch; [add_uniform_data] then goes on to
    create the array, with one row for every id of the mapping, in the
    order of the mapping.  And every appending method, whatever the state
    of the writer, treats a batch exactly as it treats the batch with the
    repetitions of its source list removed: a repeated id never causes an
    error by itself. *)
Theorem duplicate_sources_accepted (c : append_call) (srcs : list string)
    (source_ds : path) (d : NSDFData (list float)) (tstart : float) (fixed : bool)
    (ids : list string) (data : list (list float)) (unit tunit : string) (dt : float)
    (w : NSDFWriter) (ds : dataset) :
  let target := data_grp ++ [UNIFORM; rpartition_last source_ds] ++ [d_name d] in
  skeleton (fd w) →
  not_dataset_at (fd w) (data_grp ++ [UNIFORM; rpartition_last source_ds]) →
  fd w !! source_ds = Some (Dataset ds) → ds_data ds = Ids ids →
  fd w !! target = None →
  d_dt d = Some dt → PrimFloat.leb dt 0 = false →
  d_unit d = Some unit → d_tunit d = Some tunit →
  (∀ x, x ∈ srcs ↔ x ∈ ids) →
  rows_of d ids = Some data → stackable data = true →
  iter_ids source_ds w = (w, Ok ids)
  ∧ match_datasets ids srcs = true
  ∧ (∃ w' dd,
       add_uniform_data source_ds (with_sources d srcs) tstart fixed w = (w', Ok target)
       ∧ fd w' !! target = Some (Dataset dd)
       ∧ ds_data dd = Array2 data)
  ∧ append (call_with_sources c srcs) source_ds fixed w
    = append (call_with_sources c (remove_dups srcs)) source_ds fixed w.
Proof.
  intros target Hsk Hnd Hs Hds Habs Hdt Hleb Hunit Htunit Hset Hrows Hst.
  split; [by eapply iter_ids_ok|].
  split; [apply match_datasets_true; intros x; symmetry; apply Hset|].
  split; [|apply append_remove_dups].
  assert (Hset' : ∀ x, x ∈ ids ↔ x ∈ get_sources (with_sources d srcs))
    by (intros x; symmetry; apply Hset).
  destruct (uniform_data_creation source_ds (with_sources d srcs) tstart fixed ids data
              unit tunit dt w ds Hsk Hnd Hs Hds Habs Hdt Hleb Hunit Htunit Hset' Hrows Hst)
    as (w' & dd & _ & Hrun & Ht & Hdata & _).
  by exists w', dd.
Qed.

Lemma duplicate_sources_accepted_witness :
  let srcs := ["c2"; "c0"; "c1"; "c0"] in
  let target := data_grp ++ [UNIFORM; rpartition_last cells_map] ++ ["Vm"] in
  let data := [[1; 2; 3; 4; 5]; [6; 7; 8; 9; 10]; [11; 12; 13; 14; 15]]%float in
  iter_ids cells_map linked_writer = (linked_writer, Ok cells)
  ∧ match_datasets cells srcs = true
  ∧ (∃ w' dd,
       add_uniform_data cells_map (with_sources Vm_full srcs) 0%float false linked_writer
       = (w', Ok target)
       ∧ fd w' !! target = Some (Dataset dd)
       ∧ ds_data dd = Array2 data)
  ∧ append (call_with_sources (Add_uniform Vm_full 0%float) srcs) cells_map false
      linked_writer
    = append (call_with_sources (Add_uniform Vm_full 0%float) (remove_dups srcs))
        cells_map false linked_writer.
Proof.
  intros srcs target data.
  eapply (duplicate_sources_accepted (Add_uniform Vm_full 0%float) srcs cells_map
            Vm_full 0%float false cells data "mV" "ms" 0.5%float linked_writer).
  - apply skeleton_linked_writer.
  - intros d0 H. vm_compute in H. discriminate.
  - vm_compute. reflexivity.
  - reflexivity.
  - vm_compute. reflexivity.
  - reflexivity.
  - reflexivity.
  - reflexivity.
  - reflexivity.
  - intros x. unfold srcs, cells. rewrite !elem_of_cons, !elem_of_nil. tauto.
  - vm_compute. reflexivity.
  - reflexivity.
Defined.

(** ** Declarations: the id list and the model tree *)

(** X7. Every declaring method refuses an empty id list and leaves the
    writer and the file as they were. [add_uniform_ds] and
    [add_static_ds] raise ValueError before anything else;
    [add_event_ds] and [add_event_ds_1d] fail their id-list assertion,
    which comes before the dialect assertion; [add_nonuniform_ds] and
    [add_nonuniform_ds_1d] check the dialect first, and fail the id-list
    assertion when the dialect is the one they ask for. *)
Theorem empty_idlist_refused (common_prefix : list path → path) (noname : exn)
    (c : declaration)
    (w : NSDFWriter) :
  skeleton (fd w) →
  declare common_prefix noname c [] w = (w, Raise (empty_idlist_error c (dialect w))).
Proof.
  intros Hsk.
  destruct sampling_types_elem as (Hu & Hn & He & Hs).
  pose proof (skeleton_mapping _ _ Hsk Hn) as Hmn.
  pose proof (skeleton_mapping _ _ Hsk He) as Hme.
  destruct c as [name|popname|popname varname|name|popname varname|popname];
    cbn [declare empty_idlist_error decl_dialect_ok].
  - reflexivity.
  - unfold add_nonuniform_ds.
    rewrite bind_eq, (require_group_found _ _ _ Hmn).
    rewrite bind_eq. cbn [get_writer]. rewrite bind_eq.
    destruct (negb (bool_decide (dialect w = ONED))); reflexivity.
  - unfold add_nonuniform_ds_1d.
    rewrite bind_eq, (require_group_found _ _ _ Hmn).
    rewrite bind_eq. cbn [get_writer]. rewrite bind_eq.
    destruct (bool_decide (dialect w = ONED)); reflexivity.
  - unfold add_event_ds.
    rewrite bind_eq, (require_group_found _ _ _ Hme). reflexivity.
  - unfold add_event_ds_1d.
    rewrite bind_eq, (require_group_found _ _ _ Hme). reflexivity.
  - reflexivity.
Qed.

Lemma empty_idlist_refused_witness :
  declare closest_common_ancestor ValueError_noname
      (Decl_nonuniform "cells") [] (tree_writer ONED)
  = (tree_writer ONED, Raise AssertionError_dialect).
Proof.
  apply (empty_idlist_refused closest_common_ancestor ValueError_noname
      (Decl_nonuniform "cells")
           (tree_writer ONED)).
  apply skeleton_tree_writer.
Defined.

Lemma mapM_lookup_missing (m : gmap string path) (idlist : list string)
    (uid : string) (w : NSDFWriter) :
  uid ∈ idlist → m !! uid = None →
  mapM (λ uid, lift_option KeyError_lookup (m !! uid)) idlist w
  = (w, Raise KeyError_lookup).
Proof.
  intros Hin Hnone. induction idlist as [|x idlist IH]; [by apply elem_of_nil in Hin|].
  cbn [mapM]. rewrite bind_eq.
  destruct (m !! x) as [p|] eqn:Hx; cbn [lift_option mret M_ret raise]; [|reflexivity].
  apply elem_of_cons in Hin as [->|Hin]; [congruence|].
  rewrite bind_eq, (IH Hin). reflexivity.
Qed.

(** X9. When the model tree holds more than its root and some id of the
    list is not a uid of the tree, a declaration raises KeyError out of
    the linker, whose lookup of the ids is outside its [try] block. The
    mapping dataset was created before: it stays in the file with the
    ids, and nothing else is changed but, for the 1-D declarations, the
    new group of the population. *)
Theorem unknown_id_leaves_mapping (common_prefix : list path → path) (noname : exn)
    (c : declaration) (idlist : list string) (uid : string) (w : NSDFWriter) :
  skeleton (fd w) → idlist ≠ [] →
  decl_dialect_ok c (dialect w) = true →
  fd w !! decl_target c = None →
  (∀ g, decl_group c = Some g → not_dataset_at (fd w) g) →
  1 < size (id_path_dict w) →
  uid ∈ idlist → id_path_dict w !! uid = None →
  ∃ w', declare common_prefix noname c idlist w = (w', Raise KeyError_lookup)
        ∧ fd w' !! decl_target c = Some (Dataset (decl_dataset c idlist))
        ∧ mapping_ids (ds_data (decl_dataset c idlist)) = Some idlist
        ∧ only_new_groups_except [decl_target c] (fd w) (fd w').
Proof.
  intros Hsk Hne Hdia Hfree Hgrp Hsz Hin Hnone.
  destruct (declare_reaches_linker common_prefix noname c idlist w Hsk Hne Hdia Hfree Hgrp)
    as (w0 & Hd0 & Hi0 & Ho0 & Hfd0 & ->).
  set (w1 := set_fd _ w0).
  assert (Hm : fd w1 !! decl_target c = Some (Dataset (decl_dataset c idlist))).
  { unfold w1. cbn. by rewrite lookup_insert_eq. }
  exists w1. split; [|split; [exact Hm|split; [apply mapping_ids_decl_dataset|]]].
  - rewrite bind_eq. unfold _link_map_model.
    rewrite bind_eq. cbn [get_writer]. rewrite bind_eq.
    unfold h5_handle at 1. rewrite Hm.
    pose proof (mapping_ids_decl_dataset c idlist) as Hids.
    assert (Hid : (match ds_data (decl_dataset c idlist) with
                   | Ids l => mret l
                   | SrcMap l => mret (l.*1)
                   | _ => raise H5_kind
                   end : M (list string)) w1 = (w1, Ok idlist)).
    { destruct (ds_data (decl_dataset c idlist)); try discriminate;
        injection Hids as <-; reflexivity. }
    rewrite bind_eq, Hid.
    assert (Hi1 : id_path_dict w1 = id_path_dict w) by (unfold w1; cbn; exact Hi0).
    rewrite Hi1. apply Nat.ltb_lt in Hsz. rewrite Hsz.
    rewrite bind_eq, (mapM_lookup_missing _ _ uid _ Hin Hnone). reflexivity.
  - intros p Hp. apply not_elem_of_cons in Hp as [Hp _].
    unfold w1. cbn [fd set_fd]. rewrite lookup_insert_ne by done.
    destruct Hfd0 as [->|(g & Hg & Hgn & ->)]; [by left|].
    by apply only_new_groups_insert.
Qed.

Lemma unknown_id_leaves_mapping_witness :
  let c := Decl_uniform "cells" in
  let idlist := ["c0"; "zz"] in
  ∃ w', declare closest_common_ancestor ValueError_noname c idlist (tree_writer ONED)
        = (w', Raise KeyError_lookup)
        ∧ fd w' !! decl_target c = Some (Dataset (decl_dataset c idlist))
        ∧ mapping_ids (ds_data (decl_dataset c idlist)) = Some idlist
        ∧ only_new_groups_except [decl_target c] (fd (tree_writer ONED)) (fd w').
Proof.
  intros c idlist.
  apply (unknown_id_leaves_mapping closest_common_ancestor ValueError_noname c idlist "zz"
           (tree_writer ONED)).
  - apply skeleton_tree_writer.
  - discriminate.
  - reflexivity.
  - vm_compute. reflexivity.
  - intros g Hg. discriminate Hg.
  - vm_compute. lia.
  - unfold idlist. set_solver.
  - vm_compute. reflexivity.
Defined.

(** X10. While the id-to-path dictionary holds nothing but the root of
    the model tree, a declaration with a non-empty id list on a free
    name succeeds without linking, whatever the ids are: the mapping
    dataset with the ids is created at its place under [/map], nothing
    is printed, and nothing else is changed but, for the 1-D
    declarations, the new group of the population. *)
Theorem declare_without_tree (common_prefix : list path → path) (noname : exn)
    (c : declaration) (idlist : list string) (w : NSDFWriter) :
  skeleton (fd w) → idlist ≠ [] →
  decl_dialect_ok c (dialect w) = true →
  fd w !! decl_target c = None →
  (∀ g, decl_group c = Some g → not_dataset_at (fd w) g) →
  size (id_path_dict w) ≤ 1 →
  ∃ w', declare common_prefix noname c idlist w = (w', Ok (decl_target c))
        ∧ fd w' !! decl_target c = Some (Dataset (decl_dataset c idlist))
        ∧ mapping_ids (ds_data (decl_dataset c idlist)) = Some idlist
        ∧ stdout w' = stdout w
        ∧ only_new_groups_except [decl_target c] (fd w) (fd w').
Proof.
  intros Hsk Hne Hdia Hfree Hgrp Hsz.
  destruct (declare_reaches_linker common_prefix noname c idlist w Hsk Hne Hdia Hfree Hgrp)
    as (w0 & Hd0 & Hi0 & Ho0 & Hfd0 & ->).
  set (w1 := set_fd _ w0).
  assert (Hm : fd w1 !! decl_target c = Some (Dataset (decl_dataset c idlist))).
  { unfold w1. cbn. by rewrite lookup_insert_eq. }
  exists w1.
  split; [|split; [exact Hm|split; [apply mapping_ids_decl_dataset|split]]].
  - rewrite bind_eq.
    rewrite (link_map_model_small_tree common_prefix noname w1 _ _ idlist Hm
               (mapping_ids_decl_dataset c idlist)); [reflexivity|].
    unfold w1. cbn. by rewrite Hi0.
  - unfold w1. cbn. exact Ho0.
  - intros p Hp. apply not_elem_of_cons in Hp as [Hp _].
    unfold w1. cbn [fd set_fd]. rewrite lookup_insert_ne by done.
    destruct Hfd0 as [->|(g & Hg & Hgn & ->)]; [by left|].
    by apply only_new_groups_insert.
Qed.

Lemma declare_without_tree_witness :
  let c := Decl_event_1d "cells" "spikes" in
  ∃ w', declare closest_common_ancestor ValueError_noname c cells (fresh_writer ONED)
        = (w', Ok (decl_target c))
        ∧ fd w' !! decl_target c = Some (Dataset (decl_dataset c cells))
        ∧ mapping_ids (ds_data (decl_dataset c cells)) = Some cells
        ∧ stdout w' = stdout (fresh_writer ONED)
        ∧ only_new_groups_except [decl_target c] (fd (fresh_writer ONED)) (fd w').
Proof.
  intros c.
  apply (declare_without_tree closest_common_ancestor ValueError_noname
      c cells (fresh_writer ONED)).
  - apply skeleton_fresh_writer.
  - discriminate.
  - reflexivity.
  - vm_compute. reflexivity.
  - intros g Hg. injection Hg as <-. intros d H. vm_compute in H. discriminate.
  - vm_compute. lia.
Defined.

Lemma skeleton_span_writer : skeleton (fd (span_writer ONED)).
Proof. skeleton_by_computation. Qed.

Lemma span_resolve :
  Forall2 (λ uid p, span_dict !! uid = Some p) ["c0"; "X"]
    [["modeltree"; "A"; "B"; "c0"]; ["modeltree"; "X"]].
Proof. repeat constructor. Qed.

Lemma root_ancestor_not_linked_witness :
  let c := Decl_uniform "span" in
  ∃ w', declare closest_common_ancestor ValueError_noname c ["c0"; "X"] (span_writer ONED)
        = (w', Raise ValueError_noname)
        ∧ stdout w' = stdout (span_writer ONED)
        ∧ fd w' !! decl_target c = Some (Dataset (decl_dataset c ["c0"; "X"]))
        ∧ refs_at w' (decl_target c) "model" = Some []
        ∧ refs_at w' modeltree "map" = refs_at (span_writer ONED) modeltree "map"
        ∧ only_new_groups_except [decl_target c] (fd (span_writer ONED)) (fd w').
Proof.
  intros c.
  apply (root_ancestor_not_linked closest_common_ancestor ValueError_noname c ["c0"; "X"]
           [["modeltree"; "A"; "B"; "c0"]; ["modeltree"; "X"]] (span_writer ONED)).
  - apply skeleton_span_writer.
  - discriminate.
  - reflexivity.
  - vm_compute. reflexivity.
  - intros g Hg. discriminate Hg.
  - vm_compute. lia.
  - apply span_resolve.
  - reflexivity.
Defined.

(** The same declaration over a library that makes a KeyError of the
    empty name: the exception is caught and printed, the handle is
    returned, and the root still has no reference to the mapping. *)
Lemma root_ancestor_logged :
  let c := Decl_uniform "span" in
  let r := declare closest_common_ancestor KeyError_lookup c ["c0"; "X"] (span_writer ONED) in
  r.2 = Ok (decl_target c)
  ∧ stdout r.1 = stdout (span_writer ONED) ++ ["KeyError"]
  ∧ refs_at r.1 (decl_target c) "model" = Some []
  ∧ refs_at r.1 modeltree "map" = Some [].
Proof. vm_compute. repeat split; reflexivity. Qed.

Lemma declare_links_ancestor_witness :
  let c := Decl_uniform "cells" in
  ∃ n, fd (tree_writer ONED) !! node_AB = Some n
    ∧ ∃ w', declare closest_common_ancestor ValueError_noname c cells (tree_writer ONED)
            = (w', Ok (decl_target c))
          ∧ refs_at w' node_AB "map" = Some (ref_list n "map" ++ [decl_target c])
          ∧ refs_at w' (decl_target c) "model" = Some [node_AB]
          ∧ only_new_groups_except [node_AB; decl_target c]
              (fd (tree_writer ONED)) (fd w').
Proof.
  intros c. eexists. split; [vm_compute; reflexivity|].
  apply (declare_links_ancestor closest_common_ancestor ValueError_noname
      c cells cells_paths
           (tree_writer ONED)).
  - apply skeleton_tree_writer.
  - discriminate.
  - reflexivity.
  - vm_compute. reflexivity.
  - intros g Hg. discriminate Hg.
  - vm_compute. lia.
  - apply cells_resolve.
  - discriminate.
  - vm_compute. reflexivity.
  - exact I.
Defined.

#[global] Instance links_only_preorder : PreOrder links_only.
Proof.
  split.
  - intros w. by repeat split.
  - intros w1 w2 w3 (Hd1 & Hi1 & Hk1) (Hd2 & Hi2 & Hk2). repeat split.
    + congruence.
    + congruence.
    + intros p. by rewrite Hk2, Hk1.
Qed.

Lemma without_links_set k v n :
  k = "map" ∨ k = "model" → without_links (set_node_attr k v n) = without_links n.
Proof.
  intros H.
  assert (Hcut : ∀ a : gmap string attr,
            delete "map" (delete "model" (<[k := v]> a))
            = delete "map" (delete "model" a)).
  { intros a. destruct H as [->| ->].
    - by rewrite !(delete_delete _ "map" "model"), delete_insert_eq.
    - by rewrite delete_insert_eq. }
  destruct n as [a|d]; unfold without_links, set_node_attr; cbn [ds_data ds_fill
    ds_maxshape ds_attrs ds_scale ds_dims ds_labels]; by rewrite Hcut.
Qed.

Lemma links_only_attrs_set p k v :
  k = "map" ∨ k = "model" → preserves links_only (attrs_set p k v).
Proof.
  intros Hk w w' r. unfold attrs_set. rewrite bind_eq. unfold h5_getitem.
  destruct (fd w !! p) as [n|] eqn:E; intros [= <- _]; [|reflexivity].
  repeat split. intros q. cbn [fd set_fd].
  destruct (decide (q = p)) as [->|Hne].
  - rewrite lookup_insert_eq, E. cbn. by rewrite without_links_set.
  - by rewrite lookup_insert_ne.
Qed.

Lemma links_only_attrs_set_map p v : preserves links_only (attrs_set p "map" v).
Proof. apply links_only_attrs_set. by left. Qed.

Lemma links_only_attrs_set_model p v : preserves links_only (attrs_set p "model" v).
Proof. apply links_only_attrs_set. by right. Qed.

Lemma links_only_print s : preserves links_only (print s).
Proof. intros w w' r [= <- _]. by repeat split. Qed.

#[global] Hint Resolve links_only_attrs_set_map links_only_attrs_set_model
  links_only_print : preserves.

Lemma links_only_link_map_model common_prefix noname mapds :
  preserves links_only (_link_map_model common_prefix noname mapds).
Proof. unfold _link_map_model. preserves_tac. Qed.

(** X15. [_link_map_model] writes nothing but the attributes [map] and
    [model], however it ends: linked, with the KeyError of a missing
    ancestor logged, or raising.  No object is created or removed, a
    group stays a group and a dataset a dataset, and every dataset keeps
    its contents, fill value, maximal shape, scales and labels and every
    attribute of another name.  The dialect and the id-to-path dictionary
    of the writer are what they were. *)
Theorem linker_keeps_objects (common_prefix : list path → path) (noname : exn)
    (mapds : path) (w : NSDFWriter) :
  let w' := (_link_map_model common_prefix noname mapds w).1 in
  same_kinds w w' ∧ links_only w w'.
Proof.
  cbn zeta.
  destruct (_link_map_model common_prefix noname mapds w) as [w' r] eqn:Hrun.
  split.
  - exact (same_kinds_link_map_model common_prefix noname mapds w w' r Hrun).
  - exact (links_only_link_map_model common_prefix noname mapds w w' r Hrun).
Qed.

(** ** The dialect check of the appending methods *)

(** X13. A method called under a dialect it does not accept raises its
    dialect error first, and leaves the writer and the file as they
    were, whatever the mapping and the batch are. *)
Theorem wrong_dialect_refused (c : append_call) (source_ds : path) (fixed : bool)
    (w : NSDFWriter) :
  call_dialect_ok c (dialect w) = false →
  append c source_ds fixed w = (w, Raise (dialect_error c)).
Proof.
  intros Hdia.
  destruct c as [d tstart|d|d|d names|d names|d|d|d|d];
    cbn [call_dialect_ok] in Hdia; try discriminate Hdia;
    cbn [append dialect_error]; apply discard_raise.
  - unfold add_nonuniform_1d. rewrite bind_eq. cbn [get_writer].
    by rewrite bind_eq, (assert_false _ _ _ Hdia).
  - unfold add_event_1d. rewrite bind_eq. cbn [get_writer].
    by rewrite bind_eq, (assert_false _ _ _ Hdia).
  - unfold add_nonuniform_vlen. rewrite bind_eq. cbn [get_writer].
    by rewrite Hdia.
  - unfold add_event_vlen. rewrite bind_eq. cbn [get_writer].
    by rewrite Hdia.
  - unfold add_nonuniform_nan. rewrite bind_eq. cbn [get_writer].
    by rewrite bind_eq, (assert_false _ _ _ Hdia).
  - unfold add_event_nan. rewrite bind_eq. cbn [get_writer].
    by rewrite bind_eq, (assert_false _ _ _ Hdia).
Qed.

Lemma wrong_dialect_refused_witness :
  append (Add_event_vlen spikes_first) event_map false nan_event_writer
  = (nan_event_writer, Raise Exception_dialect).
Proof.
  apply (wrong_dialect_refused (Add_event_vlen spikes_first) event_map false
           nan_event_writer).
  vm_compute. reflexivity.
Defined.

(** ** Model components *)

Lemma foldl_insert_untouched (l : list (string * attr)) : ∀ (a : gmap string attr) k,
  k ∉ l.*1 → foldl (λ a kv, <[kv.1 := kv.2]> a) a l !! k = a !! k.
Proof.
  induction l as [|x l IH]; intros a k Hk; [done|].
  cbn in Hk. apply not_elem_of_cons in Hk as [Hne Hk].
  cbn [foldl]. rewrite IH by done. by rewrite lookup_insert_ne.
Qed.

Lemma foldl_insert_stored (l : list (string * attr)) : ∀ (a : gmap string attr) k v,
  NoDup l.*1 → (k, v) ∈ l → foldl (λ a kv, <[kv.1 := kv.2]> a) a l !! k = Some v.
Proof.
  induction l as [|x l IH]; intros a k v Hnd Hin; [by apply elem_of_nil in Hin|].
  cbn in Hnd. apply NoDup_cons in Hnd as [Hx Hnd].
  cbn [foldl]. apply elem_of_cons in Hin as [<-|Hin].
  - cbn in *. rewrite foldl_insert_untouched by done. by rewrite lookup_insert_eq.
  - by apply IH.
Qed.

(** A sequence of attribute writes decides the value of a key, or leaves
    it as it was: in both cases writing the sequence again changes
    nothing. *)
Lemma foldl_insert_decides (l : list (string * attr)) k :
  (∀ a : gmap string attr, foldl (λ a kv, <[kv.1 := kv.2]> a) a l !! k = a !! k)
  ∨ (∃ v, ∀ a : gmap string attr,
       foldl (λ a kv, <[kv.1 := kv.2]> a) a l !! k = Some v).
Proof.
  induction l as [|x l IH]; [by left|].
  destruct IH as [IH|[v IH]].
  - destruct (decide (k = x.1)) as [->|Hne].
    + right. exists x.2. intros a. cbn [foldl]. by rewrite IH, lookup_insert_eq.
    + left. intros a. cbn [foldl]. by rewrite IH, lookup_insert_ne.
  - right. exists v. intros a. cbn [foldl]. apply IH.
Qed.

Lemma stored_attrs_idempotent c a0 : stored_attrs c (stored_attrs c a0) = stored_attrs c a0.
Proof.
  unfold stored_attrs.
  set (l := ("uid", AStr (default (mc_path c) (mc_uid c))) :: mc_attrs c).
  change (foldl (λ a kv, <[kv.1 := kv.2]> a)
            (foldl (λ a kv, <[kv.1 := kv.2]> a) a0 l) l
          = foldl (λ a kv, <[kv.1 := kv.2]> a) a0 l).
  apply map_eq. intros k.
  destruct (foldl_insert_decides l k) as [H|[v H]]; by rewrite !H.
Qed.

Lemma for_each_attrs_set (p : path) (l : list (string * attr)) : ∀ w a,
  fd w !! p = Some (Group a) →
  for_each l (λ kv, attrs_set p kv.1 kv.2) w
  = (set_fd <[p := Group (foldl (λ a kv, <[kv.1 := kv.2]> a) a l)]> w, Ok tt).
Proof.
  induction l as [|x l IH]; intros w a Hp.
  - cbn. rewrite set_fd_id; [done|]. by apply insert_id.
  - cbn [for_each foldl]. rewrite bind_eq, (attrs_set_some _ _ _ _ _ Hp).
    cbn [set_node_attr].
    erewrite IH by (cbn; apply lookup_insert_eq).
    rewrite set_fd_set_fd. f_equal. unfold set_fd. f_equal. cbn.
    by rewrite insert_insert_eq.
Qed.

Lemma add_model_component_run c parent w a :
  fd w !! (parent ++ [mc_name c]) = Some (Group a) →
  add_model_component c parent w
  = (set_fd <[parent ++ [mc_name c] := Group (stored_attrs c a)]> w,
     Ok (parent ++ [mc_name c])).
Proof.
  intros Hp. unfold add_model_component.
  rewrite bind_eq, require_group_found by (by exists a).
  rewrite bind_eq, (attrs_set_some _ _ _ _ _ Hp). cbn [set_node_attr].
  rewrite bind_eq.
  erewrite for_each_attrs_set by (cbn; apply lookup_insert_eq).
  unfold mret, M_ret. rewrite set_fd_set_fd. f_equal. unfold set_fd. f_equal. cbn.
  by rewrite insert_insert_eq.
Qed.

(** X11. [add_model_component] makes the group of the component under
    the parent group, where no dataset has its name, and returns it. The
    group has the attribute [uid], the uid of the component or its path
    when it has none, and the attributes of the component (the last
    value for a key; with distinct keys, each of them), over the
    attributes the group had before. Adding the same component again
    changes nothing. *)
Theorem add_model_component_idempotent (c : ModelComponent) (parent : path)
    (w : NSDFWriter) :
  let grp := parent ++ [mc_name c] in
  let a0 := from_option node_attrs ∅ (fd w !! grp) in
  let w' := set_fd <[grp := Group (stored_attrs c a0)]> w in
  not_dataset_at (fd w) grp →
  add_model_component c parent w = (w', Ok grp)
  ∧ add_model_component c parent w' = (w', Ok grp)
  ∧ ("uid" ∉ (mc_attrs c).*1 →
       stored_attrs c a0 !! "uid" = Some (AStr (default (mc_path c) (mc_uid c))))
  ∧ (NoDup (mc_attrs c).*1 →
       ∀ k v, (k, v) ∈ mc_attrs c → stored_attrs c a0 !! k = Some v)
  ∧ (∀ k, k ≠ "uid" → k ∉ (mc_attrs c).*1 → stored_attrs c a0 !! k = a0 !! k).
Proof.
  intros grp a0 w' Hnd. split; [|split; [|split; [|split]]].
  - destruct (fd w !! grp) as [[a|d]|] eqn:E.
    + subst a0 w'. cbn. by apply add_model_component_run.
    + by destruct (Hnd d).
    + subst a0 w'. cbn. unfold add_model_component.
      rewrite bind_eq, require_group_new by exact E. fold grp.
      set (w1 := set_fd _ w).
      assert (H1 : fd w1 !! grp = Some (Group ∅))
        by (unfold w1; cbn; apply lookup_insert_eq).
      rewrite bind_eq, (attrs_set_some _ _ _ _ _ H1). cbn [set_node_attr].
      rewrite bind_eq.
      erewrite for_each_attrs_set by (cbn; apply lookup_insert_eq).
      unfold mret, M_ret, w1. rewrite !set_fd_set_fd. f_equal.
      unfold set_fd. f_equal. cbn. by rewrite !insert_insert_eq.
  - assert (H' : fd w' !! grp = Some (Group (stored_attrs c a0)))
      by (unfold w'; cbn; apply lookup_insert_eq).
    rewrite (add_model_component_run c parent w' _ H'). fold grp.
    rewrite stored_attrs_idempotent. f_equal.
    unfold w'. rewrite set_fd_set_fd. unfold set_fd. f_equal. cbn.
    by rewrite insert_insert_eq.
  - intros Huid. unfold stored_attrs.
    rewrite foldl_insert_untouched by done. by rewrite lookup_insert_eq.
  - intros Hdup k v Hin. unfold stored_attrs. by apply foldl_insert_stored.
  - intros k Hne Hk. unfold stored_attrs.
    rewrite foldl_insert_untouched by done. by rewrite lookup_insert_ne.
Qed.

Lemma add_model_component_idempotent_witness :
  let w := fresh_writer ONED in
  let grp := modeltree ++ [mc_name soma] in
  let a0 := from_option node_attrs ∅ (fd w !! grp) in
  let w' := set_fd <[grp := Group (stored_attrs soma a0)]> w in
  add_model_component soma modeltree w = (w', Ok grp)
  ∧ add_model_component soma modeltree w' = (w', Ok grp)
  ∧ ("uid" ∉ (mc_attrs soma).*1 →
       stored_attrs soma a0 !! "uid" = Some (AStr (default (mc_path soma) (mc_uid soma))))
  ∧ (NoDup (mc_attrs soma).*1 →
       ∀ k v, (k, v) ∈ mc_attrs soma → stored_attrs soma a0 !! k = Some v)
  ∧ (∀ k, k ≠ "uid" → k ∉ (mc_attrs soma).*1 → stored_attrs soma a0 !! k = a0 !! k).
Proof.
  intros w grp a0 w'.
  apply (add_model_component_idempotent soma modeltree w).
  intros d H. vm_compute in H. discriminate.
Defined.


(** ** Opening a file *)

Lemma lookup_ensure_group_ne q p f : q ≠ p → ensure_group q f !! p = f !! p.
Proof.
  intros Hne. unfold ensure_group. destruct (f !! q); [done|].
  by rewrite lookup_insert_ne.
Qed.

Lemma not_dataset_at_ensure_group q p f :
  not_dataset_at f p → not_dataset_at (ensure_group q f) p.
Proof.
  intros Hnd d. unfold ensure_group. destruct (f !! q) eqn:E; [apply Hnd|].
  destruct (decide (q = p)) as [->|Hne].
  - by rewrite lookup_insert_eq.
  - rewrite lookup_insert_ne by done. apply Hnd.
Qed.

Lemma is_group_at_ensure_group q f :
  not_dataset_at f q → is_group_at (ensure_group q f) q.
Proof.
  intros Hnd. unfold ensure_group. destruct (f !! q) as [[a|d]|] eqn:E.
  - by exists a.
  - by destruct (Hnd d).
  - exists ∅. by rewrite lookup_insert_eq.
Qed.

Lemma is_group_at_ensure_group_other q p f :
  is_group_at f p → is_group_at (ensure_group q f) p.
Proof.
  intros [a Ha]. exists a. unfold ensure_group. destruct (f !! q) eqn:E; [done|].
  rewrite lookup_insert_ne; [done|]. intros ->. congruence.
Qed.

Lemma only_new_groups_ensure_group q f : only_new_groups f (ensure_group q f).
Proof.
  unfold ensure_group. destruct (f !! q) eqn:E.
  - apply only_new_groups_refl.
  - by apply only_new_groups_insert.
Qed.

Lemma only_new_groups_except_step ps f f1 q :
  only_new_groups_except ps f f1 →
  only_new_groups_except ps f (ensure_group q f1).
Proof.
  intros H p Hp. destruct (only_new_groups_ensure_group q f1 p) as [Heq|[Hn Hg]].
  - rewrite Heq. by apply H.
  - right. split; [|done]. destruct (H p Hp) as [<-|[_ Hs]]; [done|congruence].
Qed.

Lemma require_group_ensure w parent name :
  not_dataset_at (fd w) (parent ++ [name]) →
  require_group parent name w
  = (set_fd (ensure_group (parent ++ [name])) w, Ok (parent ++ [name])).
Proof.
  intros Hnd. unfold require_group, ensure_group, set_fd.
  destruct (fd w !! (parent ++ [name])) as [[a|d]|] eqn:E.
  - by destruct w.
  - by destruct (Hnd d).
  - reflexivity.
Qed.

Ltac in_list :=
  apply list_elem_of_In; cbn; repeat (first [left; reflexivity | right]).

Ltac no_dataset Hbase :=
  cbn [fd set_fd];
  repeat apply not_dataset_at_ensure_group;
  apply Hbase; unfold init_groups; in_list.

Ltac require_step Hbase :=
  rewrite bind_eq, require_group_ensure by no_dataset Hbase.

Ltac group_there Hbase :=
  cbn [fd set_fd];
  repeat first
    [ apply is_group_at_ensure_group;
      repeat apply not_dataset_at_ensure_group;
      apply Hbase; unfold init_groups; in_list
    | apply is_group_at_ensure_group_other ].

(** X12. [__init__] on a file whose root is there and in which none of
    the paths it requires holds a dataset: it succeeds, the groups
    [/data], [/model], [/map], [/map/time], [/model/modeltree] and
    [/data/<t>], [/map/<t>] for the four sampling types are in the file
    afterwards, the root has the attributes [timestamp] and [version]
    over those it had, and nothing else is changed: what a file that was
    written before holds is kept. *)
Theorem init_keeps_file (file : gmap path node) (d : dialect_t)
    (timestamp : string) (a : gmap string attr) :
  file !! [] = Some (Group a) →
  (∀ q, q ∈ init_groups → not_dataset_at file q) →
  ∃ w', NSDFWriter_init file d timestamp = (w', Ok tt)
        ∧ dialect w' = d
        ∧ (∀ q, q ∈ init_groups → is_group_at (fd w') q)
        ∧ skeleton (fd w')
        ∧ fd w' !! [] = Some (Group (<["version" := AStr "0.1"]>
                                       (<["timestamp" := AStr timestamp]> a)))
        ∧ only_new_groups_except [[]] file (fd w').
Proof.
  intros Hroot Hnd.
  set (a2 := <["version" := AStr "0.1"]> (<["timestamp" := AStr timestamp]> a)).
  set (w0 := mkWriter d file {["modeltree" := ["modeltree"]]} []).
  set (w2 := set_fd <[[] := Group a2]> w0).
  assert (Hbase : ∀ q, q ∈ init_groups → not_dataset_at (fd w2) q).
  { intros q Hq dd. unfold w2. cbn. rewrite lookup_insert_ne; [by apply Hnd|].
    intros <-. unfold init_groups in Hq. apply list_elem_of_In in Hq. cbn in Hq.
    intuition discriminate. }
  assert (Hstart : ∀ k : M unit,
            (attrs_set [] "timestamp" (AStr timestamp);;
             attrs_set [] "version" (AStr "0.1");; k) w0 = k w2).
  { intros k.
    rewrite bind_eq, (attrs_set_some w0 [] (Group a)) by exact Hroot.
    cbn [set_node_attr].
    rewrite bind_eq.
    erewrite attrs_set_some by (cbn; apply lookup_insert_eq).
    cbn [set_node_attr]. rewrite set_fd_set_fd. f_equal.
    unfold w2, set_fd. f_equal. cbn. by rewrite insert_insert_eq. }
  eexists. split; [|split; [|split; [|split; [|split]]]].
  - unfold NSDFWriter_init, init_file. fold w0. rewrite Hstart.
    require_step Hbase. require_step Hbase. require_step Hbase.
    require_step Hbase. require_step Hbase.
    unfold SAMPLING_TYPES. cbn [for_each].
    rewrite bind_eq. require_step Hbase. require_step Hbase. cbn [mret M_ret].
    rewrite bind_eq. require_step Hbase. require_step Hbase. cbn [mret M_ret].
    rewrite bind_eq. require_step Hbase. require_step Hbase. cbn [mret M_ret].
    rewrite bind_eq. require_step Hbase. require_step Hbase. cbn [mret M_ret].
    reflexivity.
  - reflexivity.
  - intros q Hq. unfold init_groups in Hq.
    repeat (apply elem_of_cons in Hq as [->|Hq]; [group_there Hbase|]).
    by apply elem_of_nil in Hq.
  - split; [group_there Hbase|]. split; [group_there Hbase|].
    intros stype Hs. unfold SAMPLING_TYPES in Hs.
    repeat (apply elem_of_cons in Hs as [->|Hs];
            [split; group_there Hbase|]).
    by apply elem_of_nil in Hs.
  - cbn [fd set_fd]. rewrite !lookup_ensure_group_ne by done.
    unfold w2. cbn. apply lookup_insert_eq.
  - cbn [fd set_fd]. repeat apply only_new_groups_except_step.
    intros p Hp. apply not_elem_of_cons in Hp as [Hp _]. left.
    unfold w2. cbn. by rewrite lookup_insert_ne.
Qed.

Lemma no_dataset_by_kind (f : gmap path node) q :
  from_option is_group true (f !! q) = true → not_dataset_at f q.
Proof. intros H d Hd. rewrite Hd in H. discriminate. Qed.

Lemma init_keeps_file_witness :
  let a := from_option node_attrs ∅ (reopened_file !! []) in
  reopened_file !! [] = Some (Group a)
  ∧ ∃ w', NSDFWriter_init reopened_file VLEN "2014-05-01T10:00:00" = (w', Ok tt)
      ∧ dialect w' = VLEN
      ∧ (∀ q, q ∈ init_groups → is_group_at (fd w') q)
      ∧ skeleton (fd w')
      ∧ fd w' !! [] = Some (Group (<["version" := AStr "0.1"]>
                              (<["timestamp" := AStr "2014-05-01T10:00:00"]> a)))
      ∧ only_new_groups_except [[]] reopened_file (fd w').
Proof.
  intros a.
  assert (Hroot : reopened_file !! [] = Some (Group a)) by (vm_compute; reflexivity).
  assert (Hnd : ∀ q, q ∈ init_groups → not_dataset_at reopened_file q).
  { apply Forall_forall. unfold init_groups.
    repeat (apply Forall_cons; split;
            [apply no_dataset_by_kind; vm_compute; reflexivity|]).
    apply Forall_nil_2. }
  split; [exact Hroot|].
  exact (init_keeps_file reopened_file VLEN "2014-05-01T10:00:00" a Hroot Hnd).
Defined.

(** ** The padded dialect: creation *)

Lemma find_isnan_app_nan (x : list float) k :
  find_isnan x = None → row_start (x ++ replicate k nan) = length x.
Proof.
  unfold row_start. induction x as [|v x IH]; intros Hx.
  - destruct k; reflexivity.
  - cbn in Hx. cbn [app find_isnan].
    destruct (PrimFloat.is_nan v); [discriminate|].
    destruct (find_isnan x) as [n|] eqn:E; [discriminate|].
    specialize (IH eq_refl).
    destruct (find_isnan (x ++ replicate k nan)) as [m|]; cbn in *.
    + by rewrite IH.
    + rewrite length_app in IH. cbn. rewrite length_app. lia.
Qed.

Lemma write_slices_fresh (batch : list (list float)) n :
  length batch = n →
  write_slices 0 (replicate n 0)
    (replicate n (replicate (max_list (length <$> batch)) nan)) batch
  = padded_rows batch.
Proof.
  intros Hlen. set (width := max_list (length <$> batch)).
  apply list_eq. intros j. unfold padded_rows. fold width.
  rewrite list_lookup_fmap.
  destruct (batch !! j) as [x|] eqn:Hx.
  - assert (Hj : j < n) by (apply lookup_lt_Some in Hx; lia).
    pose proof (write_slices_lookup (replicate n 0) batch 0
                  (replicate n (replicate width nan)) j x (replicate width nan) Hx)
      as Hw.
    cbn [Nat.add] in Hw. rewrite Hw by (by apply lookup_replicate_2).
    rewrite lookup_replicate_2 by done. cbn.
    by rewrite drop_replicate.
  - cbn. apply lookup_ge_None_2. rewrite length_write_slices, length_replicate.
    apply lookup_ge_None_1 in Hx. lia.
Qed.

(** X14. The first call of [add_event_nan] for a name, with a unit: the
    array is created with a row for every id of the mapping and as many
    columns as the longest row of the batch has samples; the row of a
    source is its samples followed by not-a-number up to that width. The
    array carries the attributes [field] and [unit], its fill value is
    not-a-number, and it can grow unless the call was a one-time write.
    Where the samples of a source hold no not-a-number, the next append
    to its row starts right after them. *)
Theorem event_nan_created (source_ds : path) (d : NSDFData (list float))
    (fixed : bool) (ids : list string) (batch : list (list float))
    (unit : string) (w : NSDFWriter) (ds : dataset) :
  let target := data_grp ++ [EVENT; rpartition_last source_ds] ++ [d_name d] in
  let width := max_list (length <$> batch) in
  dialect w = NANPADDED →
  skeleton (fd w) →
  not_dataset_at (fd w) (data_grp ++ [EVENT; rpartition_last source_ds]) →
  fd w !! source_ds = Some (Dataset ds) → ds_data ds = Ids ids →
  fd w !! target = None →
  d_unit d = Some unit →
  (∀ x, x ∈ ids ↔ x ∈ get_sources d) →
  rows_of d ids = Some batch →
  ids ≠ [] →
  ∃ w' dd,
    add_event_nan source_ds d fixed w = (w', Ok target)
    ∧ fd w' !! target = Some (Dataset dd)
    ∧ ds_data dd = Array2 (padded_rows batch)
    ∧ ds_fill dd = nan
    ∧ ds_maxshape dd = Some [maxcol_of fixed (length ids); maxcol_of fixed width]
    ∧ ds_attrs dd = <["unit" := AStr unit]> (<["field" := AStr (d_field d)]> ∅)
    ∧ ∀ x, x ∈ batch → find_isnan x = None →
        row_start (x ++ replicate (width - length x) nan) = length x.
Proof.
  intros target width Hdia Hsk Hnd Hs Hds Habs Hunit Hm Hrows Hne.
  destruct sampling_types_elem as (_ & _ & He & _).
  pose proof (skeleton_data _ _ Hsk He) as Hns.
  assert (Hbatch : length batch = length ids).
  { apply mapM_Some in Hrows. symmetry. by eapply Forall2_length. }
  assert (Hcols : length <$> batch ≠ []).
  { destruct batch, ids; cbn in *; congruence. }
  destruct (flat_enter EVENT source_ds (get_sources d) w ds ids)
    as (w1 & Hd1 & Hpop1 & Hfd1 & Henter); auto.
  assert (Hs1 : fd w1 !! source_ds = Some (Dataset ds))
    by (by eapply lookup_after_group).
  assert (Habs1 : fd w1 !! target = None).
  { eapply (lookup_none_after_group _ _ _ (d_name d)) in Hfd1; [exact Hfd1|exact Habs]. }
  assert (Hne' : source_ds ≠ target) by (intros Heq; rewrite Heq in Hs1; congruence).
  assert (Hdia1 : dialect w1 = NANPADDED) by congruence.
  subst target. unfold data_grp in *. cbn [app] in *.
  set (target := ["data"; EVENT; rpartition_last source_ds; d_name d]) in *.
  set (d0 := nan_dataset (length ids) width
               (Some [maxcol_of fixed (length ids); maxcol_of fixed width])).
  set (w2 := set_fd <[target := Dataset d0]> w1).
  assert (Ht2 : fd w2 !! target = Some (Dataset d0))
    by (unfold w2; cbn; apply lookup_insert_eq).
  pose proof (attrs_set_some w2 target _ "field" (AStr (d_field d)) Ht2) as Hrun3.
  cbn [set_node_attr] in Hrun3.
  match type of Hrun3 with
  | _ = (set_fd <[_ := Dataset ?x]> _, _) => set (d3 := x) in Hrun3
  end.
  set (w3 := set_fd _ w2) in Hrun3.
  assert (Ht3 : fd w3 !! target = Some (Dataset d3))
    by (unfold w3; cbn [fd set_fd]; apply lookup_insert_eq).
  pose proof (attrs_set_some w3 target _ "unit" (AStr unit) Ht3) as Hrun4.
  cbn [set_node_attr] in Hrun4.
  match type of Hrun4 with
  | _ = (set_fd <[_ := Dataset ?x]> _, _) => set (d4 := x) in Hrun4
  end.
  set (w4 := set_fd _ w3) in Hrun4.
  assert (Hs4 : fd w4 !! source_ds = Some (Dataset ds)).
  { unfold w4, w3, w2. cbn [fd set_fd]. by rewrite !lookup_insert_ne. }
  pose proof (create_scale_eq w4 source_ds ds "source" Hs4) as Hrun5.
  set (w5 := set_fd _ w4) in Hrun5.
  assert (Ht5 : fd w5 !! target = Some (Dataset d4)).
  { unfold w5, w4. cbn [fd set_fd]. rewrite lookup_insert_ne by done.
    apply lookup_insert_eq. }
  pose proof (attach_scale_eq w5 target d4 0 source_ds Ht5) as Hrun6.
  match type of Hrun6 with
  | _ = (set_fd <[_ := Dataset ?x]> _, _) => set (d6 := x) in Hrun6
  end.
  set (w6 := set_fd _ w5) in Hrun6.
  assert (Ht6 : fd w6 !! target = Some (Dataset d6))
    by (unfold w6; cbn [fd set_fd]; apply lookup_insert_eq).
  eexists _, _. split; [|split; [|split; [|split; [|split; [|split]]]]].
  - unfold add_event_nan. rewrite bind_eq. cbn [get_writer].
    rewrite bind_eq, (nan_dialect_ok _ _ Hdia).
    unfold data_grp. cbn [app]. rewrite Henter. cbn [app]. fold target.
    rewrite bind_eq, (mapM_data_of_ok _ _ _ _ Hrows). cbn zeta.
    rewrite bind_eq, try_lookup_missing by exact Habs1.
    rewrite bind_eq, Hunit. cbn [lift_option mret M_ret].
    assert (Hmaxcols : ∀ w0,
              (if fixed then m ← py_max (length <$> batch); mret (Some m)
               else mret None) w0 = (w0, Ok (maxcol_of fixed width))).
    { intros w0. destruct fixed; [|reflexivity].
      by rewrite bind_eq, py_max_ok. }
    rewrite bind_eq, Hmaxcols.
    rewrite bind_eq, py_max_ok by done. fold width.
    rewrite bind_eq.
    rewrite (create_dataset_new w1 ["data"; EVENT; rpartition_last source_ds]
               (d_name d)) by exact Habs1.
    cbn [app]. fold target. fold d0. fold w2.
    rewrite bind_eq, Hrun3. rewrite bind_eq, Hrun4.
    rewrite bind_eq. unfold attach_source. rewrite bind_eq, Hrun5, Hrun6.
    cbn [mret M_ret fst snd]. unfold enumerate. rewrite bind_eq.
    erewrite (event_nan_loop target _ _ batch 0 w6 d6
                (replicate (length ids) (replicate width nan)) Ht6 eq_refl).
    + reflexivity.
    + intros j x Hx.
      assert (Hj : j < length ids) by (apply lookup_lt_Some in Hx; lia).
      exists 0, (replicate width nan). cbn [Nat.add].
      rewrite !lookup_replicate_2 by done.
      rewrite list_lookup_fmap, Hx. repeat split.
      rewrite length_replicate. apply max_list_elem_of_le.
      apply (list_elem_of_lookup_2 _ j). by rewrite list_lookup_fmap, Hx.
  - cbn [fd set_fd]. apply lookup_insert_eq.
  - cbn [ds_data set_data]. f_equal. fold width. by apply write_slices_fresh.
  - reflexivity.
  - reflexivity.
  - reflexivity.
  - intros x _ Hx. by apply find_isnan_app_nan.
Qed.

Lemma event_nan_created_witness :
  let target := data_grp ++ [EVENT; rpartition_last event_map] ++ ["spikes"] in
  let batch := [[1; 2]; []; [3]]%float in
  ∃ w' dd,
    add_event_nan event_map spikes_first false nan_event_writer = (w', Ok target)
    ∧ fd w' !! target = Some (Dataset dd)
    ∧ ds_data dd = Array2 (padded_rows batch)
    ∧ ds_fill dd = nan
    ∧ ds_maxshape dd
      = Some [maxcol_of false (length cells);
              maxcol_of false (max_list (length <$> batch))]
    ∧ ds_attrs dd = <["unit" := AStr "s"]> (<["field" := AStr "spikes"]> ∅)
    ∧ ∀ x, x ∈ batch → find_isnan x = None →
        row_start (x ++ replicate (max_list (length <$> batch) - length x) nan)
        = length x.
Proof.
  intros target batch.
  eapply (event_nan_created event_map spikes_first false cells batch "s"
            nan_event_writer).
  - reflexivity.
  - apply skeleton_nan_event_writer.
  - apply no_dataset_by_kind. vm_compute. reflexivity.
  - vm_compute. reflexivity.
  - reflexivity.
  - vm_compute. reflexivity.
  - reflexivity.
  - sources_by_computation.
  - vm_compute. reflexivity.
  - discriminate.
Defined.

(** ** The per-source methods: metadata *)

Lemma lookup_ensure_group_dataset q p f d :
  f !! p = Some (Dataset d) → ensure_group q f !! p = Some (Dataset d).
Proof.
  intros Hp. unfold ensure_group. destruct (f !! q) eqn:E; [done|].
  rewrite lookup_insert_ne; [done|]. intros ->. congruence.
Qed.

Lemma lookup_ensure_group_none q p f :
  q ≠ p → f !! p = None → ensure_group q f !! p = None.
Proof. intros Hne Hp. by rewrite lookup_ensure_group_ne. Qed.

(** The first write of a variable by a per-source method, when the
    metadata is missing: what is left of the call. *)
Lemma per_source_raise {A} (m : M A) w w' e target source_ds :
  m w = (w', Raise e) → classify e = Some MissingMetadata →
  attrs_at w' target
  = Some (<["source" := ARef source_ds]> (default ∅ (attrs_at w target))) →
  only_new_groups_except [target] (fd w) (fd w') →
  ∃ w' e, discard m w = (w', Raise e)
          ∧ classify e = Some MissingMetadata
          ∧ attrs_at w' target
            = Some (<["source" := ARef source_ds]> (default ∅ (attrs_at w target)))
          ∧ only_new_groups_except [target] (fd w) (fd w').
Proof. intros Hm Hc Ha Ho. exists w', e. repeat split; auto. by apply discard_raise. Qed.

(** The group of the variable after [require_group] twice and the write
    of its attribute [source]. *)
Lemma variable_group_written w pop name source_ds :
  let popgrp := pop in
  let target := pop ++ [name] in
  not_dataset_at (fd w) popgrp → not_dataset_at (fd w) target →
  ∃ a, ensure_group target (ensure_group popgrp (fd w)) !! target = Some (Group a)
       ∧ a = default ∅ (attrs_at w target)
       ∧ only_new_groups_except [target] (fd w)
           (<[target := Group (<["source" := ARef source_ds]> a)]>
              (ensure_group target (ensure_group popgrp (fd w)))).
Proof.
  intros popgrp target Hpop Ht.
  assert (Hne : popgrp ≠ target) by apply not_eq_sym, app_singleton_ne.
  assert (Hlook : ensure_group popgrp (fd w) !! target = fd w !! target)
    by (by apply lookup_ensure_group_ne).
  exists (default ∅ (attrs_at w target)). split; [|split; [done|]].
  - unfold ensure_group at 1. rewrite Hlook. unfold attrs_at.
    destruct (fd w !! target) as [[a|d]|] eqn:E; cbn.
    + by rewrite Hlook.
    + by destruct (Ht d).
    + by rewrite lookup_insert_eq.
  - intros p Hp. apply not_elem_of_cons in Hp as [Hp _].
    rewrite lookup_insert_ne by done.
    rewrite lookup_ensure_group_ne by done.
    apply only_new_groups_ensure_group.
Qed.

(** X16. The first write of a variable by a per-source method
    ([add_nonuniform_1d], [add_event_1d]) when the metadata is missing:
    the call raises the missing-metadata error only after it has made
    the group of the variable and written its attribute [source].  No
    dataset is created, and apart from that group the file shows at most
    the new, empty group of the population. *)
Theorem per_source_metadata_checked_late (c : append_call) (source_ds : path)
    (fixed : bool) (w : NSDFWriter) (ds : dataset)
    (l : list (string * option path)) (source dsetname : string) (rest : list string) :
  let target := call_target c source_ds in
  is_1d c = true →
  call_dialect_ok c (dialect w) = true →
  skeleton (fd w) →
  not_dataset_at (fd w) (call_group c source_ds) →
  not_dataset_at (fd w) target →
  fd w !! source_ds = Some (Dataset ds) → ds_data ds = SrcMap l →
  l.*1 = source :: rest →
  (∀ x, x ∈ dict_keys (call_names c) ↔ x ∈ call_sources c) →
  (checks_mapping c = true → ∀ x, x ∈ l.*1 ↔ x ∈ dict_keys (call_names c)) →
  call_has_data c source = true →
  call_names c !! source = Some dsetname →
  fd w !! (target ++ [dsetname]) = None →
  metadata_missing c = true →
  ∃ w' e, append c source_ds fixed w = (w', Raise e)
          ∧ classify e = Some MissingMetadata
          ∧ attrs_at w' target
            = Some (<["source" := ARef source_ds]> (default ∅ (attrs_at w target)))
          ∧ only_new_groups_except [target] (fd w) (fd w').
Proof.
  intros target H1d Hdia Hsk Hpop Ht Hs Hds Hl Hkeys Hmap Hdata Hname Habs Hmiss.
  destruct (skeleton_data _ _ Hsk (call_namespace_sampling c)) as [g Hg].
  subst target. unfold call_target, call_group, call_popname in *. rewrite H1d in *.
  set (popgrp := data_grp ++ [call_namespace c; split_penultimate source_ds]) in *.
  set (target := popgrp ++ [call_name c]) in *.
  destruct (variable_group_written w popgrp (call_name c) source_ds Hpop Ht)
    as (a & Hgrp & Ha & Hother).
  fold target in Hgrp, Hother, Ha.
  set (w0 := set_fd (ensure_group popgrp) w).
  set (w1 := set_fd (ensure_group target) w0).
  set (w2 := set_fd <[target := set_node_attr "source" (ARef source_ds) (Group a)]> w1).
  assert (Hs0 : fd w0 !! source_ds = Some (Dataset ds))
    by (by apply lookup_ensure_group_dataset).
  assert (Hs2 : fd w2 !! source_ds = Some (Dataset ds)).
  { unfold w2, w1. cbn [fd set_fd]. rewrite lookup_insert_ne.
    - by apply lookup_ensure_group_dataset.
    - intros Heq. rewrite <- Heq in Hs. by destruct (Ht ds). }
  assert (Ht0 : not_dataset_at (fd w0) target)
    by (by apply not_dataset_at_ensure_group).
  assert (Habs2 : fd w2 !! (target ++ [dsetname]) = None).
  { unfold w2, w1, w0. cbn [fd set_fd].
    rewrite lookup_insert_ne by apply not_eq_sym, app_singleton_ne.
    rewrite lookup_ensure_group_ne by apply not_eq_sym, app_singleton_ne.
    apply lookup_ensure_group_none; [|exact Habs].
    intros Heq. apply (f_equal length) in Heq. unfold target in Heq.
    rewrite !length_app in Heq. cbn in Heq. lia. }
  assert (Hattr : attrs_at w2 target
            = Some (<["source" := ARef source_ds]> (default ∅ (attrs_at w target)))).
  { unfold attrs_at, w2. cbn [fd set_fd]. rewrite lookup_insert_eq. cbn. by rewrite Ha. }
  assert (Hrg0 : require_group (data_grp ++ [call_namespace c])
                   (split_penultimate source_ds) w = (w0, Ok popgrp)).
  { unfold popgrp. change (data_grp ++ [call_namespace c; split_penultimate source_ds])
      with ((data_grp ++ [call_namespace c]) ++ [split_penultimate source_ds]).
    by apply require_group_ensure. }
  assert (Hrg1 : require_group popgrp (call_name c) w0 = (w1, Ok target))
    by (by apply require_group_ensure).
  assert (Hset : attrs_set target "source" (ARef source_ds) w1 = (w2, Ok tt))
    by (by apply attrs_set_some).
  unfold metadata_missing in Hmiss.
  destruct c as [d tstart|d|d|d names|d names|d|d|d|d];
    cbn [append call_sources call_namespace call_dialect_ok is_1d call_name
         call_unit call_tunit call_dt needs_tunit needs_dt call_names call_has_data
         checks_mapping andb orb] in *;
    try discriminate H1d.
  - (* add_nonuniform_1d *)
    apply bool_decide_eq_true in Hdata as [x Hx].
    assert (∃ e, classify e = Some MissingMetadata
              ∧ ∀ A (k : string → string → M A) w3,
                  (unit ← lift_option ValueError_unit (d_unit d);
                   tunit ← lift_option ValueError_tunit (d_tunit d);
                   k unit tunit) w3 = (w3, Raise e)) as (e & He & Hraise).
    { destruct (d_unit d) as [u|] eqn:Hu.
      - destruct (d_tunit d) as [tu|] eqn:Htu; [discriminate|].
        exists ValueError_tunit. split; [done|]. intros A k w3. reflexivity.
      - exists ValueError_unit. split; [done|]. intros A k w3. reflexivity. }
    eapply (per_source_raise _ w w2 e); [|exact He|exact Hattr|exact Hother].
    unfold add_nonuniform_1d.
    rewrite bind_eq. cbn [get_writer].
    rewrite bind_eq, (assert_true _ _ _ Hdia).
    rewrite bind_eq, (h5_getitem_some _ _ _ Hg).
    rewrite bind_eq, Hrg0.
    rewrite bind_eq, assert_true by (apply match_datasets_true; exact Hkeys).
    rewrite bind_eq, (source_column_ok _ _ _ _ Hs0 Hds).
    rewrite bind_eq, assert_true by (apply match_datasets_true; by apply Hmap).
    rewrite bind_eq, Hrg1. rewrite bind_eq, Hset.
    rewrite Hl. unfold enumerate. cbn [enumerate_from mapM fst snd].
    rewrite bind_eq. rewrite bind_eq. rewrite bind_eq.
    unfold data_of at 1. rewrite Hx. cbn [lift_option mret M_ret].
    rewrite bind_eq, Hname. cbn [lift_option mret M_ret].
    rewrite bind_eq, try_lookup_missing by exact Habs2.
    rewrite Hraise. reflexivity.
  - (* add_event_1d *)
    apply bool_decide_eq_true in Hdata as [x Hx].
    assert (Hu : d_unit d = None).
    { destruct (d_unit d); [discriminate|done]. }
    eapply (per_source_raise _ w w2 ValueError_unit); [|done|exact Hattr|exact Hother].
    unfold add_event_1d.
    rewrite bind_eq. cbn [get_writer].
    rewrite bind_eq, (assert_true _ _ _ Hdia).
    rewrite bind_eq, (h5_getitem_some _ _ _ Hg).
    rewrite bind_eq, Hrg0.
    rewrite bind_eq, assert_true by (apply match_datasets_true; exact Hkeys).
    rewrite bind_eq, Hrg1. rewrite bind_eq, Hset.
    rewrite bind_eq, (source_column_ok _ _ _ _ Hs2 Hds).
    rewrite Hl. unfold enumerate. cbn [enumerate_from mapM fst snd].
    rewrite bind_eq. rewrite bind_eq. rewrite bind_eq.
    unfold data_of at 1. rewrite Hx. cbn [lift_option mret M_ret].
    rewrite bind_eq, Hname. cbn [lift_option mret M_ret].
    rewrite bind_eq, try_lookup_missing by exact Habs2.
    rewrite Hu. reflexivity.
Qed.

Lemma per_source_metadata_checked_late_witness :
  let c := Add_nonuniform_1d (Vm_batch_1d None (Some "ms")) Vm_names in
  let target := call_target c Vm_map_1d in
  ∃ w' e, append c Vm_map_1d false oned_writer = (w', Raise e)
          ∧ classify e = Some MissingMetadata
          ∧ attrs_at w' target
            = Some (<["source" := ARef Vm_map_1d]> (default ∅ (attrs_at oned_writer target)))
          ∧ only_new_groups_except [target] (fd oned_writer) (fd w').
Proof.
  intros c target.
  eapply (per_source_metadata_checked_late c Vm_map_1d false oned_writer _
            [("c0", None); ("c1", None); ("c2", None)] "c0" "Vm_c0" ["c1"; "c2"]).
  - reflexivity.
  - reflexivity.
  - apply skeleton_oned_writer.
  - intros d H. vm_compute in H. discriminate.
  - intros d H. vm_compute in H. discriminate.
  - vm_compute. reflexivity.
  - reflexivity.
  - reflexivity.
  - apply match_datasets_true. vm_compute. reflexivity.
  - intros _. apply match_datasets_true. vm_compute. reflexivity.
  - vm_compute. reflexivity.
  - vm_compute. reflexivity.
  - vm_compute. reflexivity.
  - reflexivity.
Defined.
